(** * ForexAPI: the exchange-rate scraper pipeline

    A shallow embedding of [src/app/services/scraper.py] (class
    [ExchangeRateScraper]) and, from [src/app/api/routes.py], of
    [parse_period], [process_single_pair], [sync_forex_data] and the query
    of [get_forex_data], with the properties the specification states about
    them and further properties of the code.

    Conventions of the embedding.
    - Python integers are [Z]; epoch timestamps are kept as [Z] where the
      source carries them as decimal strings ([str(current_from)]).
    - A Python call either returns or raises: [outcome A].
    - Everything outside the process (HTTP, the SQLite file, the clocks, the
      time zone of the machine, the order in which pool threads finish) is
      an oracle passed explicitly.
    - Calls to [logger] change no state; what is kept of them is the
      evaluation of an argument that can raise, which is the line logged at
      the start of [get_exchange_data].
    - Library calls are modelled by what they do on ASCII text in the C
      locale: [str.strip], [str.replace], [int], [float],
      [datetime.strptime] and [strftime] (as CPython 3.11 behaves on glibc:
      [%Y] is not padded); the HTML reader is a parameter.
    - A rate is stored as SQLite stores a [Float]: a NaN becomes [NULL].
    - The thread pool of [get_exchange_data] is run one task at a time, in
      the order in which the futures complete; so is the pool of
      [sync_forex_data], whose answer is written as [jsonify] writes it,
      with sorted keys.
    - [get_forex_data] is embedded up to the rows its query returns, read
      from the database that [DATABASE_URL] names; the decoding of the
      request and the JSON answer are left out. *)

From Equations Require Import Equations.
From Stdlib Require Import ZArith List String Ascii Bool Arith Lia Permutation Sorted.
Import ListNotations.
Local Open Scope string_scope.
Local Open Scope list_scope.
Local Open Scope Z_scope.

(* ===================================================================== *)
(** * Chunk planning ([get_exchange_data], lines 64-74)                   *)
(* ===================================================================== *)

Module Planner.

(** [three_months = 90 * 24 * 60 * 60] *)
Definition three_months : Z := 90 * 24 * 60 * 60.

(** The [while current_from < to_date] loop; the list built by
    [chunks.append] is returned in append order. *)
Equations? chunk_loop (current_from to_date : Z) : list (Z * Z)
  by wf (Z.to_nat (to_date - current_from)) lt :=
chunk_loop current_from to_date with Z_lt_dec current_from to_date := {
  | left _ =>
      let current_to := Z.min (current_from + three_months) to_date in
      (current_from, current_to) :: chunk_loop (current_to + 1) to_date
  | right _ => [] }.
Proof. unfold three_months in *. lia. Qed.

(** [chunks] as computed from the two integer bounds. *)
Definition plan (from_date to_date : Z) : list (Z * Z) :=
  chunk_loop from_date to_date.

(** Ceiling of [a / b] for [b > 0]. *)
Definition ceil_div (a b : Z) : Z := (a + b - 1) / b.

(** Each window [(a, b)] is followed by one that starts at [b + 1]:
    as sets of integer seconds, closed windows neither overlap nor skip a
    second between them. *)
Fixpoint chained (ws : list (Z * Z)) : Prop :=
  match ws with
  | (_, b) :: (((a', _) :: _) as rest) => a' = b + 1 /\ chained rest
  | _ => True
  end.

(** A window is not empty and spans at most 90 days. *)
Definition span_ok (w : Z * Z) : Prop :=
  fst w < snd w /\ snd w - fst w <= three_months.

Definition first_start (ws : list (Z * Z)) : option Z := option_map fst (hd_error ws).

Fixpoint last_end (ws : list (Z * Z)) : option Z :=
  match ws with
  | [] => None
  | [(_, b)] => Some b
  | _ :: rest => last_end rest
  end.

(** The windows stay inside the requested range. *)
Definition within (lo hi : Z) (w : Z * Z) : Prop := lo <= fst w /\ snd w <= hi.

End Planner.

(* ===================================================================== *)
(** * Python values and library primitives                                *)
(* ===================================================================== *)

Module Py.

(** The exception classes that occur in the two modules; all of them derive
    from [Exception]. *)
Inductive exn : Type :=
| ValueError
| IndexError
| RequestException     (* raised by [requests.get] and by [UserAgent()] *)
| SQLAlchemyError      (* [sqlalchemy.exc.SQLAlchemyError] and subclasses *)
| RuntimeError.        (* any other subclass of [Exception] *)

Inductive outcome (A : Type) : Type :=
| Returned (a : A)
| Raised (e : exn).
Arguments Returned {A} a.
Arguments Raised {A} e.

Definition bind {A B} (x : outcome A) (k : A -> outcome B) : outcome B :=
  match x with
  | Returned a => k a
  | Raised e => Raised e
  end.

Notation "x <- c ;; k" := (bind c (fun x => k))
  (at level 61, c at next level, right associativity).

(** ** Text

    Cell texts are [string]s read as sequences of characters; the
    classification below is Python's for the ASCII range
    ([str.isspace], [str.isdigit]). *)

Definition code (c : ascii) : N := N_of_ascii c.

Definition is_space (c : ascii) : bool :=
  let n := code c in
  ((9 <=? n) && (n <=? 13) || (28 <=? n) && (n <=? 32))%N.

Definition is_digit (c : ascii) : bool :=
  let n := code c in ((48 <=? n) && (n <=? 57))%N.

Definition digit_val (c : ascii) : Z := Z.of_N (code c) - 48.

Definition lower (c : ascii) : ascii :=
  let n := code c in
  if ((65 <=? n) && (n <=? 90))%N then ascii_of_N (n + 32) else c.

Fixpoint lstrip (cs : list ascii) : list ascii :=
  match cs with
  | c :: rest => if is_space c then lstrip rest else cs
  | [] => []
  end.

Definition rstrip (cs : list ascii) : list ascii := rev (lstrip (rev cs)).

(** [s.strip()] *)
Definition strip (s : string) : string :=
  string_of_list_ascii (rstrip (lstrip (list_ascii_of_string s))).

(** [s.replace(',', '')] *)
Definition remove_commas (s : string) : string :=
  string_of_list_ascii
    (filter (fun c => negb (Ascii.eqb c ",")) (list_ascii_of_string s)).

(** The tail [(["_"] digit)*] of a [digitpart]: the digits read and the
    unread rest. *)
Fixpoint digit_tail (cs : list ascii) : list Z * list ascii :=
  match cs with
  | c :: rest =>
      if is_digit c then
        let '(ds, r) := digit_tail rest in (digit_val c :: ds, r)
      else if Ascii.eqb c "_" then
        match rest with
        | d :: rest' =>
            if is_digit d then
              let '(ds, r) := digit_tail rest' in (digit_val d :: ds, r)
            else ([], cs)
        | [] => ([], cs)
        end
      else ([], cs)
  | [] => ([], [])
  end.

(** [digitpart ::= digit (["_"] digit)*]; [None] when no digit starts [cs]. *)
Definition digitpart (cs : list ascii) : option (list Z * list ascii) :=
  match cs with
  | c :: rest =>
      if is_digit c then
        let '(ds, r) := digit_tail rest in Some (digit_val c :: ds, r)
      else None
  | [] => None
  end.

Definition decimal (ds : list Z) : Z := fold_left (fun acc d => 10 * acc + d) ds 0.

(** An optional sign: [true] for "-". *)
Definition sign (cs : list ascii) : bool * list ascii :=
  match cs with
  | c :: rest =>
      if Ascii.eqb c "-" then (true, rest)
      else if Ascii.eqb c "+" then (false, rest)
      else (false, cs)
  | [] => (false, [])
  end.

(** [int(s)] for a [str] argument: surrounding whitespace, an optional
    sign, decimal digits with single underscores between them.  (The limit
    on the number of digits of recent interpreters is left out.) *)
Definition py_int (s : string) : outcome Z :=
  let cs := rstrip (lstrip (list_ascii_of_string s)) in
  let '(neg, body) := sign cs in
  match digitpart body with
  | Some (ds, []) => Returned (if neg then - decimal ds else decimal ds)
  | _ => Raised ValueError
  end.

(** A Python [float] as the decimal number its literal denotes,
    [(-1)^negative * mantissa * 10^exponent], before rounding to binary64. *)
Inductive pyfloat : Type :=
| FDec (negative : bool) (mantissa : Z) (exponent : Z)
| FInf (negative : bool)
| FNan.

Definition lower_string (cs : list ascii) : string :=
  string_of_list_ascii (map lower cs).

(** [exponent ::= ("e" | "E") [sign] digitpart], then the end of the text. *)
Definition exponent_part (cs : list ascii) : option Z :=
  match cs with
  | [] => Some 0
  | c :: rest =>
      if Ascii.eqb (lower c) "e" then
        let '(neg, body) := sign rest in
        match digitpart body with
        | Some (ds, []) => Some (if neg then - decimal ds else decimal ds)
        | _ => None
        end
      else None
  end.

(** [number ::= [digitpart] "." digitpart | digitpart ["."]], followed by
    the optional exponent. *)
Definition float_number (cs : list ascii) : option (Z * Z) :=
  let '(ip, r1) := match digitpart cs with
                   | Some (ds, r) => (ds, r)
                   | None => ([], cs)
                   end in
  let '(fp, r2) := match r1 with
                   | c :: rest =>
                       if Ascii.eqb c "." then
                         match digitpart rest with
                         | Some (ds, r) => (ds, r)
                         | None => ([], rest)
                         end
                       else ([], r1)
                   | [] => ([], [])
                   end in
  match ip ++ fp with
  | [] => None
  | ds =>
      match exponent_part r2 with
      | Some e => Some (decimal ds, e - Z.of_nat (List.length fp))
      | None => None
      end
  end.

(** [float(s)] for a [str] argument. *)
Definition py_float (s : string) : outcome pyfloat :=
  let cs := rstrip (lstrip (list_ascii_of_string s)) in
  let '(neg, body) := sign cs in
  let w := lower_string body in
  if String.eqb w "inf" || String.eqb w "infinity" then Returned (FInf neg)
  else if String.eqb w "nan" then Returned FNan
  else match float_number body with
       | Some (m, e) => Returned (FDec neg m e)
       | None => Raised ValueError
       end.

(** ** Dates ([datetime]) *)

Definition month_abbr : list string :=
  ["jan"; "feb"; "mar"; "apr"; "may"; "jun";
   "jul"; "aug"; "sep"; "oct"; "nov"; "dec"].

Fixpoint index_from (i : Z) (w : string) (names : list string) : option Z :=
  match names with
  | n :: rest => if String.eqb w n then Some i else index_from (i + 1) w rest
  | [] => None
  end.

Definition is_leap (y : Z) : bool :=
  (y mod 4 =? 0) && (negb (y mod 100 =? 0) || (y mod 400 =? 0)).

Definition days_in_month (y m : Z) : Z :=
  if m =? 2 then (if is_leap y then 29 else 28)
  else if (m =? 4) || (m =? 6) || (m =? 9) || (m =? 11) then 30
  else 31.

(** What [datetime.date(y, m, d)] accepts. *)
Definition valid_date (y m d : Z) : bool :=
  (1 <=? y) && (y <=? 9999) && (1 <=? m) && (m <=? 12) &&
  (1 <=? d) && (d <=? days_in_month y m).

(** [%b]: a month abbreviation of the C locale, case-insensitive. *)
Definition month_field (cs : list ascii) : option (Z * list ascii) :=
  match cs with
  | a :: b :: c :: rest =>
      match index_from 1 (lower_string [a; b; c]) month_abbr with
      | Some m => Some (m, rest)
      | None => None
      end
  | _ => None
  end.

(** Whitespace of the format, matched as [\s+]. *)
Definition spaces1 (cs : list ascii) : option (list ascii) :=
  match cs with
  | c :: rest => if is_space c then Some (lstrip rest) else None
  | [] => None
  end.

(** [%d] when another character follows: [3[0-1]|[1-2]\d|0[1-9]|[1-9]];
    the digits taken never leave a digit as the next character. *)
Definition day_field (cs : list ascii) : option (Z * list ascii) :=
  match cs with
  | a :: rest =>
      if is_digit a then
        match rest with
        | b :: rest' =>
            if is_digit b then
              let v := 10 * digit_val a + digit_val b in
              if (1 <=? v) && (v <=? 31) then Some (v, rest') else None
            else if digit_val a =? 0 then None else Some (digit_val a, rest)
        | [] => if digit_val a =? 0 then None else Some (digit_val a, [])
        end
      else None
  | [] => None
  end.

Definition literal (c : ascii) (cs : list ascii) : option (list ascii) :=
  match cs with
  | c' :: rest => if Ascii.eqb c c' then Some rest else None
  | [] => None
  end.

(** [%Y]: exactly four digits. *)
Definition year_field (cs : list ascii) : option (Z * list ascii) :=
  match cs with
  | a :: b :: c :: d :: rest =>
      if is_digit a && is_digit b && is_digit c && is_digit d
      then Some (decimal [digit_val a; digit_val b; digit_val c; digit_val d], rest)
      else None
  | _ => None
  end.

Definition obind {A B} (x : option A) (k : A -> option B) : option B :=
  match x with Some a => k a | None => None end.

(** [datetime.strptime(s, '%b %d, %Y')], as year, month and day. *)
Definition strptime_b_d_Y (s : string) : outcome (Z * Z * Z) :=
  let parsed :=
    obind (month_field (list_ascii_of_string s)) (fun '(m, r1) =>
    obind (spaces1 r1) (fun r2 =>
    obind (day_field r2) (fun '(d, r3) =>
    obind (literal "," r3) (fun r4 =>
    obind (spaces1 r4) (fun r5 =>
    obind (year_field r5) (fun '(y, r6) =>
    match r6 with
    | [] => if valid_date y m d then Some (y, m, d) else None
    | _ => None
    end)))))) in
  match parsed with
  | Some ymd => Returned ymd
  | None => Raised ValueError
  end.

Definition digit_char (d : Z) : ascii := ascii_of_N (Z.to_N (48 + d)).

Definition zero_pad2 (n : Z) : list ascii :=
  [digit_char (n / 10 mod 10); digit_char (n mod 10)].

Definition zero_pad4 (n : Z) : list ascii :=
  [digit_char (n / 1000 mod 10); digit_char (n / 100 mod 10);
   digit_char (n / 10 mod 10); digit_char (n mod 10)].

(** [%Y] as the C library writes it: glibc does not pad the year, so a
    year below 1000 is written with fewer than four digits. *)
Definition year_text (y : Z) : list ascii :=
  if y <? 10 then [digit_char (y mod 10)]
  else if y <? 100 then zero_pad2 y
  else if y <? 1000 then
    [digit_char (y / 100 mod 10); digit_char (y / 10 mod 10); digit_char (y mod 10)]
  else zero_pad4 y.

(** [.strftime('%Y-%m-%d')] of a date, as CPython gives it on glibc: the
    month and the day have two digits, the year is not padded. *)
Definition strftime_Y_m_d (ymd : Z * Z * Z) : string :=
  let '(y, m, d) := ymd in
  string_of_list_ascii
    (year_text y ++ ["-"%char] ++ zero_pad2 m ++ ["-"%char] ++ zero_pad2 d).

(** [%m] followed by ["-"]: [1[0-2]|0[1-9]|[1-9]]. *)
Definition month_number_field (cs : list ascii) : option (Z * list ascii) :=
  match cs with
  | a :: rest =>
      if is_digit a then
        match rest with
        | b :: rest' =>
            if is_digit b then
              let v := 10 * digit_val a + digit_val b in
              if (1 <=? v) && (v <=? 12) then Some (v, rest') else None
            else if digit_val a =? 0 then None else Some (digit_val a, rest)
        | [] => None
        end
      else None
  | [] => None
  end.

(** [%d] at the end of the text: the alternatives of [day_field] and
    [" [1-9]"]. *)
Definition day_field_last (cs : list ascii) : option Z :=
  match cs with
  | [a] => if is_digit a && negb (digit_val a =? 0) then Some (digit_val a) else None
  | [a; b] =>
      if is_digit a && is_digit b then
        let v := 10 * digit_val a + digit_val b in
        if (1 <=? v) && (v <=? 31) then Some v else None
      else if Ascii.eqb a " " && is_digit b && negb (digit_val b =? 0)
      then Some (digit_val b) else None
  | _ => None
  end.

(** [date.toordinal()]: day 1 is 0001-01-01. *)
Definition days_before_year (y : Z) : Z :=
  let p := y - 1 in p * 365 + p / 4 - p / 100 + p / 400.

Fixpoint days_before_month_from (y : Z) (m : nat) : Z :=
  match m with
  | O => 0
  | S k => days_before_month_from y k + days_in_month y (Z.of_nat m)
  end.

Definition ymd2ord (y m d : Z) : Z :=
  days_before_year y + days_before_month_from y (Z.to_nat (m - 1)) + d.

Definition microseconds_per_day : Z := 86400 * 1000000.

(** A naive [datetime] is the number of microseconds since
    0001-01-01T00:00:00; a [timedelta] is a number of microseconds. *)
Definition datetime_of_date (y m d : Z) : Z :=
  (ymd2ord y m d - 1) * microseconds_per_day.

Definition timedelta_days (n : Z) : Z := n * microseconds_per_day.

(** [datetime.strptime(s, '%Y-%m-%d')]. *)
Definition strptime_Y_m_d (s : string) : outcome Z :=
  let parsed :=
    obind (year_field (list_ascii_of_string s)) (fun '(y, r1) =>
    obind (literal "-" r1) (fun r2 =>
    obind (month_number_field r2) (fun '(m, r3) =>
    obind (literal "-" r3) (fun r4 =>
    obind (day_field_last r4) (fun d =>
    if valid_date y m d then Some (datetime_of_date y m d) else None))))) in
  match parsed with
  | Some t => Returned t
  | None => Raised ValueError
  end.

End Py.
Import Py.

(* ===================================================================== *)
(** * Records and the parser ([parse_exchange_data], lines 159-216)       *)
(* ===================================================================== *)

(** The eight data columns of an exchange rate, the rates being of type
    [F]. *)
Record rate_of (F : Type) : Type := mkRate {
  currency_pair : string;
  date : string;
  open_rate : F;
  high_rate : F;
  low_rate : F;
  close_rate : F;
  adj_close : F;
  volume : Z
}.

Arguments mkRate {F} _ _ _ _ _ _ _ _.
Arguments currency_pair {F} _.
Arguments date {F} _.
Arguments open_rate {F} _.
Arguments high_rate {F} _.
Arguments low_rate {F} _.
Arguments close_rate {F} _.
Arguments adj_close {F} _.
Arguments volume {F} _.

(** The dictionary [exchange_rate_data] built for one table row: its rates
    are [float]s. *)
Abbreviation rate_data := (rate_of pyfloat).

(** Truthiness of a [str]-or-[None] and of a [list]-or-[None]. *)
Definition truthy_str (x : option string) : bool :=
  match x with
  | Some s => negb (String.eqb s "")
  | None => false
  end.

Definition truthy_list {A} (x : option (list A)) : bool :=
  match x with
  | Some (_ :: _) => true
  | _ => false
  end.

Section Parser.

(** [BeautifulSoup(html_content, 'html.parser')] followed by
    [find_all('tr', class_='yf-j5d1ld')]: for each row found, in document
    order, the [.text] of each element of [row.find_all('td')]. *)
Variable soup_rows : string -> list (list string).

(** [cols[i].text] *)
Definition cell (cols : list string) (i : nat) : outcome string :=
  match nth_error cols i with
  | Some t => Returned t
  | None => Raised IndexError
  end.

(** [t in ['-', '', 'null', 'None']] *)
Definition placeholder (t : string) : bool :=
  existsb (String.eqb t) ["-"; ""; "null"; "None"].

(** [float(cols[i].text.replace(',', ''))] *)
Definition rate_cell (cols : list string) (i : nat) : outcome pyfloat :=
  t <- cell cols i ;; py_float (remove_commas t).

(** [int(cols[6].text.replace(',', '')) if cols[6].text.strip() != '-' else 0] *)
Definition volume_cell (cols : list string) : outcome Z :=
  t <- cell cols 6 ;;
  if negb (String.eqb (strip t) "-") then
    t' <- cell cols 6 ;; py_int (remove_commas t')
  else Returned 0.

(** The body of the [try] block for one row with at least seven cells;
    [Returned None] is [continue]. *)
Definition parse_row (pair : string) (cols : list string)
  : outcome (option rate_data) :=
  c0 <- cell cols 0 ;;
  let date_str := strip c0 in
  if String.eqb date_str "" then Returned None
  else
    ymd <- strptime_b_d_Y date_str ;;
    let date := strftime_Y_m_d ymd in
    if existsb (fun t => placeholder (strip t)) (firstn 5 (skipn 1 cols))
    then Returned None
    else
      o <- rate_cell cols 1 ;;
      h <- rate_cell cols 2 ;;
      l <- rate_cell cols 3 ;;
      c <- rate_cell cols 4 ;;
      a <- rate_cell cols 5 ;;
      v <- volume_cell cols ;;
      Returned (Some (mkRate pair date o h l c a v)).

(** [except (ValueError, IndexError)] *)
Definition caught_by_parser (e : exn) : bool :=
  match e with
  | ValueError | IndexError => true
  | _ => false
  end.

(** The [for row in rows] loop; [data] is the list appended to. *)
Fixpoint parse_rows (pair : string) (rows : list (list string))
    (data : list rate_data) : outcome (list rate_data) :=
  match rows with
  | [] => Returned data
  | cols :: rest =>
      if (7 <=? List.length cols)%nat then
        match parse_row pair cols with
        | Returned (Some r) => parse_rows pair rest (data ++ [r])
        | Returned None => parse_rows pair rest data
        | Raised e =>
            if caught_by_parser e then parse_rows pair rest data
            else Raised e
        end
      else parse_rows pair rest data
  end.

Definition parse_exchange_data (html_content : string) (pair : string)
  : outcome (option (list rate_data)) :=
  if String.eqb html_content "" then Returned None
  else
    match soup_rows html_content with
    | [] => Returned None
    | rows =>
        data <- parse_rows pair rows [] ;;
        match data with
        | [] => Returned None
        | _ => Returned (Some data)
        end
    end.

End Parser.

(* ===================================================================== *)
(** * The table [exchange_rates] (models/exchange_rate.py)                *)
(* ===================================================================== *)

(** The eight data columns as the table holds them: a [Float] column is a
    number or [NULL]. *)
Abbreviation stored_rate := (rate_of (option pyfloat)).

(** What SQLite keeps of a [float] bound to a statement: a NaN is stored as
    [NULL], every other value as it is. *)
Definition sqlite_real (x : pyfloat) : option pyfloat :=
  match x with
  | FNan => None
  | _ => Some x
  end.

(** The values of a record as a statement stores them.  (An integer that
    does not fit in 64 bits makes the statement fail; that is a failing
    database operation.) *)
Definition as_stored (d : rate_data) : stored_rate :=
  mkRate (currency_pair d) (date d)
         (sqlite_real (open_rate d)) (sqlite_real (high_rate d))
         (sqlite_real (low_rate d)) (sqlite_real (close_rate d))
         (sqlite_real (adj_close d)) (volume d).

(** One stored row: the autoincremented [id], the eight columns written by
    the scraper, and [created_at]. *)
Record row : Type := mkRow {
  id : Z;
  fields : stored_rate;
  created_at : Z
}.

Definition table : Type := list row.

(** Conflict on the unique index [(currency_pair, date)]. *)
Definition same_key (d : rate_data) (r : row) : bool :=
  String.eqb (currency_pair (fields r)) (currency_pair d)
  && String.eqb (date (fields r)) (date d).

Definition row_key (r : row) : string * string :=
  (currency_pair (fields r), date (fields r)).

(** The rowid SQLite gives to a new row of an [INTEGER PRIMARY KEY] table. *)
Definition next_id (t : table) : Z := 1 + fold_right Z.max 0 (map id t).

(** [ON CONFLICT (currency_pair, date) DO UPDATE SET <the eight columns>]:
    neither [id] nor [created_at] is in [set_]. *)
Definition overwrite (d : rate_data) (r : row) : row :=
  if same_key d r then mkRow (id r) (as_stored d) (created_at r) else r.

(** The statement [insert(ExchangeRate) ... on_conflict_do_update] for one
    [rate_data], executed at time [now] (the column default [datetime.utcnow]). *)
Definition upsert (now : Z) (d : rate_data) (t : table) : table :=
  if existsb (same_key d) t then map (overwrite d) t
  else t ++ [mkRow (next_id t) (as_stored d) now].

(* ===================================================================== *)
(** * The process and its surroundings                                    *)
(* ===================================================================== *)

(** What [requests.get] does for one call. *)
Inductive http_outcome : Type :=
| Response (status_code : Z) (text : string)
| Failed (e : exn).

(** The key [lru_cache] builds for [_fetch_chunk(self, quote, from_date,
    to_date)]; [self] is the number of the scraper instance. *)
Definition cache_key : Type := (nat * string * Z * Z)%type.

Definition cache_key_eqb (a b : cache_key) : bool :=
  let '(s1, q1, f1, t1) := a in
  let '(s2, q2, f2, t2) := b in
  Nat.eqb s1 s2 && String.eqb q1 q2 && (f1 =? f2) && (t1 =? t2).

(** The mutable state the functions thread. *)
Record world : Type := mkWorld {
  requests : nat;          (* fetch attempts made so far *)
  slept : list Z;          (* arguments of [time.sleep], oldest first *)
  cache : list (cache_key * option string);
                           (* entries of the [lru_cache], most recent first *)
  db : table;              (* committed rows *)
  db_ops : nat;            (* statements and commits run so far *)
  scrapers : nat           (* [ExchangeRateScraper] instances created *)
}.

Definition with_cache (c : list (cache_key * option string)) (w : world) : world :=
  mkWorld (requests w) (slept w) c (db w) (db_ops w) (scrapers w).

Definition with_db (t : table) (w : world) : world :=
  mkWorld (requests w) (slept w) (cache w) t (db_ops w) (scrapers w).

(** A computation that may change the world and may raise. *)
Definition M (A : Type) : Type := world -> outcome A * world.

Definition ret {A} (a : A) : M A := fun w => (Returned a, w).

Definition raise {A} (e : exn) : M A := fun w => (Raised e, w).

Definition lift {A} (o : outcome A) : M A := fun w => (o, w).

Definition mbind {A B} (m : M A) (k : A -> M B) : M B :=
  fun w =>
    match m w with
    | (Returned a, w1) => k a w1
    | (Raised e, w1) => (Raised e, w1)
    end.

Notation "x <~ c ;; k" := (mbind c (fun x => k))
  (at level 61, c at next level, right associativity).

(** [try: m  except Exception as e: h e] *)
Definition try_except {A} (m : M A) (h : exn -> M A) : M A :=
  fun w =>
    match m w with
    | (Returned a, w1) => (Returned a, w1)
    | (Raised e, w1) => h e w1
    end.

(** [time.sleep(secs)] *)
Definition sleep (secs : Z) : M unit :=
  fun w => (Returned tt,
            mkWorld (requests w) (slept w ++ [secs]) (cache w) (db w)
                    (db_ops w) (scrapers w)).

Definition newline : string := String (ascii_of_nat 10) EmptyString.

(** Results of [process_single_pair] for one period. *)
Inductive message : Type :=
| FailedToFetchData            (* 'Failed to fetch data' *)
| NoDataFound                  (* 'No data found' *)
| ExceptionText (e : exn).     (* [str(e)] *)

Inductive period_status : Type :=
| Success (records : nat)      (* {'status': 'success', 'records': n} *)
| Error (msg : message).       (* {'status': 'error', 'message': msg} *)

(** [{currency_pair: {period: status}}] *)
Definition summary : Type := (string * list (string * period_status))%type.

Definition periods : list string := ["1W"; "1M"; "3M"; "6M"; "1Y"].

Definition upper (c : ascii) : ascii :=
  let n := code c in
  if ((97 <=? n) && (n <=? 122))%N then ascii_of_N (n - 32) else c.

Definition upper_string (s : string) : string :=
  string_of_list_ascii (map upper (list_ascii_of_string s)).

(** [parse_period] of routes.py, as a [timedelta]. *)
Definition parse_period (period : string) : outcome Z :=
  let normalized_period := upper_string period in
  if String.eqb normalized_period "1W" then Returned (timedelta_days 7)
  else if String.eqb normalized_period "1M" then Returned (timedelta_days 30)
  else if String.eqb normalized_period "3M" then Returned (timedelta_days 90)
  else if String.eqb normalized_period "6M" then Returned (timedelta_days 180)
  else if String.eqb normalized_period "1Y" then Returned (timedelta_days 365)
  else Raised ValueError.

(** [1970-01-01T00:00:00] as a naive [datetime]. *)
Definition unix_epoch : Z := datetime_of_date 1970 1 1.

Section Scraper.

Variable soup_rows : string -> list (list string).

(** What the [n]-th fetch attempt of the process meets, by the parameters
    of its URL: the answer of the source, or the exception raised on the
    way ([UserAgent()], [requests.get]). *)
Variable net : nat -> string -> Z -> Z -> http_outcome.

(** Whether the [n]-th database operation (statement or commit) fails, and
    with what. *)
Variable db_fault : nat -> option exn.

(** [datetime.utcnow()] when the [n]-th database operation runs. *)
Variable utcnow : nat -> Z.

(** The order in which the pool's futures complete. *)
Variable completion : list (nat * (Z * Z)) -> list (nat * (Z * Z)).

(** [datetime.now()] read by [process_single_pair], and the offset of local
    time from UTC, in seconds. *)
Variable now : Z.
Variable utc_offset : Z.

(** What the platform's [localtime_r] gives for an instant (in seconds
    since the epoch): the local wall clock, in seconds since the epoch of a
    clock without offset, or [None] when it fails. *)
Variable localtime : Z -> option Z.

(** ** [__init__] (lines 27-41) *)

Definition tick_db (w : world) : world :=
  mkWorld (requests w) (slept w) (cache w) (db w) (S (db_ops w)) (scrapers w).

(** [ExchangeRateScraper()]: [create_engine] only configures the engine;
    [Base.metadata.create_all] is a database operation, which makes sure
    that the table exists and can fail as any other one.  The instance is
    handed out only when it succeeds. *)
Definition new_scraper : M nat :=
  fun w =>
    match db_fault (db_ops w) with
    | Some e => (Raised e, tick_db w)
    | None =>
        (Returned (scrapers w),
         mkWorld (requests w) (slept w) (cache w) (db w) (S (db_ops w))
                 (S (scrapers w)))
    end.

(** ** [_fetch_data_with_retry] (lines 130-157) *)

Definition requests_get (quote : string) (from_date to_date : Z)
  : world -> http_outcome * world :=
  fun w => (net (requests w) quote from_date to_date,
            mkWorld (S (requests w)) (slept w) (cache w) (db w) (db_ops w)
                    (scrapers w)).

(** The [for attempt in range(max_retries)] loop over the attempts left. *)
Fixpoint retry_loop (quote : string) (from_date to_date : Z)
    (max_retries : nat) (attempts : list nat) : M (option string) :=
  match attempts with
  | [] => ret None
  | attempt :: rest =>
      fun w =>
        let '(resp, w1) := requests_get quote from_date to_date w in
        match resp with
        | Response status_code text =>
            if status_code =? 200 then (Returned (Some text), w1)
            else retry_loop quote from_date to_date max_retries rest w1
        | Failed e =>
            if Nat.eqb attempt (max_retries - 1) then (Raised e, w1)
            else (_ <~ sleep (2 ^ Z.of_nat attempt) ;;
                  retry_loop quote from_date to_date max_retries rest) w1
        end
  end.

Definition _fetch_data_with_retry (quote : string) (from_date to_date : Z)
    (max_retries : nat) : M (option string) :=
  retry_loop quote from_date to_date max_retries (seq 0 max_retries).

(** ** [_fetch_chunk] (lines 119-128) *)

(** The decorated function. *)
Definition fetch_chunk_body (quote : string) (from_date to_date : Z)
  : M (option string) :=
  try_except (_fetch_data_with_retry quote from_date to_date 3)
             (fun _ => ret None).

Definition maxsize : nat := 32.

Fixpoint cache_find (k : cache_key) (c : list (cache_key * option string))
  : option (option string) :=
  match c with
  | (k', v) :: rest => if cache_key_eqb k k' then Some v else cache_find k rest
  | [] => None
  end.

Definition cache_remove (k : cache_key) (c : list (cache_key * option string))
  : list (cache_key * option string) :=
  filter (fun kv => negb (cache_key_eqb k (fst kv))) c.

(** [@lru_cache(maxsize=32)]: a hit moves the entry to the most recent
    place; a miss calls the function, stores what it returned and drops the
    least recently used entry when the cache is full; a raised exception
    stores nothing. *)
Definition _fetch_chunk (self : nat) (quote : string) (from_date to_date : Z)
  : M (option string) :=
  fun w =>
    let k := (self, quote, from_date, to_date) in
    match cache_find k (cache w) with
    | Some v =>
        (Returned v, with_cache ((k, v) :: cache_remove k (cache w)) w)
    | None =>
        match fetch_chunk_body quote from_date to_date w with
        | (Returned v, w1) =>
            (Returned v,
             with_cache (firstn maxsize ((k, v) :: cache_remove k (cache w1))) w1)
        | (Raised e, w1) => (Raised e, w1)
        end
    end.

(** ** [save_to_database] (lines 218-243) *)

(** [session.execute(stmt)] on the uncommitted rows of the session. *)
Definition session_execute (rate : rate_data) (pending : table)
  : M table :=
  fun w =>
    match db_fault (db_ops w) with
    | Some e => (Raised e, tick_db w)
    | None => (Returned (upsert (utcnow (db_ops w)) rate pending), tick_db w)
    end.

(** The [for rate_data in exchange_rates] loop. *)
Fixpoint execute_all (exchange_rates : list rate_data) (pending : table)
  : M table :=
  match exchange_rates with
  | [] => ret pending
  | rate :: rest =>
      pending' <~ session_execute rate pending ;;
      execute_all rest pending'
  end.

(** [session.commit()] *)
Definition session_commit (pending : table) : M unit :=
  fun w =>
    match db_fault (db_ops w) with
    | Some e => (Raised e, tick_db w)
    | None => (Returned tt, with_db pending (tick_db w))
    end.

(** An exception leaves the [try] block: [SQLAlchemyError] is handled by
    [session.rollback()] and raised again; any other one passes through
    [finally: session.close()], which ends the transaction in progress
    without committing it.  Either way the committed rows stay. *)
Definition save_to_database (exchange_rates : list rate_data) : M unit :=
  match exchange_rates with
  | [] => ret tt
  | _ =>
      fun w =>
        try_except
          (pending <~ execute_all exchange_rates (db w) ;;
           session_commit pending)
          (fun e => raise e) w
  end.

(** ** [_fetch_and_save_chunk] (lines 102-117) *)

Definition _fetch_and_save_chunk (self : nat) (quote : string)
    (chunk_from chunk_to : Z) (chunk_index total_chunks : nat)
  : M (option string) :=
  chunk_data <~ _fetch_chunk self quote chunk_from chunk_to ;;
  if truthy_str chunk_data then
    match chunk_data with
    | Some html =>
        parsed_data <~ lift (parse_exchange_data soup_rows html quote) ;;
        match parsed_data with
        | Some (r :: rs) =>
            _ <~ save_to_database (r :: rs) ;; ret chunk_data
        | _ => ret chunk_data
        end
    | None => ret chunk_data
    end
  else ret chunk_data.

(** ** [get_exchange_data] (lines 43-100) *)

(** The [for future in as_completed(futures)] loop.  The pool is modelled
    by running each task to its end when its result is collected, so the
    tasks run one after the other in completion order. *)
Fixpoint collect (self : nat) (quote : string) (total_chunks : nat)
    (done : list (nat * (Z * Z))) (all_data : list string)
  : world -> list string * world :=
  fun w =>
    match done with
    | [] => (all_data, w)
    | (i, (chunk_from, chunk_to)) :: rest =>
        match _fetch_and_save_chunk self quote chunk_from chunk_to
                (i + 1) total_chunks w with
        | (Returned data, w1) =>
            collect self quote total_chunks rest
              (if truthy_str data
               then match data with
                    | Some html => all_data ++ [html]
                    | None => all_data
                    end
               else all_data) w1
        | (Raised _, w1) => collect self quote total_chunks rest all_data w1
        end
    end.

(** [enumerate(chunks)] *)
Definition enumerate {A} (l : list A) : list (nat * A) :=
  combine (seq 0 (List.length l)) l.

(** Lines 64-100: the plan, the pool and the join of the pages. *)
Definition run_chunks (self : nat) (quote : string)
    (from_date to_date : Z) : M (option string) :=
  fun w =>
    let chunks := Planner.plan from_date to_date in
    let '(all_data, w1) :=
      collect self quote (List.length chunks) (completion (enumerate chunks))
              [] w in
    match all_data with
    | [] => (Returned None, w1)
    | _ => (Returned (Some (String.concat newline all_data)), w1)
    end.

Definition max_fold_seconds : Z := 86400.

(** [time_t] is a signed integer of 64 bits. *)
Definition fits_time_t (t : Z) : bool := (- 2 ^ 63 <=? t) && (t <? 2 ^ 63).

(** [utc_to_seconds] accepts the years 1 to 9999. *)
Definition year_in_range (seconds : Z) : bool :=
  (0 <=? unix_epoch + seconds * 1000000)
  && (unix_epoch + seconds * 1000000 <? timedelta_days 3652059).

(** [local(u)] of CPython: [OSError] when [localtime_r] fails, [ValueError]
    ("year ... is out of range") when the year it gives is not one of
    [datetime]. *)
Definition local (u : Z) : outcome Z :=
  match localtime u with
  | None => Raised RuntimeError
  | Some seconds =>
      if year_in_range seconds then Returned seconds else Raised ValueError
  end.

(** [datetime.fromtimestamp(timestamp)] for an [int], without [tz]:
    [OverflowError] when the number does not fit [time_t]; then the local
    time of the instant, and the probes one day earlier and at the
    transition that detect a fold, each of which must be a time of
    [datetime].  The result is the naive local [datetime]. *)
Definition fromtimestamp (timestamp : Z) : outcome Z :=
  if fits_time_t timestamp then
    result_seconds <- local timestamp ;;
    probe_seconds <- local (timestamp - max_fold_seconds) ;;
    let transition := result_seconds - probe_seconds - max_fold_seconds in
    _ <- (if transition <? 0 then local (timestamp + transition)
          else Returned probe_seconds) ;;
    Returned (unix_epoch + result_seconds * 1000000)
  else Raised RuntimeError.

(** Lines 55-62: the bounds are the integers that [int(...)] gives; the
    line logged formats both with [fromtimestamp], the lower one first,
    before any window is planned. *)
Definition get_exchange_data (self : nat) (quote : string)
    (from_date to_date : Z) : M (option string) :=
  _ <~ lift (fromtimestamp from_date) ;;
  _ <~ lift (fromtimestamp to_date) ;;
  run_chunks self quote from_date to_date.

(** ** [process_single_pair] (routes.py, lines 154-225) *)

(** [int(d.timestamp())] of a naive local [datetime], for a [datetime] far
    enough from the first and the last day of the range for the conversion
    not to raise. *)
Definition timestamp (d : Z) : Z :=
  Z.quot (d - unix_epoch - utc_offset * 1000000) 1000000.

Definition error_summary (pair : string) (msg : message) : summary :=
  (pair, map (fun period => (period, Error msg)) periods).

(** [[rate for rate in exchange_rates
      if datetime.strptime(rate['date'], '%Y-%m-%d') >= period_start]] *)
Fixpoint period_records (period_start : Z) (exchange_rates : list rate_data)
  : outcome (list rate_data) :=
  match exchange_rates with
  | [] => Returned []
  | rate :: rest =>
      t <- strptime_Y_m_d (date rate) ;;
      tl <- period_records period_start rest ;;
      Returned (if period_start <=? t then rate :: tl else tl)
  end.

(** The [for period in periods] loop filling [results[currency_pair]].
    The subtraction raises [OverflowError] when it leaves the years that
    [datetime] has. *)
Fixpoint period_loop (end_date : Z) (exchange_rates : list rate_data)
    (ps : list string) (results : list (string * period_status))
  : outcome (list (string * period_status)) :=
  match ps with
  | [] => Returned results
  | period :: rest =>
      period_delta <- parse_period period ;;
      if end_date - period_delta <? 0 then Raised RuntimeError
      else
        let period_start := end_date - period_delta in
        recs <- period_records period_start exchange_rates ;;
        period_loop end_date exchange_rates rest
          (results ++ [(period, Success (List.length recs))])
  end.

(** Lines 184-216: what is done with the fetched content. *)
Definition summarise (scraper : nat) (pair : string) (end_date : Z)
    (html_content : option string) : M summary :=
  if negb (truthy_str html_content) then ret (error_summary pair FailedToFetchData)
  else
    match html_content with
    | None => ret (error_summary pair FailedToFetchData)
    | Some html =>
        exchange_rates <~ lift (parse_exchange_data soup_rows html pair) ;;
        match exchange_rates with
        | Some (r :: rs) =>
            _ <~ save_to_database (r :: rs) ;;
            results <~ lift (period_loop end_date (r :: rs) periods []) ;;
            ret (pair, results)
        | _ => ret (error_summary pair NoDataFound)
        end
    end.

Definition process_single_pair (from_currency to_currency : string)
  : M summary :=
  let pair := (from_currency ++ to_currency ++ "=X")%string in
  try_except
    (let end_date := now in
     if end_date - timedelta_days 365 <? 0 then raise RuntimeError
     else
     let start_date := end_date - timedelta_days 365 in
     scraper <~ new_scraper ;;
     html_content <~ get_exchange_data scraper pair
                       (timestamp start_date) (timestamp end_date) ;;
     summarise scraper pair end_date html_content)
    (fun e => ret (error_summary pair (ExceptionText e))).

End Scraper.


(* ===================================================================== *)
(** * Vocabulary of the statements                                        *)
(* ===================================================================== *)

(** The records one table row contributes to [data]. *)
Definition row_records (pair : string) (cols : list string) : list rate_data :=
  if (7 <=? List.length cols)%nat then
    match parse_row pair cols with
    | Returned (Some r) => [r]
    | _ => []
    end
  else [].

(** [cols] with cell [i] replaced by [t]. *)
Fixpoint set_cell (i : nat) (t : string) (cols : list string) : list string :=
  match cols, i with
  | [], _ => []
  | _ :: rest, O => t :: rest
  | c :: rest, S j => c :: set_cell j t rest
  end.

(** One of open, high, low, close, adj-close is blank, a placeholder, or
    not accepted by [float] once the commas are removed. *)
Definition rejected_price (cols : list string) : Prop :=
  exists i t, (1 <= i <= 5)%nat /\ nth_error cols i = Some t /\
    (placeholder (strip t) = true \/ py_float (remove_commas t) = Raised ValueError).

(** The date cell does not match ['%b %d, %Y']. *)
Definition rejected_date (cols : list string) : Prop :=
  exists t, nth_error cols 0 = Some t /\
    strptime_b_d_Y (strip t) = Raised ValueError.

(** The volume cell is not ["-"] and not accepted by [int] once the commas
    are removed. *)
Definition rejected_volume (cols : list string) : Prop :=
  exists t, nth_error cols 6 = Some t /\ strip t <> "-" /\
    py_int (remove_commas t) = Raised ValueError.

(** The text [YYYY-MM-DD] of a date, the year padded to four digits. *)
Definition iso_text (ymd : Z * Z * Z) : string :=
  let '(y, m, d) := ymd in
  string_of_list_ascii
    (zero_pad4 y ++ ["-"%char] ++ zero_pad2 m ++ ["-"%char] ++ zero_pad2 d).

(** The shape [YYYY-MM-DD]. *)
Definition iso_date (s : string) : bool :=
  match list_ascii_of_string s with
  | [y1; y2; y3; y4; h1; m1; m2; h2; d1; d2] =>
      is_digit y1 && is_digit y2 && is_digit y3 && is_digit y4 &&
      Ascii.eqb h1 "-" && is_digit m1 && is_digit m2 &&
      Ascii.eqb h2 "-" && is_digit d1 && is_digit d2
  | _ => false
  end.

(** The text is ASCII: every character has a code below 128.  The
    embedding of [strip], [float], [int] and [strptime] is that of their
    behaviour on such texts. *)
Definition ascii_text (s : string) : bool :=
  forallb (fun c => (code c <? 128)%N) (list_ascii_of_string s).

(** The volume rule read for every placeholder token: the row is taken as
    if its volume cell were the number 0. *)
Definition placeholder_volume_is_zero (pair : string) (cols : list string) : Prop :=
  forall t, nth_error cols 6 = Some t -> placeholder (strip t) = true ->
  parse_row pair cols = parse_row pair (set_cell 6 "0" cols).

(** Content without a row of seven cells and content whose rows of seven
    cells are all rejected get different results. *)
Definition distinguishes (soup_rows : string -> list (list string))
    (pair h1 h2 : string) : Prop :=
  Forall (fun cols => (List.length cols < 7)%nat) (soup_rows h1) ->
  Exists (fun cols => (7 <= List.length cols)%nat) (soup_rows h2) ->
  Forall (fun cols => row_records pair cols = []) (soup_rows h2) ->
  parse_exchange_data soup_rows h1 pair <> parse_exchange_data soup_rows h2 pair.

(** Sample rows of the history table. *)
Definition quote_row (volume_text : string) : list string :=
  ["Jan 5, 2024"; "105.61"; "105.93"; "105.22"; "105.48"; "105.48"; volume_text].

Definition no_close_row : list string :=
  ["Jan 4, 2024"; "105.61"; "105.93"; "105.22"; "-"; "105.48"; "1,200"].

Definition short_row : list string := ["Jan 3, 2024"; "Dividend"].

(** A row dated in the year 999, which ['%b %d, %Y'] accepts. *)
Definition old_row : list string :=
  ["Jan 5, 0999"; "105.61"; "105.93"; "105.22"; "105.48"; "105.48"; "1,200"].

(** The dates of the result as the specification states them: every record
    has a date of the shape [YYYY-MM-DD]. *)
Definition dates_as_stated (soup_rows : string -> list (list string))
    (html pair : string) : Prop :=
  forall recs,
    parse_exchange_data soup_rows html pair = Returned (Some recs) ->
    Forall (fun x => iso_date (date x) = true) recs.

(** A page reader for examples: the page ["short"] has one row of two
    cells, any other page one row of seven cells without a close rate. *)
Definition sample_soup (html : string) : list (list string) :=
  if String.eqb html "short" then [short_row] else [no_close_row].

(** The unique key of a record. *)
Definition key_of (d : rate_data) : string * string := (currency_pair d, date d).

(** No rate of the record is a NaN. *)
Definition no_nan (d : rate_data) : Prop :=
  open_rate d <> FNan /\ high_rate d <> FNan /\ low_rate d <> FNan /\
  close_rate d <> FNan /\ adj_close d <> FNan.

(** The row holds the values of the record as they were given. *)
Definition holds_values (r : row) (d : rate_data) : Prop :=
  fields r =
  mkRate (currency_pair d) (date d) (Some (open_rate d)) (Some (high_rate d))
         (Some (low_rate d)) (Some (close_rate d)) (Some (adj_close d)) (volume d).

(** The statements of a batch applied in order, the [n]-th database
    operation being the first of them. *)
Fixpoint upsert_all (utcnow : nat -> Z) (n : nat) (rates : list rate_data)
    (t : table) : table :=
  match rates with
  | [] => t
  | rate :: rest => upsert_all utcnow (S n) rest (upsert (utcnow n) rate t)
  end.

(** What a batch does to one row that is already stored. *)
Definition overwrite_all (rates : list rate_data) (r : row) : row :=
  fold_left (fun r d => overwrite d r) rates r.

(** No operation of a batch of [k] statements and its commit fails, the
    first of them being operation [n]. *)
Definition no_fault (db_fault : nat -> option exn) (n k : nat) : Prop :=
  forall i, (i <= k)%nat -> db_fault (n + i)%nat = None.

(** Two worlds that differ at most in the table and in the count of database
    operations. *)
Definition same_outside_db (w w' : world) : Prop :=
  requests w' = requests w /\ slept w' = slept w /\ cache w' = cache w /\
  scrapers w' = scrapers w.

(** Sample records, clocks and fault patterns. *)
Definition sample_rate (pair date_text : string) (close_cents volume_read : Z)
  : rate_data :=
  mkRate pair date_text (FDec false 10561 (-2)) (FDec false 10593 (-2))
         (FDec false 10522 (-2)) (FDec false close_cents (-2))
         (FDec false close_cents (-2)) volume_read.

Definition empty_world : world := mkWorld 0 [] [] [] 0 0.

Definition no_faults : nat -> option exn := fun _ => None.

Definition fault_at (k : nat) (e : exn) : nat -> option exn :=
  fun n => if Nat.eqb n k then Some e else None.

Definition sample_clock : nat -> Z := fun n => 1000 + Z.of_nat n.

(** The record of a row whose close cell reads ["nan"], which [float]
    accepts. *)
Definition nan_close : rate_data :=
  mkRate "GBPINR=X" "2024-01-05" (FDec false 10561 (-2)) (FDec false 10593 (-2))
         (FDec false 10522 (-2)) FNan (FDec false 10548 (-2)) 0.

(** The last write as the specification states it: after record [a] and
    then record [b] were saved for the same key, the row stored for the key
    equals [b] in all its fields. *)
Definition last_write_as_stated (db_fault : nat -> option exn)
    (utcnow : nat -> Z) (a b : rate_data) (w : world) : Prop :=
  key_of a = key_of b ->
  forall w1 w2 r,
    save_to_database db_fault utcnow [a] w = (Returned tt, w1) ->
    save_to_database db_fault utcnow [b] w1 = (Returned tt, w2) ->
    In r (db w2) -> row_key r = key_of b -> holds_values r b.

(** An attempt that did not end with status 200. *)
Definition is_failure (o : http_outcome) : bool :=
  match o with
  | Response status_code _ => negb (status_code =? 200)
  | Failed _ => true
  end.

(** The retry rule read for every kind of failure: when all three attempts
    fail, an error reaches the caller after waits of 1 and 2 seconds. *)
Definition backoff_then_error (net : nat -> string -> Z -> Z -> http_outcome)
    (quote : string) (from_date to_date : Z) (w : world) : Prop :=
  (forall i, (i < 3)%nat ->
     is_failure (net (requests w + i)%nat quote from_date to_date) = true) ->
  (exists e, fst (_fetch_data_with_retry net quote from_date to_date 3 w) = Raised e) /\
  slept (snd (_fetch_data_with_retry net quote from_date to_date 3 w)) =
  slept w ++ [1; 2].

(** A source that answers 500 to the first [k] requests and 200 afterwards. *)
Definition flaky_source (k : nat) : nat -> string -> Z -> Z -> http_outcome :=
  fun n _ _ _ => if (n <? k)%nat then Response 500 "" else Response 200 "<table/>".

(** The cache rule as stated: a call that failed is not remembered, so the
    next call for the same key asks the source again. *)
Definition failure_not_cached (net : nat -> string -> Z -> Z -> http_outcome)
    (self : nat) (quote : string) (from_date to_date : Z) (w : world) : Prop :=
  let '(r1, w1) := _fetch_chunk net self quote from_date to_date w in
  let '(_, w2) := _fetch_chunk net self quote from_date to_date w1 in
  r1 = Returned None -> (requests w1 < requests w2)%nat.

(** A source whose first [k] requests time out and which answers 200
    afterwards. *)
Definition timeouts_then_page (k : nat) : nat -> string -> Z -> Z -> http_outcome :=
  fun n _ _ _ =>
    if (n <? k)%nat then Failed RequestException else Response 200 "<table/>".

(** The planner as the specification words it.  A range of [t - f] seconds
    spans [S = (t - f) / 86400] days, so [ceil (S / 90)] is the ceiling of
    [(t - f) / three_months]. *)
Definition planned_as_stated (f t : Z) : Prop :=
  f < t ->
  let ws := Planner.plan f t in
  Z.of_nat (List.length ws) = Planner.ceil_div (t - f) Planner.three_months /\
  Planner.chained ws /\ Forall Planner.span_ok ws /\
  Planner.first_start ws = Some f /\ Planner.last_end ws = Some t.

(** The instant is one that [datetime.fromtimestamp] turns into a
    [datetime]. *)
Definition in_datetime_range (localtime : Z -> option Z) (t : Z) : bool :=
  match fromtimestamp localtime t with
  | Returned _ => true
  | Raised _ => false
  end.

(** A machine whose local time is UTC; [localtime_r] of glibc fails when
    the year of the instant does not fit its field. *)
Definition utc : Z -> option Z :=
  fun u =>
    if (-67768040609740800 <=? u) && (u <=? 67768036191676799) then Some u
    else None.

(** An empty or reversed range makes the call fail. *)
Definition invalid_range_raises (soup_rows : string -> list (list string))
    (net : nat -> string -> Z -> Z -> http_outcome)
    (db_fault : nat -> option exn) (utcnow : nat -> Z)
    (completion : list (nat * (Z * Z)) -> list (nat * (Z * Z)))
    (localtime : Z -> option Z)
    (self : nat) (quote : string) (f t : Z) (w : world) : Prop :=
  t <= f ->
  exists e w',
    get_exchange_data soup_rows net db_fault utcnow completion localtime
      self quote f t w
    = (Raised e, w').

(** Futures that complete in the order of submission. *)
Definition in_order (l : list (nat * (Z * Z))) : list (nat * (Z * Z)) := l.

(** A window whose fetch has the same result whenever it is made. *)
Definition settled (net : nat -> string -> Z -> Z -> http_outcome)
    (quote : string) (f t : Z) (v : option string) : Prop :=
  forall w, fst (fetch_chunk_body net quote f t w) = Returned v.

(** The cache holds nothing for the key, or holds [v]. *)
Definition cache_agrees (k : cache_key) (v : option string) (w : world) : Prop :=
  cache_find k (cache w) = None \/ cache_find k (cache w) = Some v.

(** A source that serves the window starting at 1700000000 and times out
    for every other window, and a page reader that finds sixty rows in the
    page it serves. *)
Definition served_page : string := "<table>rates</table>".

Definition first_window_only : nat -> string -> Z -> Z -> http_outcome :=
  fun _ _ from_date _ =>
    if from_date =? 1700000000 then Response 200 served_page
    else Failed RequestException.

Definition sixty_rows (html : string) : list (list string) :=
  if String.eqb html served_page then repeat (quote_row "-") 60 else [].

(* ===================================================================== *)
(** * The sync endpoint ([sync_forex_data], routes.py, lines 115-152)     *)
(* ===================================================================== *)

Definition currency_pairs : list (string * string) :=
  [("GBP", "INR"); ("AED", "INR")].

(** What the endpoint answers. *)
Inductive sync_response : Type :=
| SyncCompleted (results : list summary)
    (* jsonify({'message': 'Sync completed', 'results': results}), 200 *)
| SyncFailed (e : exn).
    (* {'error': 'Sync process failed: ' + str(e)}, 500 *)

(** [results.update(pair_results)], where [pair_results] has one key: the
    value of a key already present is replaced in place, a new key goes to
    the end. *)
Fixpoint dict_update (pair_results : summary) (results : list summary)
  : list summary :=
  match results with
  | [] => [pair_results]
  | (k, v) :: rest =>
      if String.eqb k (fst pair_results) then (k, snd pair_results) :: rest
      else (k, v) :: dict_update pair_results rest
  end.

(** [jsonify] writes the keys of every object in ascending order (the JSON
    provider of Flask sorts them), so the answer lists the pairs and, for
    each pair, the periods by their names. *)
Fixpoint insert_key {A} (kv : string * A) (sorted : list (string * A))
  : list (string * A) :=
  match sorted with
  | [] => [kv]
  | x :: rest =>
      if String.leb (fst kv) (fst x) then kv :: sorted
      else x :: insert_key kv rest
  end.

Definition sort_keys {A} (object : list (string * A)) : list (string * A) :=
  fold_right insert_key [] object.

Definition jsonify (results : list summary) : list summary :=
  sort_keys (map (fun s => (fst s, sort_keys (snd s))) results).

Section Sync.

Variable soup_rows : string -> list (list string).
Variable net : nat -> string -> Z -> Z -> http_outcome.
Variable db_fault : nat -> option exn.
Variable utcnow : nat -> Z.
Variable completion : list (nat * (Z * Z)) -> list (nat * (Z * Z)).
Variable utc_offset : Z.
Variable localtime : Z -> option Z.

(** What [datetime.now()] gives to the task of each pair. *)
Variable now_of : string * string -> Z.

(** The order in which [as_completed] yields the futures of the pairs. *)
Variable pair_completion : list (string * string) -> list (string * string).

(** The [for future in as_completed(futures)] loop.  As in [collect], each
    task is run to its end when its result is collected.  A summary is a
    dictionary with one key, so [if pair_results] always holds. *)
Fixpoint sync_collect (done : list (string * string)) (results : list summary)
  : M (list summary) :=
  match done with
  | [] => ret results
  | (from_curr, to_curr) :: rest =>
      pair_results <~ process_single_pair soup_rows net db_fault utcnow completion
                        (now_of (from_curr, to_curr)) utc_offset localtime
                        from_curr to_curr ;;
      sync_collect rest (dict_update pair_results results)
  end.

Definition sync_forex_data : M sync_response :=
  try_except
    (results <~ sync_collect (pair_completion currency_pairs) [] ;;
     ret (SyncCompleted (jsonify results)))
    (fun e => ret (SyncFailed e)).

End Sync.

(* ===================================================================== *)
(** * The query of [get_forex_data] (routes.py, lines 68-81)              *)
(* ===================================================================== *)

(** [date.fromordinal(n)] as [_ord2ymd] of the [datetime] module computes
    it, with its tables for a year that is not leap. *)
Definition _DAYS_IN_MONTH : list Z :=
  [-1; 31; 28; 31; 30; 31; 30; 31; 31; 30; 31; 30; 31].

Definition _DAYS_BEFORE_MONTH : list Z :=
  [-1; 0; 31; 59; 90; 120; 151; 181; 212; 243; 273; 304; 334].

Definition _DI400Y : Z := 146097.
Definition _DI100Y : Z := 36524.
Definition _DI4Y : Z := 1461.

Definition _ord2ymd (n : Z) : Z * Z * Z :=
  let n := n - 1 in
  let n400 := n / _DI400Y in
  let n := n mod _DI400Y in
  let year := n400 * 400 + 1 in
  let n100 := n / _DI100Y in
  let n := n mod _DI100Y in
  let n4 := n / _DI4Y in
  let n := n mod _DI4Y in
  let n1 := n / 365 in
  let n := n mod 365 in
  let year := year + n100 * 100 + n4 * 4 + n1 in
  if (n1 =? 4) || (n100 =? 4) then (year - 1, 12, 31)
  else
    let leapyear := (n1 =? 3) && (negb (n4 =? 24) || (n100 =? 3)) in
    let month := Z.shiftr (n + 50) 5 in
    let preceding :=
      nth (Z.to_nat month) _DAYS_BEFORE_MONTH 0
      + (if (2 <? month) && leapyear then 1 else 0) in
    if n <? preceding then
      let month := month - 1 in
      let preceding :=
        preceding - (nth (Z.to_nat month) _DAYS_IN_MONTH 0
                     + (if (month =? 2) && leapyear then 1 else 0)) in
      (year, month, n - preceding + 1)
    else (year, month, n - preceding + 1).

(** [d.strftime('%Y-%m-%d')] of a naive [datetime]. *)
Definition strftime_datetime (t : Z) : string :=
  strftime_Y_m_d (_ord2ymd (t / microseconds_per_day + 1)).

(** The three conditions of [filter]: the pair is the one asked for and the
    date text lies between the two bounds, texts being compared byte by
    byte. *)
Definition in_range (pair start_text end_text : string) (r : row) : bool :=
  String.eqb (currency_pair (fields r)) pair
  && String.leb start_text (date (fields r))
  && String.leb (date (fields r)) end_text.

(** [order_by(ExchangeRate.date.asc())] *)
Fixpoint insert_by_date (r : row) (sorted : list row) : list row :=
  match sorted with
  | [] => [r]
  | x :: rest =>
      if String.leb (date (fields r)) (date (fields x)) then r :: sorted
      else x :: insert_by_date r rest
  end.

Definition order_by_date (rows : list row) : list row :=
  fold_right insert_by_date [] rows.

Section Query.

Variable db_fault : nat -> option exn.
Variable now : Z.

(** The rows of the database that [DATABASE_URL] names, when the variable
    is set and names another database than exchange_rates.db. *)
Variable database_url : option table.

(** The table the [Session] of routes.py is bound to: by default the file
    exchange_rates.db, which is the one every scraper opens and writes. *)
Definition queried (w : world) : table :=
  match database_url with
  | None => db w
  | Some rows => rows
  end.

(** The date range and the rows that [session.query(...).all()] returns.
    The subtraction raises [OverflowError] when it leaves the years that
    [datetime] has; the query is one database operation on the committed
    rows. *)
Definition forex_query (from_currency to_currency period : string)
  : M (list row) :=
  let end_date := now in
  period_delta <~ lift (parse_period period) ;;
  if end_date - period_delta <? 0 then raise RuntimeError
  else
    let start_date := end_date - period_delta in
    let currency_pair := (from_currency ++ to_currency ++ "=X")%string in
    fun w =>
      match db_fault (db_ops w) with
      | Some e => (Raised e, tick_db w)
      | None =>
          (Returned
             (order_by_date
                (filter (in_range currency_pair (strftime_datetime start_date)
                           (strftime_datetime end_date))
                        (queried w))),
           tick_db w)
      end.

End Query.

(* ===================================================================== *)
(** * Vocabulary of the further statements                                *)
(* ===================================================================== *)

(** The sum of the waits. *)
Definition total (xs : list Z) : Z := fold_right Z.add 0 xs.

(** The last record of a batch for a key. *)
Definition last_with_key (k : string * string) (rates : list rate_data)
  : option rate_data :=
  fold_left
    (fun acc d =>
       if String.eqb (currency_pair d) (fst k) && String.eqb (date d) (snd k)
       then Some d else acc)
    rates None.

(** [_fetch_chunk] called for each window of a list, one call after the
    other; the world after the last call. *)
Fixpoint fetch_each (net : nat -> string -> Z -> Z -> http_outcome)
    (self : nat) (quote : string) (windows : list (Z * Z)) (w : world) : world :=
  match windows with
  | [] => w
  | (f, t) :: rest =>
      fetch_each net self quote rest (snd (_fetch_chunk net self quote f t w))
  end.

(** The records of a parse result, none when it is [None]. *)
Definition records_of (r : outcome (option (list rate_data))) : list rate_data :=
  match r with
  | Returned (Some l) => l
  | _ => []
  end.

(** A page reader for examples: every letter [g] of the page stands for a
    row with a quote, every letter [b] for a row without a close rate. *)
Definition lettered_soup (html : string) : list (list string) :=
  flat_map (fun c => if Ascii.eqb c "g" then [quote_row "-"]
                     else if Ascii.eqb c "b" then [no_close_row] else [])
           (list_ascii_of_string html).

(** A source that cannot be reached. *)
Definition source_down : nat -> string -> Z -> Z -> http_outcome :=
  fun _ _ _ _ => Failed RequestException.

(** The entries of a summary whose periods all succeeded. *)
Definition success_entries (a b c d e : nat) : list (string * period_status) :=
  [("1W", Success a); ("1M", Success b); ("3M", Success c);
   ("6M", Success d); ("1Y", Success e)].

(** [date.toordinal()] of a year, month and day. *)
Definition toordinal (ymd : Z * Z * Z) : Z :=
  let '(y, m, d) := ymd in ymd2ord y m d.

(** [datetime.max], 9999-12-31T23:59:59.999999. *)
Definition datetime_max : Z :=
  datetime_of_date 9999 12 31 + microseconds_per_day - 1.

(** The day of a [datetime], as an ordinal. *)
Definition day_of (t : Z) : Z := t / microseconds_per_day + 1.

Definition shift_years (k : Z) (ymd : Z * Z * Z) : Z * Z * Z :=
  let '(y, m, d) := ymd in (y + 400 * k, m, d).

(** One cycle of 400 years, day by day. *)
Definition ordinal_ok (r : Z) : bool :=
  let '(y, m, d) := _ord2ymd (r + 1) in
  (1 <=? y) && (y <=? 400) && (1 <=? m) && (m <=? 12) &&
  (1 <=? d) && (d <=? days_in_month y m) && (ymd2ord y m d =? r + 1).

Fixpoint all_from (test : Z -> bool) (r : Z) (count : nat) : bool :=
  match count with
  | O => true
  | S c => test r && all_from test (r + 1) c
  end.

(** A date of the proleptic calendar, whatever the year. *)
Definition in_calendar (ymd : Z * Z * Z) : Prop :=
  let '(y, m, d) := ymd in 1 <= m <= 12 /\ 1 <= d <= days_in_month y m.

(** Dates compared as Python compares them: year, then month, then day. *)
Definition date_compare (a b : Z * Z * Z) : comparison :=
  let '(y1, m1, d1) := a in
  let '(y2, m2, d2) := b in
  match y1 ?= y2 with
  | Eq => match m1 ?= m2 with
          | Eq => d1 ?= d2
          | c => c
          end
  | c => c
  end.

(** Rows in ascending order of their date texts. *)
Definition by_date (a b : row) : Prop :=
  String.leb (date (fields a)) (date (fields b)) = true.

(** The instance a cache key belongs to. *)
Definition scraper_of (k : cache_key) : nat := fst (fst (fst k)).

(** Every entry of the cache belongs to a scraper created before the
    [bound]-th. *)
Definition cache_older (bound : nat) (w : world) : Prop :=
  Forall (fun k => (scraper_of k < bound)%nat) (map fst (cache w)).

(** The world after a constructor [ExchangeRateScraper()] that succeeded:
    one database operation more, one scraper more. *)
Definition scraper_made (w : world) : world :=
  mkWorld (requests w) (slept w) (cache w) (db w) (S (db_ops w))
          (S (scrapers w)).

(** The clock of a run, and the clock a year before, are at least two days
    inside the years that [datetime] has: neither the subtraction of the
    year nor [timestamp()], which looks up to a day around its argument,
    raises. *)
Definition clock_inside (now : Z) : Prop :=
  timedelta_days 2 <= now - timedelta_days 365 /\
  now <= datetime_max - timedelta_days 2.

(** The two bounds that [process_single_pair] hands to [get_exchange_data]
    are instants that [datetime] has. *)
Definition year_in_datetime_range (localtime : Z -> option Z)
    (now utc_offset : Z) : Prop :=
  in_datetime_range localtime (timestamp utc_offset (now - timedelta_days 365))
  = true /\
  in_datetime_range localtime (timestamp utc_offset now) = true.

(** The pages of the windows of a list of futures, in the order of the
    list. *)
Definition pages_of (page : Z -> Z -> string) (done : list (nat * (Z * Z)))
  : list string :=
  map (fun x => page (fst (snd x)) (snd (snd x))) done.

(* ===================================================================== *)
(** * The definitions at work                                             *)
(* ===================================================================== *)

Example plan_104_days_example :
  Planner.plan 1700000000 1708985600 =
  [(1700000000, 1707776000); (1707776001, 1708985600)].
Proof. reflexivity. Qed.

Example plan_empty_example : Planner.plan 1700000000 1700000000 = [].
Proof. reflexivity. Qed.

Example py_int_examples :
  map py_int ["1,200"; "1200"; " 12 "; "-"; "null"; ""; "1_000"; "12.5"] =
  [Raised ValueError; Returned 1200; Returned 12; Raised ValueError;
   Raised ValueError; Raised ValueError; Returned 1000; Raised ValueError].
Proof. reflexivity. Qed.

Example py_float_examples :
  map py_float ["105.61"; " 1e3 "; "-"; "None"; ".5"; "5."; "nan"; "1,0"] =
  [Returned (FDec false 10561 (-2)); Returned (FDec false 1 3); Raised ValueError;
   Raised ValueError; Returned (FDec false 5 (-1)); Returned (FDec false 5 0);
   Returned FNan; Raised ValueError].
Proof. reflexivity. Qed.

Example strptime_examples :
  map strptime_b_d_Y ["Jan 5, 2024"; "Feb 29, 2023"; "2024-01-05"; "Jan 5 2024"] =
  [Returned (2024, 1, 5); Raised ValueError; Raised ValueError; Raised ValueError].
Proof. reflexivity. Qed.

Example strftime_example : strftime_Y_m_d (2024, 1, 5) = "2024-01-05".
Proof. reflexivity. Qed.

(** Before the year 1000 the year is written without leading zeros, and
    the text is not read back. *)
Example strftime_short_year_example :
  map strftime_Y_m_d [(999, 1, 5); (99, 12, 31); (5, 1, 1)] =
  ["999-01-05"; "99-12-31"; "5-01-01"].
Proof. reflexivity. Qed.

Example strptime_short_year_example :
  map strptime_Y_m_d ["2024-01-05"; "999-01-05"; "0999-01-05"] =
  [Returned (datetime_of_date 2024 1 5); Raised ValueError;
   Returned (datetime_of_date 999 1 5)].
Proof. reflexivity. Qed.

Example old_row_example :
  match parse_row "GBPINR=X" old_row with
  | Returned (Some r) => Some (date r)
  | _ => None
  end = Some "999-01-05".
Proof. reflexivity. Qed.

Example toordinal_example : ymd2ord 1970 1 1 = 719163.
Proof. reflexivity. Qed.

(** On a machine in UTC: 1700000000 is 2023-11-14T22:13:20, and the
    instants that [fromtimestamp] accepts run from one day after
    0001-01-01T00:00:00 to 9999-12-31T23:59:59. *)
Example fromtimestamp_examples :
  map (fromtimestamp utc) [0; 1700000000] =
  [Returned unix_epoch;
   Returned (datetime_of_date 2023 11 14 + (22 * 3600 + 13 * 60 + 20) * 1000000)].
Proof. reflexivity. Qed.

Example datetime_range_examples :
  map (in_datetime_range utc)
      [-62135510401; -62135510400; 253402300799; 253402300800; 2 ^ 63] =
  [false; true; true; false; false].
Proof. reflexivity. Qed.

(** The exceptions of an instant out of range: [ValueError] for a year that
    [datetime] has not, [OSError] when [localtime_r] fails, [OverflowError]
    beyond [time_t]. *)
Example fromtimestamp_raises_examples :
  map (fromtimestamp utc) [10 ^ 12; 10 ^ 17; 2 ^ 63] =
  [Raised ValueError; Raised RuntimeError; Raised RuntimeError].
Proof. reflexivity. Qed.

Example jsonify_example :
  jsonify [("GBPINR=X", success_entries 1 2 3 4 5);
           ("AEDINR=X", snd (error_summary "AEDINR=X" NoDataFound))] =
  [("AEDINR=X", [("1M", Error NoDataFound); ("1W", Error NoDataFound);
                 ("1Y", Error NoDataFound); ("3M", Error NoDataFound);
                 ("6M", Error NoDataFound)]);
   ("GBPINR=X", [("1M", Success 2); ("1W", Success 1); ("1Y", Success 5);
                 ("3M", Success 3); ("6M", Success 4)])].
Proof. reflexivity. Qed.

(** Texts are compared byte by byte: a date of the year 999 lies between
    two bounds of the years 9989 and 9990. *)
Example short_year_in_text_range_example :
  in_range "GBPINR=X" "9989-03-01" "9990-03-01"
    (mkRow 1 (as_stored (sample_rate "GBPINR=X" "999-01-05" 10548 0)) 0) = true.
Proof. reflexivity. Qed.

(** A constructor whose [create_all] fails hands out no scraper. *)
Example new_scraper_example :
  new_scraper (fault_at 0 SQLAlchemyError) empty_world
  = (Raised SQLAlchemyError, tick_db empty_world) /\
  new_scraper no_faults empty_world = (Returned 0%nat, scraper_made empty_world).
Proof. split; reflexivity. Qed.

Example parse_row_example :
  parse_row "GBPINR=X" (quote_row "-") =
  Returned (Some (sample_rate "GBPINR=X" "2024-01-05" 10548 0)).
Proof. reflexivity. Qed.

Example parse_row_no_close_example :
  parse_row "GBPINR=X" no_close_row = Returned None.
Proof. reflexivity. Qed.

Example parse_row_null_volume_example :
  parse_row "GBPINR=X" (quote_row "null") = Raised ValueError.
Proof. reflexivity. Qed.

(** Five rows, two with the volume ["-"] and one without a close rate:
    four records, two of them with volume 0. *)
Example parse_five_rows_example :
  option_map (map volume)
    (match parse_exchange_data
             (fun _ => [quote_row "1,200"; quote_row "-"; no_close_row;
                        quote_row "-"; quote_row "950"])
             "<table/>" "GBPINR=X" with
     | Returned r => r
     | Raised _ => None
     end) = Some [1200; 0; 0; 950].
Proof. reflexivity. Qed.

Example upsert_example :
  upsert 2000 (sample_rate "GBPINR=X" "2024-01-05" 10611 350)
    (upsert 1000 (sample_rate "GBPINR=X" "2024-01-05" 10548 0) []) =
  [mkRow 1 (as_stored (sample_rate "GBPINR=X" "2024-01-05" 10611 350)) 1000].
Proof. reflexivity. Qed.

Example retry_example :
  _fetch_data_with_retry (timeouts_then_page 1) "GBPINR=X" 0 7776000 3 empty_world =
  (Returned (Some "<table/>"), mkWorld 2 [1] [] [] 0 0).
Proof. reflexivity. Qed.

Example retry_status_example :
  _fetch_data_with_retry (flaky_source 2) "GBPINR=X" 0 7776000 3 empty_world =
  (Returned (Some "<table/>"), mkWorld 3 [] [] [] 0 0).
Proof. reflexivity. Qed.

(* ===================================================================== *)
(** * Properties of the chunk planner                                     *)
(* ===================================================================== *)

Section PlannerFacts.

Import Planner.

Lemma chunk_loop_lt (f t : Z) :
  f < t ->
  chunk_loop f t =
  (f, Z.min (f + three_months) t) :: chunk_loop (Z.min (f + three_months) t + 1) t.
Proof.
  intros H. rewrite (chunk_loop_equation_1 f t).
  destruct (Z_lt_dec f t); [reflexivity | lia].
Qed.

Lemma chunk_loop_ge (f t : Z) : t <= f -> chunk_loop f t = [].
Proof.
  intros H. rewrite (chunk_loop_equation_1 f t).
  destruct (Z_lt_dec f t); [lia | reflexivity].
Qed.

(** Induction along the loop: the next iteration starts strictly later. *)
Lemma chunk_loop_ind (P : Z -> Z -> Prop) :
  (forall f t, t <= f -> P f t) ->
  (forall f t, f < t -> P (Z.min (f + three_months) t + 1) t -> P f t) ->
  forall f t, P f t.
Proof.
  intros Hstop Hstep f t.
  remember (Z.to_nat (t - f)) as n eqn:Hn.
  revert f Hn. induction n as [n IH] using lt_wf_ind. intros f Hn.
  destruct (Z_lt_dec f t) as [Hlt | Hge].
  - apply Hstep; [exact Hlt |].
    apply (IH (Z.to_nat (t - (Z.min (f + three_months) t + 1)))); [| reflexivity].
    unfold three_months. lia.
  - apply Hstop. lia.
Qed.

Lemma plan_within (f t : Z) : Forall (within f t) (plan f t).
Proof.
  unfold plan. cut (forall lo, lo <= f -> Forall (within lo t) (chunk_loop f t)).
  { intros H. apply H. lia. }
  pattern f, t. apply chunk_loop_ind; clear f t.
  - intros f t H lo _. rewrite chunk_loop_ge by exact H. constructor.
  - intros f t H IH lo Hlo. rewrite chunk_loop_lt by exact H. constructor.
    + unfold within; simpl. lia.
    + apply IH. unfold three_months. lia.
Qed.

Lemma plan_spans (f t : Z) : Forall span_ok (plan f t).
Proof.
  unfold plan. pattern f, t. apply chunk_loop_ind; clear f t.
  - intros f t H. rewrite chunk_loop_ge by exact H. constructor.
  - intros f t H IH. rewrite chunk_loop_lt by exact H. constructor; [| exact IH].
    unfold span_ok, three_months; simpl. lia.
Qed.

Lemma plan_first (f t : Z) : f < t -> first_start (plan f t) = Some f.
Proof.
  intros H. unfold plan. rewrite chunk_loop_lt by exact H. reflexivity.
Qed.

Lemma plan_chained (f t : Z) : chained (plan f t).
Proof.
  unfold plan. pattern f, t. apply chunk_loop_ind; clear f t.
  - intros f t H. rewrite chunk_loop_ge by exact H. exact I.
  - intros f t H IH. rewrite chunk_loop_lt by exact H.
    set (ct := Z.min (f + three_months) t) in *.
    destruct (Z_lt_dec (ct + 1) t) as [Hlt | Hge].
    + rewrite chunk_loop_lt in IH |- * by exact Hlt. simpl. split; [reflexivity | exact IH].
    + rewrite chunk_loop_ge by lia. exact I.
Qed.

Lemma ceil_div_small (a b : Z) : 0 < a <= b -> ceil_div a b = 1.
Proof.
  intros H. unfold ceil_div. symmetry. apply (Z.div_unique _ _ 1 (a - 1)); lia.
Qed.

Lemma ceil_div_step (a b : Z) : 0 < b -> ceil_div (a + b) b = ceil_div a b + 1.
Proof.
  intros H. unfold ceil_div.
  replace (a + b + b - 1) with ((a + b - 1) + 1 * b) by lia.
  rewrite Z.div_add by lia. reflexivity.
Qed.

Lemma plan_length (f t : Z) :
  f < t ->
  Z.of_nat (List.length (plan f t)) = ceil_div (t - f) (three_months + 1).
Proof.
  unfold plan. pattern f, t. apply chunk_loop_ind; clear f t.
  - intros; lia.
  - intros f t H IH _. rewrite chunk_loop_lt by exact H.
    set (ct := Z.min (f + three_months) t) in *.
    cbn [List.length]. rewrite Nat2Z.inj_succ.
    destruct (Z_lt_dec (ct + 1) t) as [Hlt | Hge].
    + rewrite IH by exact Hlt.
      assert (ct = f + three_months) as -> by (unfold ct, three_months in *; lia).
      replace (t - f) with ((t - (f + three_months + 1)) + (three_months + 1)) by lia.
      rewrite ceil_div_step by (unfold three_months; lia). lia.
    + rewrite chunk_loop_ge by lia. cbn [List.length].
      rewrite ceil_div_small; [reflexivity |].
      unfold ct, three_months in *. lia.
Qed.

(** Where the last window ends: at [t], except when the range is a whole
    number of steps of [three_months + 1] seconds. *)
Lemma plan_last (f t : Z) :
  f < t ->
  last_end (plan f t) =
  Some (if (t - f) mod (three_months + 1) =? 0 then t - 1 else t).
Proof.
  unfold plan. pattern f, t. apply chunk_loop_ind; clear f t.
  - intros; lia.
  - intros f t H IH _. rewrite chunk_loop_lt by exact H.
    set (ct := Z.min (f + three_months) t) in *.
    destruct (Z_lt_dec (ct + 1) t) as [Hlt | Hge].
    + assert (ct = f + three_months) as Hct by (unfold ct, three_months in *; lia).
      specialize (IH Hlt). rewrite chunk_loop_lt in IH |- * by exact Hlt.
      cbn [last_end] in IH |- *. rewrite IH. rewrite Hct.
      replace (t - f) with ((t - (f + three_months + 1)) + 1 * (three_months + 1)) by lia.
      rewrite Z.mod_add by (unfold three_months; lia). reflexivity.
    + rewrite chunk_loop_ge by lia. cbn [last_end].
      destruct (Z.eq_dec t (f + three_months + 1)) as [-> | Hne].
      * replace (f + three_months + 1 - f) with (1 * (three_months + 1)) by lia.
        rewrite Z.mod_mul by (unfold three_months; lia). cbn [Z.eqb].
        unfold ct. f_equal. unfold three_months. lia.
      * assert (ct = t) as Hct by (unfold ct, three_months in *; lia).
        rewrite Hct. rewrite Z.mod_small by (unfold ct, three_months in *; lia).
        destruct (Z.eqb_spec (t - f) 0); [lia | reflexivity].
Qed.

End PlannerFacts.

(** ** The statements about the planner *)

(** A range of 180 days and one second gets two windows, 90 days each, where
    [ceil (S / 90)] is 3. *)
Lemma plan_count_differs : ~ planned_as_stated 0 15552001.
Proof.
  intros H. destruct (H ltac:(lia)) as [Hlen _].
  vm_compute in Hlen. discriminate Hlen.
Qed.

(** The same for a range of whole days: 15,552,001 days get 172,800 windows
    that end at the end of the range, where [ceil (S / 90)] is 172,801. *)
Lemma plan_count_whole_days :
  let t := 86400 * 15552001 in
  Z.of_nat (List.length (Planner.plan 0 t)) = 172800 /\
  Planner.ceil_div (t - 0) Planner.three_months = 172801 /\
  Planner.last_end (Planner.plan 0 t) = Some t.
Proof.
  intros t. subst t. split; [| split].
  - rewrite plan_length by lia. reflexivity.
  - reflexivity.
  - rewrite plan_last by lia. reflexivity.
Qed.

(** C1 (as the code has it).  For [f < t] the planner gives
    [ceil ((t - f) / 7776001)] windows, the next one starting one second
    after the end of the one before; each window is not empty, spans at most
    7,776,000 seconds and lies inside the range; the first starts at [f];
    and the last ends at [t] when [t - f] is not a multiple of 7,776,001. *)
Theorem plan_windows (f t : Z) :
  f < t ->
  let ws := Planner.plan f t in
  Z.of_nat (List.length ws) = Planner.ceil_div (t - f) (Planner.three_months + 1) /\
  Planner.chained ws /\ Forall Planner.span_ok ws /\
  Forall (Planner.within f t) ws /\
  Planner.first_start ws = Some f /\
  ((t - f) mod (Planner.three_months + 1) <> 0 -> Planner.last_end ws = Some t).
Proof.
  intros H ws. subst ws. repeat split.
  - apply plan_length, H.
  - apply plan_chained.
  - apply plan_spans.
  - apply plan_within.
  - apply plan_first, H.
  - intros Hmod. rewrite plan_last by exact H.
    destruct (Z.eqb_spec ((t - f) mod (Planner.three_months + 1)) 0);
      [contradiction | reflexivity].
Qed.

Lemma plan_windows_witness :
  Z.of_nat (List.length (Planner.plan 1700000000 1708985600)) = 2 /\
  Planner.last_end (Planner.plan 1700000000 1708985600) = Some 1708985600.
Proof.
  destruct (plan_windows 1700000000 1708985600 ltac:(lia))
    as (Hlen & _ & _ & _ & _ & Hlast).
  split; [exact Hlen |]. apply Hlast. vm_compute. discriminate.
Defined.

(* ===================================================================== *)
(** * Properties of the parser                                            *)
(* ===================================================================== *)

Section ParserFacts.

Lemma py_float_raises (s : string) (e : exn) :
  py_float s = Raised e -> e = ValueError.
Proof.
  unfold py_float. destruct (sign _) as [neg body].
  destruct (_ || _); [discriminate |].
  destruct (String.eqb _ _); [discriminate |].
  destruct (float_number body) as [[m x] |]; [discriminate |].
  intros H; inversion H; reflexivity.
Qed.

Lemma py_int_raises (s : string) (e : exn) :
  py_int s = Raised e -> e = ValueError.
Proof.
  unfold py_int. destruct (sign _) as [neg body].
  destruct (digitpart body) as [[ds [| c r]] |]; intros H; inversion H; reflexivity.
Qed.

Lemma strptime_b_d_Y_raises (s : string) (e : exn) :
  strptime_b_d_Y s = Raised e -> e = ValueError.
Proof.
  unfold strptime_b_d_Y. destruct (obind _ _); intros H; inversion H; reflexivity.
Qed.

Lemma cell_raises (cols : list string) (i : nat) (e : exn) :
  cell cols i = Raised e -> e = IndexError.
Proof.
  unfold cell. destruct (nth_error cols i); intros H; inversion H; reflexivity.
Qed.

Lemma rate_cell_raises (cols : list string) (i : nat) (e : exn) :
  rate_cell cols i = Raised e -> caught_by_parser e = true.
Proof.
  unfold rate_cell, bind. destruct (cell cols i) eqn:Hc.
  - intros H. apply py_float_raises in H. subst. reflexivity.
  - intros H. inversion H; subst. apply cell_raises in Hc. subst. reflexivity.
Qed.

Lemma volume_cell_raises (cols : list string) (e : exn) :
  volume_cell cols = Raised e -> caught_by_parser e = true.
Proof.
  unfold volume_cell, bind. destruct (cell cols 6) eqn:Hc.
  - destruct (negb _); [| discriminate].
    intros H. apply py_int_raises in H. subst. reflexivity.
  - intros H. inversion H; subst. apply cell_raises in Hc. subst. reflexivity.
Qed.

(** Whatever leaves the [try] block of a row is caught by its [except]. *)
Lemma parse_row_raises (pair : string) (cols : list string) (e : exn) :
  parse_row pair cols = Raised e -> caught_by_parser e = true.
Proof.
  unfold parse_row, bind.
  destruct (cell cols 0) eqn:Hc0.
  2:{ intros H; inversion H; subst. apply cell_raises in Hc0. subst. reflexivity. }
  destruct (String.eqb _ _); [discriminate |].
  destruct (strptime_b_d_Y _) eqn:Hd.
  2:{ intros H; inversion H; subst. apply strptime_b_d_Y_raises in Hd. subst. reflexivity. }
  destruct (existsb _ _); [discriminate |].
  destruct (rate_cell cols 1) eqn:H1; [| intros H; inversion H; subst; eauto using rate_cell_raises].
  destruct (rate_cell cols 2) eqn:H2; [| intros H; inversion H; subst; eauto using rate_cell_raises].
  destruct (rate_cell cols 3) eqn:H3; [| intros H; inversion H; subst; eauto using rate_cell_raises].
  destruct (rate_cell cols 4) eqn:H4; [| intros H; inversion H; subst; eauto using rate_cell_raises].
  destruct (rate_cell cols 5) eqn:H5; [| intros H; inversion H; subst; eauto using rate_cell_raises].
  destruct (volume_cell cols) eqn:H6; [discriminate |].
  intros H; inversion H; subst; eauto using volume_cell_raises.
Qed.

Lemma parse_rows_cons (pair : string) (cols : list string)
    (rest : list (list string)) (data : list rate_data) :
  parse_rows pair (cols :: rest) data =
  parse_rows pair rest (data ++ row_records pair cols).
Proof.
  cbn [parse_rows]. unfold row_records.
  destruct (7 <=? List.length cols)%nat; [| rewrite app_nil_r; reflexivity].
  destruct (parse_row pair cols) as [[r |] | e] eqn:Hrow;
    try (rewrite app_nil_r; reflexivity); [reflexivity |].
  rewrite (parse_row_raises _ _ _ Hrow), app_nil_r. reflexivity.
Qed.

(** The loop over the rows always runs to its end. *)
Lemma parse_rows_total (pair : string) (rows : list (list string))
    (data : list rate_data) :
  parse_rows pair rows data = Returned (data ++ flat_map (row_records pair) rows).
Proof.
  revert data. induction rows as [| cols rest IH]; intros data.
  - cbn. rewrite app_nil_r. reflexivity.
  - rewrite parse_rows_cons, IH. cbn [flat_map]. rewrite app_assoc. reflexivity.
Qed.

Lemma parse_rows_skip (pair : string) (pre post : list (list string))
    (cols : list string) (data : list rate_data) :
  row_records pair cols = [] ->
  parse_rows pair (pre ++ cols :: post) data = parse_rows pair (pre ++ post) data.
Proof.
  intros H. rewrite !parse_rows_total, !flat_map_app. cbn [flat_map].
  rewrite H. reflexivity.
Qed.

(** [parse_row] on a row whose first seven cells are named. *)
Lemma parse_row_seven (pair c0 c1 c2 c3 c4 c5 c6 : string) (more : list string) :
  parse_row pair (c0 :: c1 :: c2 :: c3 :: c4 :: c5 :: c6 :: more) =
  if String.eqb (strip c0) "" then Returned None
  else
    ymd <- strptime_b_d_Y (strip c0) ;;
    if placeholder (strip c1) || (placeholder (strip c2) || (placeholder (strip c3)
       || (placeholder (strip c4) || (placeholder (strip c5) || false))))
    then Returned None
    else
      o <- py_float (remove_commas c1) ;;
      h <- py_float (remove_commas c2) ;;
      l <- py_float (remove_commas c3) ;;
      c <- py_float (remove_commas c4) ;;
      a <- py_float (remove_commas c5) ;;
      v <- (if negb (String.eqb (strip c6) "-") then py_int (remove_commas c6)
            else Returned 0) ;;
      Returned (Some (mkRate pair (strftime_Y_m_d ymd) o h l c a v)).
Proof. reflexivity. Qed.

Lemma seven_cells (cols : list string) :
  (7 <= List.length cols)%nat ->
  exists c0 c1 c2 c3 c4 c5 c6 more,
    cols = c0 :: c1 :: c2 :: c3 :: c4 :: c5 :: c6 :: more.
Proof.
  intros H.
  destruct cols as [| c0 [| c1 [| c2 [| c3 [| c4 [| c5 [| c6 more]]]]]]];
    cbn in H; try lia.
  repeat eexists.
Qed.

Ltac name_cells cols H :=
  let c0 := fresh "c0" in let c1 := fresh "c1" in let c2 := fresh "c2" in
  let c3 := fresh "c3" in let c4 := fresh "c4" in let c5 := fresh "c5" in
  let c6 := fresh "c6" in let more := fresh "more" in
  destruct (seven_cells cols H) as (c0 & c1 & c2 & c3 & c4 & c5 & c6 & more & ->).

Ltac split_row :=
  repeat match goal with
    | |- context [String.eqb (strip ?c) ""] => destruct (String.eqb (strip c) "")
    | |- context [strptime_b_d_Y ?x] => destruct (strptime_b_d_Y x) eqn:?
    | |- context [placeholder ?x] => destruct (placeholder x) eqn:?
    | |- context [py_float ?x] => destruct (py_float x) eqn:?
    | |- context [py_int ?x] => destruct (py_int x) eqn:?
    | |- context [negb (String.eqb ?a ?b)] => destruct (String.eqb_spec a b)
    end;
  cbn [bind orb negb]; try reflexivity; try congruence.

Ltac skip_row :=
  match goal with |- context [String.eqb (strip ?c) ""] =>
    destruct (String.eqb (strip c) ""); [reflexivity |] end;
  match goal with |- context [strptime_b_d_Y ?x] =>
    destruct (strptime_b_d_Y x); cbn [bind]; [| reflexivity] end;
  try match goal with |- context [orb ?a ?b] =>
    destruct (orb a b); [reflexivity |] end;
  repeat (match goal with |- context [py_float ?x] =>
            destruct (py_float x) end; cbn [bind]; try reflexivity).

Lemma rejected_price_skipped (pair : string) (cols : list string) :
  (7 <= List.length cols)%nat -> rejected_price cols ->
  row_records pair cols = [].
Proof.
  intros Hlen (i & t & Hi & Ht & Hbad). unfold row_records.
  destruct (7 <=? List.length cols)%nat; [| reflexivity].
  name_cells cols Hlen. rewrite parse_row_seven.
  assert (i = 1 \/ i = 2 \/ i = 3 \/ i = 4 \/ i = 5)%nat as Hcase by lia.
  destruct Hcase as [-> | [-> | [-> | [-> | ->]]]]; cbn in Ht; inversion Ht; subst;
    destruct Hbad as [Hbad | Hbad]; rewrite Hbad;
    cbn [orb]; rewrite ?orb_true_r; skip_row; reflexivity.
Qed.

Lemma rejected_date_skipped (pair : string) (cols : list string) :
  (7 <= List.length cols)%nat -> rejected_date cols ->
  row_records pair cols = [].
Proof.
  intros Hlen (t & Ht & Hbad). unfold row_records.
  destruct (7 <=? List.length cols)%nat; [| reflexivity].
  name_cells cols Hlen. rewrite parse_row_seven.
  cbn in Ht; inversion Ht; subst. rewrite Hbad.
  destruct (String.eqb (strip t) ""); reflexivity.
Qed.

Lemma rejected_volume_skipped (pair : string) (cols : list string) :
  (7 <= List.length cols)%nat -> rejected_volume cols ->
  row_records pair cols = [].
Proof.
  intros Hlen (t & Ht & Hne & Hbad). unfold row_records.
  destruct (7 <=? List.length cols)%nat; [| reflexivity].
  name_cells cols Hlen. rewrite parse_row_seven.
  cbn in Ht; inversion Ht; subst. rewrite Hbad.
  destruct (String.eqb_spec (strip t) "-"); [contradiction |].
  cbn [negb]. split_row.
Qed.

(** A volume cell that is ["-"] is read as the number 0. *)
Lemma volume_dash_is_zero (pair : string) (cols : list string) (t : string) :
  nth_error cols 6 = Some t -> strip t = "-" ->
  parse_row pair cols = parse_row pair (set_cell 6 "0" cols).
Proof.
  intros Ht Hdash.
  destruct cols as [| c0 [| c1 [| c2 [| c3 [| c4 [| c5 [| c6 more]]]]]]];
    try discriminate.
  cbn in Ht; inversion Ht; subst. cbn [set_cell].
  rewrite !parse_row_seven, Hdash.
  change (String.eqb "-" "-") with true.
  change (negb (String.eqb (strip "0") "-")) with true.
  change (py_int (remove_commas "0")) with (@Returned Z 0).
  reflexivity.
Qed.

(** The other placeholder tokens are not integers. *)
Lemma placeholder_not_int (t : string) :
  placeholder t = true -> t <> "-" -> py_int (remove_commas t) = Raised ValueError.
Proof.
  unfold placeholder. cbn [existsb]. intros H Hne.
  repeat match type of H with
    | orb (String.eqb ?a ?b) _ = true =>
        destruct (String.eqb_spec a b) as [Heq |]; cbn [orb] in H;
        [rewrite Heq in *; clear Heq |]
    end; first [reflexivity | congruence].
Qed.

(** ** Dates written by the parser *)

Lemma strptime_b_d_Y_valid (s : string) (y m d : Z) :
  strptime_b_d_Y s = Returned (y, m, d) -> valid_date y m d = true.
Proof.
  unfold strptime_b_d_Y.
  destruct (month_field _) as [[m0 r1] |]; cbn [obind]; [| discriminate].
  destruct (spaces1 r1) as [r2 |]; cbn [obind]; [| discriminate].
  destruct (day_field r2) as [[d0 r3] |]; cbn [obind]; [| discriminate].
  destruct (literal _ r3) as [r4 |]; cbn [obind]; [| discriminate].
  destruct (spaces1 r4) as [r5 |]; cbn [obind]; [| discriminate].
  destruct (year_field r5) as [[y0 r6] |]; cbn [obind]; [| discriminate].
  destruct r6; [| discriminate].
  destruct (valid_date y0 m0 d0) eqn:Hv; [| discriminate].
  intros H; inversion H; subst. exact Hv.
Qed.

Lemma digit_char_spec (k : Z) :
  0 <= k <= 9 ->
  is_digit (digit_char k) = true /\ digit_val (digit_char k) = k /\
  Ascii.eqb (digit_char k) " " = false.
Proof.
  intros H.
  assert (k = 0 \/ k = 1 \/ k = 2 \/ k = 3 \/ k = 4 \/ k = 5 \/ k = 6 \/
          k = 7 \/ k = 8 \/ k = 9) as Hk by lia.
  repeat destruct Hk as [-> | Hk]; try subst k; repeat split; reflexivity.
Qed.

Lemma days_in_month_bound (y m : Z) : 28 <= days_in_month y m <= 31.
Proof.
  unfold days_in_month.
  destruct (m =? 2); [destruct (is_leap y); lia |].
  destruct (_ || _); lia.
Qed.

Lemma valid_date_bounds (y m d : Z) :
  valid_date y m d = true ->
  1 <= y <= 9999 /\ 1 <= m <= 12 /\ 1 <= d <= 31.
Proof.
  unfold valid_date. rewrite !andb_true_iff, !Z.leb_le.
  pose proof (days_in_month_bound y m). lia.
Qed.

Lemma decimal_digits (n : Z) :
  0 <= n <= 9999 ->
  let a := n / 1000 mod 10 in let b := n / 100 mod 10 in
  let c := n / 10 mod 10 in let d := n mod 10 in
  (0 <= a <= 9 /\ 0 <= b <= 9 /\ 0 <= c <= 9 /\ 0 <= d <= 9) /\
  1000 * a + 100 * b + 10 * c + d = n.
Proof.
  intros H. cbv zeta.
  replace (n / 1000) with (n / 10 / 10 / 10)
    by (rewrite !Z.div_div by lia; reflexivity).
  replace (n / 100) with (n / 10 / 10)
    by (rewrite Z.div_div by lia; reflexivity).
  pose proof (Z.div_mod n 10 ltac:(lia)).
  pose proof (Z.div_mod (n / 10) 10 ltac:(lia)).
  pose proof (Z.div_mod (n / 10 / 10) 10 ltac:(lia)).
  pose proof (Z.div_mod (n / 10 / 10 / 10) 10 ltac:(lia)).
  pose proof (Z.mod_pos_bound n 10 ltac:(lia)).
  pose proof (Z.mod_pos_bound (n / 10) 10 ltac:(lia)).
  pose proof (Z.mod_pos_bound (n / 10 / 10) 10 ltac:(lia)).
  pose proof (Z.mod_pos_bound (n / 10 / 10 / 10) 10 ltac:(lia)).
  assert (n / 10 / 10 / 10 / 10 = 0) as E.
  { rewrite !Z.div_div by lia. apply Z.div_small. lia. }
  lia.
Qed.

Lemma decimal_two_digits (n : Z) :
  0 <= n <= 99 ->
  let c := n / 10 mod 10 in let d := n mod 10 in
  (0 <= c <= 9 /\ 0 <= d <= 9) /\ 10 * c + d = n.
Proof.
  intros H c d. subst c d.
  pose proof (Z.div_mod n 10 ltac:(lia)).
  pose proof (Z.mod_pos_bound n 10 ltac:(lia)).
  assert (n / 10 mod 10 = n / 10) as ->.
  { apply Z.mod_small. split; [apply Z.div_pos; lia |].
    apply Z.div_lt_upper_bound; lia. }
  lia.
Qed.

(** A valid date is written in the shape [YYYY-MM-DD] and read back by
    ['%Y-%m-%d'] as the same day. *)
Lemma iso_text_round_trip (y m d : Z) :
  valid_date y m d = true ->
  iso_date (iso_text (y, m, d)) = true /\
  strptime_Y_m_d (iso_text (y, m, d)) = Returned (datetime_of_date y m d).
Proof.
  intros Hv. pose proof (valid_date_bounds _ _ _ Hv) as (Hy & Hm & Hd).
  destruct (decimal_digits y ltac:(lia)) as ((Ha & Hb & Hc & Hd0) & Ey).
  destruct (decimal_two_digits m ltac:(lia)) as ((Hm1 & Hm0) & Em).
  destruct (decimal_two_digits d ltac:(lia)) as ((Hd1 & Hd2) & Ed).
  unfold iso_date, strptime_Y_m_d, iso_text, zero_pad4, zero_pad2.
  rewrite list_ascii_of_string_of_list_ascii.
  set (a := y / 1000 mod 10) in *. set (b := y / 100 mod 10) in *.
  set (c := y / 10 mod 10) in *. set (e := y mod 10) in *.
  set (m1 := m / 10 mod 10) in *. set (m0 := m mod 10) in *.
  set (d1 := d / 10 mod 10) in *. set (d0 := d mod 10) in *.
  destruct (digit_char_spec a Ha) as (Ia & Va & _).
  destruct (digit_char_spec b Hb) as (Ib & Vb & _).
  destruct (digit_char_spec c Hc) as (Ic & Vc & _).
  destruct (digit_char_spec e Hd0) as (Ie & Ve & _).
  destruct (digit_char_spec m1 Hm1) as (Im1 & Vm1 & _).
  destruct (digit_char_spec m0 Hm0) as (Im0 & Vm0 & _).
  destruct (digit_char_spec d1 Hd1) as (Id1 & Vd1 & _).
  destruct (digit_char_spec d0 Hd2) as (Id0 & Vd0 & _).
  cbn [app]. split.
  - rewrite Ia, Ib, Ic, Ie, Im1, Im0, Id1, Id0. reflexivity.
  - cbn [year_field]. rewrite Ia, Ib, Ic, Ie. cbn [andb obind literal].
    change (Ascii.eqb "-" "-") with true. cbn [obind month_number_field].
    rewrite Im1, Im0, Vm1, Vm0, Em.
    assert ((1 <=? m) && (m <=? 12) = true) as ->
      by (rewrite andb_true_iff, !Z.leb_le; lia).
    cbn [obind literal]. change (Ascii.eqb "-" "-") with true.
    cbn [obind day_field_last]. rewrite Id1, Id0, Vd1, Vd0, Ed. cbn [andb].
    assert ((1 <=? d) && (d <=? 31) = true) as ->
      by (rewrite andb_true_iff, !Z.leb_le; lia).
    rewrite Va, Vb, Vc, Ve.
    assert (decimal [a; b; c; e] = y) as ->
      by (unfold decimal; cbn [fold_left]; lia).
    cbn [obind]. rewrite Hv. reflexivity.
Qed.

(** From the year 1000 on, [strftime] writes the padded text. *)
Lemma strftime_is_iso (y m d : Z) :
  1000 <= y -> strftime_Y_m_d (y, m, d) = iso_text (y, m, d).
Proof.
  intros H. unfold strftime_Y_m_d, iso_text, year_text.
  destruct (Z.ltb_spec y 10); [lia |]. destruct (Z.ltb_spec y 100); [lia |].
  destruct (Z.ltb_spec y 1000); [lia |]. reflexivity.
Qed.

(** Before the year 1000 the text has fewer than four digits of year: it is
    not of the shape [YYYY-MM-DD], and ['%Y-%m-%d'] does not read it. *)
Lemma strftime_short_year (y m d : Z) :
  y < 1000 ->
  iso_date (strftime_Y_m_d (y, m, d)) = false /\
  strptime_Y_m_d (strftime_Y_m_d (y, m, d)) = Raised ValueError.
Proof.
  intros H. unfold iso_date, strptime_Y_m_d, strftime_Y_m_d, year_text, zero_pad2.
  rewrite list_ascii_of_string_of_list_ascii.
  destruct (Z.ltb_spec y 10); [| destruct (Z.ltb_spec y 100);
                                  [| destruct (Z.ltb_spec y 1000); [| lia]]];
    cbn [app year_field]; (split; [reflexivity |]).
  - change (is_digit "-") with false. rewrite andb_false_r. reflexivity.
  - change (is_digit "-") with false. rewrite andb_false_r. reflexivity.
  - change (is_digit "-") with false. rewrite andb_false_r. reflexivity.
Qed.

(** How the date stored for a valid day reads back. *)
Lemma stored_date_reads (y m d : Z) :
  valid_date y m d = true ->
  iso_date (strftime_Y_m_d (y, m, d)) = (1000 <=? y) /\
  strptime_Y_m_d (strftime_Y_m_d (y, m, d)) =
  if 1000 <=? y then Returned (datetime_of_date y m d) else Raised ValueError.
Proof.
  intros Hv. destruct (Z.leb_spec 1000 y) as [Hy | Hy].
  - rewrite (strftime_is_iso y m d Hy). apply iso_text_round_trip, Hv.
  - apply strftime_short_year, Hy.
Qed.

(** What every record appended to [data] looks like. *)
Lemma row_records_spec (pair : string) (cols : list string) (r : rate_data) :
  In r (row_records pair cols) ->
  currency_pair r = pair /\
  (exists c0 y m d,
     nth_error cols 0 = Some c0 /\
     strptime_b_d_Y (strip c0) = Returned (y, m, d) /\
     valid_date y m d = true /\ date r = strftime_Y_m_d (y, m, d)) /\
  volume_cell cols = Returned (volume r).
Proof.
  unfold row_records.
  destruct (Nat.leb_spec 7 (List.length cols)) as [Hlen | _]; [| intros []].
  name_cells cols Hlen. rewrite parse_row_seven.
  unfold volume_cell, cell. cbn [nth_error bind].
  destruct (String.eqb (strip c0) ""); [intros [] |].
  destruct (strptime_b_d_Y (strip c0)) as [[[y m] d] | e] eqn:Hd;
    cbn [bind]; [| intros []].
  destruct (orb _ _); [intros [] |].
  destruct (py_float (remove_commas c1)); cbn [bind]; [| intros []].
  destruct (py_float (remove_commas c2)); cbn [bind]; [| intros []].
  destruct (py_float (remove_commas c3)); cbn [bind]; [| intros []].
  destruct (py_float (remove_commas c4)); cbn [bind]; [| intros []].
  destruct (py_float (remove_commas c5)); cbn [bind]; [| intros []].
  destruct (if negb (String.eqb (strip c6) "-")
            then py_int (remove_commas c6) else Returned 0) as [v | e];
    cbn [bind]; [| intros []].
  intros [<- | []]. cbn [currency_pair date volume].
  split; [reflexivity |]. split; [| reflexivity].
  exists c0, y, m, d. split; [reflexivity |]. split; [exact Hd |].
  split; [apply (strptime_b_d_Y_valid _ _ _ _ Hd) | reflexivity].
Qed.

(** A record of a row whose date has the shape [YYYY-MM-DD] is read back by
    ['%Y-%m-%d']. *)
Lemma row_record_reads_back (pair : string) (cols : list string) (r : rate_data) :
  In r (row_records pair cols) -> iso_date (date r) = true ->
  exists t, strptime_Y_m_d (date r) = Returned t.
Proof.
  intros Hin Hiso.
  destruct (row_records_spec pair cols r Hin) as (_ & (c0 & y & m & d & _ & _ & Hv & Hd) & _).
  destruct (stored_date_reads y m d Hv) as [Hshape Hread].
  rewrite <- Hd in Hshape, Hread. rewrite Hiso in Hshape.
  rewrite <- Hshape in Hread. eexists. exact Hread.
Qed.

(** The date of a record reads back when it has the shape [YYYY-MM-DD], and
    is refused with [ValueError] when it has not. *)
Lemma row_record_date_cases (pair : string) (cols : list string) (r : rate_data) :
  In r (row_records pair cols) ->
  (iso_date (date r) = true /\ exists t, strptime_Y_m_d (date r) = Returned t) \/
  (iso_date (date r) = false /\ strptime_Y_m_d (date r) = Raised ValueError).
Proof.
  intros Hin.
  destruct (row_records_spec pair cols r Hin) as (_ & (c0 & y & m & d & _ & _ & Hv & Hd) & _).
  destruct (stored_date_reads y m d Hv) as [Hshape Hread].
  rewrite <- Hd in Hshape, Hread.
  destruct (1000 <=? y).
  - left. split; [exact Hshape |]. eexists. exact Hread.
  - right. split; [exact Hshape | exact Hread].
Qed.

Lemma parse_exchange_data_cases (soup_rows : string -> list (list string))
    (html pair : string) :
  parse_exchange_data soup_rows html pair =
  if String.eqb html "" then Returned None
  else match flat_map (row_records pair) (soup_rows html) with
       | [] => Returned None
       | data => Returned (Some data)
       end.
Proof.
  unfold parse_exchange_data. destruct (String.eqb html ""); [reflexivity |].
  destruct (soup_rows html) as [| c rows] eqn:Hs; [reflexivity |].
  rewrite parse_rows_total. cbn [bind app].
  destruct (flat_map _ _); reflexivity.
Qed.

Lemma parse_exchange_data_returns (soup_rows : string -> list (list string))
    (html pair : string) :
  exists res,
    parse_exchange_data soup_rows html pair = Returned res /\
    (forall recs, res = Some recs ->
       recs = flat_map (row_records pair) (soup_rows html) /\ recs <> []).
Proof.
  rewrite parse_exchange_data_cases.
  destruct (String.eqb html "").
  { exists None. split; [reflexivity | discriminate]. }
  destruct (flat_map (row_records pair) (soup_rows html)) as [| r rs].
  { exists None. split; [reflexivity | discriminate]. }
  exists (Some (r :: rs)). split; [reflexivity |].
  intros recs H. inversion H. split; [reflexivity | discriminate].
Qed.

End ParserFacts.

(** ** The statements about the parser *)

(** The volume cell ["null"] is one of the placeholder tokens, yet the row is
    not read as a row of volume 0: [int("null")] raises and the row is
    dropped. *)
Lemma placeholder_volume_rejected :
  ~ placeholder_volume_is_zero "GBPINR=X" (quote_row "null").
Proof.
  intros H. specialize (H "null" eq_refl eq_refl).
  vm_compute in H. discriminate H.
Qed.

(** C5 (as the code has it).  A row of at least seven cells, all of them
    ASCII text, is dropped, and the rows around it are still read, when one
    of the five prices is blank, a placeholder or not a number, when its
    date does not parse, or when its volume is neither ["-"] nor an integer;
    a volume of ["-"] is read as 0; the placeholders ["null"], ["None"] and
    the blank volume drop the row; the parse never raises. *)
Theorem row_filtering (soup_rows : string -> list (list string))
    (pair : string) (pre post : list (list string)) (cols : list string)
    (data : list rate_data) :
  (7 <= List.length cols)%nat ->
  Forall (fun t => ascii_text t = true) cols ->
  (rejected_price cols \/ rejected_date cols \/ rejected_volume cols ->
   parse_rows pair (pre ++ cols :: post) data = parse_rows pair (pre ++ post) data)
  /\ (forall t, nth_error cols 6 = Some t -> strip t = "-" ->
      parse_row pair cols = parse_row pair (set_cell 6 "0" cols))
  /\ (forall t, nth_error cols 6 = Some t -> placeholder t = true -> t <> "-" ->
      parse_rows pair (pre ++ cols :: post) data = parse_rows pair (pre ++ post) data)
  /\ (exists result, parse_rows pair (pre ++ cols :: post) data = Returned result)
  /\ (forall html, exists result,
        parse_exchange_data soup_rows html pair = Returned result).
Proof.
  intros Hlen _. repeat split.
  - intros [H | [H | H]]; apply parse_rows_skip;
      eauto using rejected_price_skipped, rejected_date_skipped,
                  rejected_volume_skipped.
  - intros t Ht Hdash. exact (volume_dash_is_zero pair cols t Ht Hdash).
  - intros t Ht Hph Hne. apply parse_rows_skip, rejected_volume_skipped; [exact Hlen |].
    exists t. split; [exact Ht |]. split; [| exact (placeholder_not_int t Hph Hne)].
    revert Hph Hne. unfold placeholder. cbn [existsb]. intros Hph Hne.
    repeat match type of Hph with
      | orb (String.eqb ?a ?b) _ = true =>
          destruct (String.eqb_spec a b) as [Heq |]; cbn [orb] in Hph;
          [rewrite Heq in *; clear Heq |]
      end; first [congruence | vm_compute; congruence].
  - rewrite parse_rows_total. eexists; reflexivity.
  - intros html. rewrite parse_exchange_data_cases.
    destruct (String.eqb html ""); [eexists; reflexivity |].
    destruct (flat_map _ _); eexists; reflexivity.
Qed.

Lemma row_filtering_witness :
  parse_rows "GBPINR=X" ([] ++ no_close_row :: [quote_row "-"]) [] =
  parse_rows "GBPINR=X" ([] ++ [quote_row "-"]) [].
Proof.
  assert (7 <= List.length no_close_row)%nat as Hlen by (cbn; lia).
  assert (Forall (fun t => ascii_text t = true) no_close_row) as Hascii
    by (repeat constructor).
  destruct (row_filtering sample_soup "GBPINR=X" [] [quote_row "-"]
              no_close_row [] Hlen Hascii) as [Hskip _].
  apply Hskip. left. exists 4%nat, "-". repeat split; try lia.
  left. reflexivity.
Defined.

(** Both kinds of content get the same result, [None]. *)
Lemma parse_results_not_distinct :
  ~ distinguishes sample_soup "GBPINR=X" "short" "page".
Proof.
  intros H. apply H.
  - repeat constructor.
  - constructor. cbn. lia.
  - repeat constructor.
  - reflexivity.
Qed.

(** C7 (as the code has it).  The parse returns [None] whenever no row
    yields a record, be it that no row has seven cells or that every such
    row is rejected; the result is the same in both cases. *)
Theorem parse_none_when_no_record (soup_rows : string -> list (list string))
    (html pair : string) :
  (forall cols, In cols (soup_rows html) ->
     (List.length cols < 7)%nat \/
     (forall r, parse_row pair cols <> Returned (Some r))) ->
  parse_exchange_data soup_rows html pair = Returned None.
Proof.
  intros H. rewrite parse_exchange_data_cases.
  destruct (String.eqb html ""); [reflexivity |].
  assert (flat_map (row_records pair) (soup_rows html) = []) as ->; [| reflexivity].
  induction (soup_rows html) as [| cols rows IH]; [reflexivity |].
  cbn [flat_map]. rewrite IH by (intros c Hc; apply H; right; exact Hc).
  rewrite app_nil_r. unfold row_records.
  destruct (H cols (or_introl eq_refl)) as [Hshort | Hrej].
  - destruct (Nat.leb_spec 7 (List.length cols)); [lia | reflexivity].
  - destruct (7 <=? List.length cols)%nat; [| reflexivity].
    destruct (parse_row pair cols) as [[r |] | e]; try reflexivity.
    exfalso. exact (Hrej r eq_refl).
Qed.

Lemma parse_none_when_no_record_witness :
  parse_exchange_data sample_soup "short" "GBPINR=X" = Returned None /\
  parse_exchange_data sample_soup "page" "GBPINR=X" = Returned None.
Proof.
  split.
  - apply (parse_none_when_no_record sample_soup "short" "GBPINR=X").
    intros cols [<- | []]. left. cbn. lia.
  - apply (parse_none_when_no_record sample_soup "page" "GBPINR=X").
    intros cols [<- | []]. right. intros r. vm_compute. discriminate.
Defined.

(** The row dated in the year 999 is parsed, and its date is stored as
    [999-01-05]. *)
Lemma short_year_date_not_iso :
  ~ dates_as_stated (fun _ => [old_row]) "<table/>" "GBPINR=X".
Proof.
  intros H. specialize (H _ eq_refl). inversion H as [| x l Hx _]. discriminate Hx.
Qed.

(** C10 (as the code has it).  The parse never returns an empty list: it
    returns [None], or a list with at least one record in which every record
    carries the pair given, the date that [strftime('%Y-%m-%d')] writes for
    the day named by the date cell of a row, and the integer read from the
    volume cell of that row; the date has the shape YYYY-MM-DD exactly when
    the year is 1000 or later; the result is truthy exactly when it is not
    [None]. *)
Theorem parse_result_shape (soup_rows : string -> list (list string))
    (html pair : string) :
  exists result,
    parse_exchange_data soup_rows html pair = Returned result /\
    (result = None \/
     exists r rs, result = Some (r :: rs) /\
       Forall (fun x =>
                 currency_pair x = pair /\
                 exists cols c0 ymd,
                   In cols (soup_rows html) /\
                   nth_error cols 0 = Some c0 /\
                   strptime_b_d_Y (strip c0) = Returned ymd /\
                   date x = strftime_Y_m_d ymd /\
                   iso_date (date x) = (1000 <=? fst (fst ymd)) /\
                   volume_cell cols = Returned (volume x)) (r :: rs)) /\
    (truthy_list result = true <-> result <> None).
Proof.
  rewrite parse_exchange_data_cases.
  destruct (String.eqb html "").
  { exists None. split; [reflexivity |]. split; [left; reflexivity |].
    split; [discriminate | congruence]. }
  destruct (flat_map (row_records pair) (soup_rows html)) as [| r rs] eqn:Hrec.
  { exists None. split; [reflexivity |]. split; [left; reflexivity |].
    split; [discriminate | congruence]. }
  exists (Some (r :: rs)). split; [reflexivity |]. split.
  - right. exists r, rs. split; [reflexivity |].
    rewrite <- Hrec. apply Forall_forall. intros x Hx.
    apply in_flat_map in Hx. destruct Hx as (cols & Hcols & Hx).
    destruct (row_records_spec pair cols x Hx)
      as (Hp & (c0 & y & m & d & Hc0 & Hd & Hvalid & Hdate) & Hv).
    split; [exact Hp |]. exists cols, c0, (y, m, d). cbn [fst snd].
    repeat split; try assumption.
    rewrite Hdate. apply (stored_date_reads y m d Hvalid).
  - split; [discriminate | reflexivity].
Qed.

(* ===================================================================== *)
(** * Properties of the store                                             *)
(* ===================================================================== *)

Section StoreFacts.

Lemma same_key_iff (d : rate_data) (r : row) :
  same_key d r = true <-> row_key r = key_of d.
Proof.
  unfold same_key, row_key, key_of. rewrite andb_true_iff, !String.eqb_eq.
  split; [intros [-> ->]; reflexivity | intros H; inversion H; auto].
Qed.

Lemma same_key_by_key (d : rate_data) (r r' : row) :
  row_key r = row_key r' -> same_key d r = same_key d r'.
Proof.
  intros H. unfold same_key, row_key in *. inversion H as [[H1 H2]].
  rewrite H1, H2. reflexivity.
Qed.

Lemma same_key_fresh (d : rate_data) (i c : Z) : same_key d (mkRow i (as_stored d) c) = true.
Proof. apply same_key_iff. reflexivity. Qed.

Lemma overwrite_key (d : rate_data) (r : row) : row_key (overwrite d r) = row_key r.
Proof.
  unfold overwrite. destruct (same_key d r) eqn:H; [| reflexivity].
  apply same_key_iff in H. rewrite H. reflexivity.
Qed.

Lemma overwrite_id (d : rate_data) (r : row) :
  id (overwrite d r) = id r /\ created_at (overwrite d r) = created_at r.
Proof. unfold overwrite. destruct (same_key d r); split; reflexivity. Qed.

Lemma existsb_pointwise {A} (f g : A -> bool) :
  (forall x, f x = g x) -> forall l, existsb f l = existsb g l.
Proof.
  intros H l. induction l as [| x l IH]; [reflexivity |].
  cbn [existsb]. rewrite IH, H. reflexivity.
Qed.

Lemma upsert_present (now : Z) (d : rate_data) (t : table) :
  existsb (same_key d) t = true -> upsert now d t = map (overwrite d) t.
Proof. intros H. unfold upsert. rewrite H. reflexivity. Qed.

Lemma upsert_absent (now : Z) (d : rate_data) (t : table) :
  existsb (same_key d) t = false ->
  upsert now d t = t ++ [mkRow (next_id t) (as_stored d) now].
Proof. intros H. unfold upsert. rewrite H. reflexivity. Qed.

Lemma existsb_same_key_map (d d' : rate_data) (t : table) :
  existsb (same_key d) (map (overwrite d') t) = existsb (same_key d) t.
Proof.
  induction t as [| r t IH]; [reflexivity |].
  cbn [map existsb]. rewrite IH.
  rewrite (same_key_by_key d _ r (overwrite_key d' r)). reflexivity.
Qed.

(** An upsert keeps every key that is stored and stores its own. *)
Lemma upsert_keeps (now : Z) (d d' : rate_data) (t : table) :
  existsb (same_key d) t = true -> existsb (same_key d) (upsert now d' t) = true.
Proof.
  intros H. unfold upsert. destruct (existsb (same_key d') t).
  - rewrite existsb_same_key_map. exact H.
  - rewrite existsb_app, H. reflexivity.
Qed.

Lemma upsert_stores (now : Z) (d : rate_data) (t : table) :
  existsb (same_key d) (upsert now d t) = true.
Proof.
  unfold upsert. destruct (existsb (same_key d) t) eqn:H.
  - rewrite existsb_same_key_map. exact H.
  - rewrite existsb_app. cbn [existsb]. rewrite same_key_fresh.
    rewrite orb_true_r. reflexivity.
Qed.

Lemma upsert_all_keeps (clk : nat -> Z) (rates : list rate_data) :
  forall n t d, existsb (same_key d) t = true ->
  existsb (same_key d) (upsert_all clk n rates t) = true.
Proof.
  induction rates as [| d' rest IH]; intros n t d H; [exact H |].
  cbn [upsert_all]. apply IH, upsert_keeps, H.
Qed.

Lemma upsert_all_stores (clk : nat -> Z) (rates : list rate_data) :
  forall n t d, In d rates ->
  existsb (same_key d) (upsert_all clk n rates t) = true.
Proof.
  induction rates as [| d' rest IH]; intros n t d Hin; [destruct Hin |].
  cbn [upsert_all]. destruct Hin as [-> | Hin].
  - apply upsert_all_keeps, upsert_stores.
  - apply IH, Hin.
Qed.

(** On a table that holds every key of the batch, the batch only
    overwrites, whatever the clock says. *)
Lemma upsert_all_present (clk : nat -> Z) (rates : list rate_data) :
  forall n t, (forall d, In d rates -> existsb (same_key d) t = true) ->
  upsert_all clk n rates t = map (overwrite_all rates) t.
Proof.
  induction rates as [| d rest IH]; intros n t H.
  - cbn. rewrite map_id. reflexivity.
  - cbn [upsert_all]. rewrite upsert_present by (apply H; left; reflexivity).
    rewrite IH.
    + rewrite map_map. reflexivity.
    + intros d' Hd'. rewrite existsb_same_key_map. apply H. right. exact Hd'.
Qed.

(** When the batch has a record for the key of a row, what the row held
    before does not matter. *)
Lemma overwrite_all_match (rates : list rate_data) :
  forall r r', id r = id r' -> created_at r = created_at r' ->
  row_key r = row_key r' ->
  (exists d, In d rates /\ same_key d r = true) ->
  overwrite_all rates r = overwrite_all rates r'.
Proof.
  induction rates as [| d rest IH]; intros r r' Hid Hc Hk (d0 & Hin & Hm).
  { destruct Hin. }
  unfold overwrite_all in *. cbn [fold_left]. unfold overwrite at 2 4.
  rewrite <- (same_key_by_key d r r' Hk).
  destruct (same_key d r) eqn:Hd.
  - rewrite Hid, Hc. reflexivity.
  - apply IH; try assumption. exists d0. split; [| exact Hm].
    destruct Hin as [-> | Hin]; [congruence | exact Hin].
Qed.

Lemma upsert_fields (now : Z) (d : rate_data) (t : table) (r : row) :
  In r (upsert now d t) -> same_key d r = true -> fields r = as_stored d.
Proof.
  unfold upsert. destruct (existsb (same_key d) t) eqn:E.
  - intros Hin Hk. apply in_map_iff in Hin. destruct Hin as (r0 & <- & _).
    unfold overwrite in *. destruct (same_key d r0) eqn:H0; [reflexivity |].
    congruence.
  - intros Hin Hk. apply in_app_or in Hin. destruct Hin as [Hin | [<- | []]].
    + assert (existsb (same_key d) t = true) as Hex
        by (apply existsb_exists; exists r; auto).
      congruence.
    + reflexivity.
Qed.

(** A row whose key the upsert does not name was there before. *)
Lemma upsert_other (now : Z) (d : rate_data) (t : table) (r : row) :
  In r (upsert now d t) -> same_key d r = false -> In r t.
Proof.
  unfold upsert. destruct (existsb (same_key d) t).
  - intros Hin Hk. apply in_map_iff in Hin. destruct Hin as (r0 & <- & Hr0).
    unfold overwrite in *. destruct (same_key d r0) eqn:H0; [| exact Hr0].
    rewrite same_key_fresh in Hk. discriminate.
  - intros Hin Hk. apply in_app_or in Hin. destruct Hin as [Hin | [<- | []]].
    + exact Hin.
    + rewrite same_key_fresh in Hk. discriminate.
Qed.

Lemma upsert_all_other (clk : nat -> Z) (rates : list rate_data) (r : row) :
  forall n t, In r (upsert_all clk n rates t) ->
  (forall d, In d rates -> same_key d r = false) -> In r t.
Proof.
  induction rates as [| d rest IH]; intros n t Hin H; [exact Hin |].
  cbn [upsert_all] in Hin. apply IH in Hin.
  - apply (upsert_other _ _ _ _ Hin). apply H. left. reflexivity.
  - intros d' Hd'. apply H. right. exact Hd'.
Qed.

Lemma some_or_none_match (rates : list rate_data) (r : row) :
  (exists d, In d rates /\ same_key d r = true) \/
  (forall d, In d rates -> same_key d r = false).
Proof.
  induction rates as [| d rest [(d0 & Hin & Hm) | Hno]].
  - right. intros d [].
  - left. exists d0. split; [right; exact Hin | exact Hm].
  - destruct (same_key d r) eqn:Hd.
    + left. exists d. split; [left; reflexivity | exact Hd].
    + right. intros d' [<- | Hd']; [exact Hd | apply Hno, Hd'].
Qed.

(** After a batch, every stored row already holds what the batch would
    write into it: the last record of the batch for its key. *)
Lemma upsert_all_settled (clk : nat -> Z) (rates : list rate_data) :
  forall n t r, In r (upsert_all clk n rates t) -> overwrite_all rates r = r.
Proof.
  induction rates as [| d rest IH]; intros n t r Hin; [reflexivity |].
  cbn [upsert_all] in Hin. pose proof (IH _ _ _ Hin) as Hrest.
  change (overwrite_all (d :: rest) r) with (overwrite_all rest (overwrite d r)).
  unfold overwrite. destruct (same_key d r) eqn:Hd; [| exact Hrest].
  destruct (some_or_none_match rest r) as [Hsome | Hnone].
  - transitivity (overwrite_all rest r); [| exact Hrest].
    apply overwrite_all_match; try reflexivity.
    + unfold row_key. cbn [fields]. apply same_key_iff in Hd. symmetry. exact Hd.
    + destruct Hsome as (d0 & Hin0 & Hm). exists d0. split; [exact Hin0 |].
      rewrite <- Hm. apply same_key_by_key. unfold row_key. cbn [fields].
      apply same_key_iff in Hd. symmetry. exact Hd.
  - apply (upsert_all_other _ _ _ _ _ Hin) in Hnone.
    rewrite <- (upsert_fields _ _ _ _ Hnone Hd).
    replace (mkRow (id r) (fields r) (created_at r)) with r by (destruct r; reflexivity).
    exact Hrest.
Qed.

(** A second run of the same batch changes nothing, whatever the clock. *)
Lemma upsert_all_twice (clk clk' : nat -> Z) (n n' : nat)
    (rates : list rate_data) (t : table) :
  upsert_all clk' n' rates (upsert_all clk n rates t) = upsert_all clk n rates t.
Proof.
  rewrite upsert_all_present by (intros d Hd; apply upsert_all_stores, Hd).
  rewrite <- (map_id (upsert_all clk n rates t)) at 2.
  apply map_ext_in. intros r Hr. exact (upsert_all_settled _ _ _ _ _ Hr).
Qed.

Lemma upsert_nodup (now : Z) (d : rate_data) (t : table) :
  NoDup (map row_key t) -> NoDup (map row_key (upsert now d t)).
Proof.
  intros H. unfold upsert. destruct (existsb (same_key d) t) eqn:E.
  - rewrite map_map. erewrite map_ext; [exact H |]. intros r. apply overwrite_key.
  - rewrite map_app. cbn [map]. apply NoDup_app_remove_l with (l := []).
    cbn [app]. apply Permutation_NoDup with (l := row_key (mkRow (next_id t) (as_stored d) now) :: map row_key t).
    + apply Permutation_cons_append.
    + constructor; [| exact H].
      intros Hin. apply in_map_iff in Hin. destruct Hin as (r & Hk & Hr).
      assert (existsb (same_key d) t = true); [| congruence].
      apply existsb_exists. exists r. split; [exact Hr |].
      apply same_key_iff. rewrite Hk. reflexivity.
Qed.

Lemma upsert_all_nodup (clk : nat -> Z) (rates : list rate_data) :
  forall n t, NoDup (map row_key t) -> NoDup (map row_key (upsert_all clk n rates t)).
Proof.
  induction rates as [| d rest IH]; intros n t H; [exact H |].
  cbn [upsert_all]. apply IH, upsert_nodup, H.
Qed.

Section Saving.

Variable db_fault : nat -> option exn.
Variable utcnow : nat -> Z.

(** The loop of statements: it stops at the first failing statement and
    leaves the committed rows alone. *)
Lemma execute_all_cases (rates : list rate_data) :
  forall pending w,
  match execute_all db_fault utcnow rates pending w with
  | (Returned p, w') =>
      p = upsert_all utcnow (db_ops w) rates pending /\
      db_ops w' = (db_ops w + List.length rates)%nat /\
      (forall i, (i < List.length rates)%nat -> db_fault (db_ops w + i)%nat = None) /\
      db w' = db w /\ same_outside_db w w'
  | (Raised e, w') =>
      (exists i, (i < List.length rates)%nat /\ db_fault (db_ops w + i)%nat = Some e) /\
      db w' = db w /\ same_outside_db w w'
  end.
Proof.
  induction rates as [| d rest IH]; intros pending w.
  - cbn. repeat split; try lia.
  - cbn [execute_all]. unfold mbind, session_execute.
    destruct (db_fault (db_ops w)) as [e |] eqn:Hf.
    + split; [| repeat split]. exists 0%nat. cbn [List.length].
      rewrite Nat.add_0_r. split; [lia | exact Hf].
    + specialize (IH (upsert (utcnow (db_ops w)) d pending) (tick_db w)).
      destruct (execute_all db_fault utcnow rest _ (tick_db w)) as [[p | e] w'].
      * destruct IH as (Hp & Hops & Hnf & Hdb & Hout). cbn [tick_db db_ops db] in *.
        repeat split; try (apply Hout); try assumption.
        -- cbn [List.length]. lia.
        -- intros [| i] Hi; [rewrite Nat.add_0_r; exact Hf |].
           replace (db_ops w + S i)%nat with (S (db_ops w) + i)%nat by lia.
           apply Hnf. cbn [List.length] in Hi. lia.
      * destruct IH as ((i & Hi & Hfi) & Hdb & Hout). cbn [tick_db db_ops db] in *.
        split; [| split; [exact Hdb | exact Hout]].
        exists (S i). cbn [List.length]. split; [lia |].
        replace (db_ops w + S i)%nat with (S (db_ops w) + i)%nat by lia. exact Hfi.
Qed.

(** [save_to_database] either commits the whole batch or leaves the table
    as it was and raises the exception of the first failing operation. *)
Lemma save_cases (rates : list rate_data) (w : world) :
  match save_to_database db_fault utcnow rates w with
  | (Returned _, w') =>
      db w' = upsert_all utcnow (db_ops w) rates (db w) /\
      (rates <> [] -> no_fault db_fault (db_ops w) (List.length rates)) /\
      same_outside_db w w'
  | (Raised e, w') =>
      db w' = db w /\ rates <> [] /\
      (exists i, (i <= List.length rates)%nat /\ db_fault (db_ops w + i)%nat = Some e) /\
      same_outside_db w w'
  end.
Proof.
  destruct rates as [| d rest].
  { cbn. repeat split. intros H; contradiction. }
  unfold save_to_database, try_except, mbind, raise.
  pose proof (execute_all_cases (d :: rest) (db w) w) as H.
  destruct (execute_all db_fault utcnow (d :: rest) (db w) w) as [[p | e] w1].
  - destruct H as (Hp & Hops & Hnf & Hdb & Hout). unfold session_commit.
    destruct (db_fault (db_ops w1)) as [e |] eqn:Hc.
    + cbn [tick_db db]. split; [exact Hdb |]. split; [discriminate |].
      split; [| exact Hout].
      exists (List.length (d :: rest)). split; [lia |]. rewrite <- Hops. exact Hc.
    + cbn [with_db tick_db db]. split; [exact Hp |]. split; [| exact Hout].
      intros _ i Hi. destruct (Nat.eq_dec i (List.length (d :: rest))) as [-> | Hne].
      * rewrite <- Hops. exact Hc.
      * apply Hnf. lia.
  - destruct H as ((i & Hi & Hfi) & Hdb & Hout).
    split; [exact Hdb |]. split; [discriminate |]. split; [| exact Hout].
    exists i. split; [lia | exact Hfi].
Qed.

Lemma save_returns (rates : list rate_data) (w : world) :
  no_fault db_fault (db_ops w) (List.length rates) ->
  exists w', save_to_database db_fault utcnow rates w = (Returned tt, w').
Proof.
  intros Hnf. pose proof (save_cases rates w) as H.
  destruct (save_to_database db_fault utcnow rates w) as [[[] | e] w'].
  - exists w'. reflexivity.
  - destruct H as (_ & _ & (i & Hi & Hfi) & _). rewrite (Hnf i Hi) in Hfi. discriminate.
Qed.

Lemma save_raises (rates : list rate_data) (w : world) :
  rates <> [] ->
  (exists i, (i <= List.length rates)%nat /\ db_fault (db_ops w + i)%nat <> None) ->
  exists e w', save_to_database db_fault utcnow rates w = (Raised e, w').
Proof.
  intros Hne (i & Hi & Hfi). pose proof (save_cases rates w) as H.
  destruct (save_to_database db_fault utcnow rates w) as [[[] | e] w'].
  - destruct H as (_ & Hnf & _). exfalso. apply Hfi. apply (Hnf Hne). exact Hi.
  - exists e, w'. reflexivity.
Qed.

End Saving.

End StoreFacts.

(* ===================================================================== *)
(** * Properties of the fetch client and of its cache                     *)
(* ===================================================================== *)

Section FetchFacts.

Variable net : nat -> string -> Z -> Z -> http_outcome.

(** The three attempts written out. *)
Lemma fetch_three_attempts (quote : string) (f t : Z) (w : world) :
  _fetch_data_with_retry net quote f t 3 w =
  let w1 := mkWorld (S (requests w)) (slept w) (cache w) (db w) (db_ops w) (scrapers w) in
  match net (requests w) quote f t with
  | Response s0 x0 =>
      if s0 =? 200 then (Returned (Some x0), w1)
      else
        let w2 := mkWorld (S (S (requests w))) (slept w) (cache w) (db w) (db_ops w) (scrapers w) in
        match net (S (requests w)) quote f t with
        | Response s1 x1 =>
            if s1 =? 200 then (Returned (Some x1), w2)
            else
              let w3 := mkWorld (S (S (S (requests w)))) (slept w) (cache w) (db w) (db_ops w) (scrapers w) in
              match net (S (S (requests w))) quote f t with
              | Response s2 x2 =>
                  if s2 =? 200 then (Returned (Some x2), w3) else (Returned None, w3)
              | Failed e2 => (Raised e2, w3)
              end
        | Failed e1 =>
            let w3 := mkWorld (S (S (S (requests w)))) (slept w ++ [2]) (cache w) (db w) (db_ops w) (scrapers w) in
            match net (S (S (requests w))) quote f t with
            | Response s2 x2 =>
                if s2 =? 200 then (Returned (Some x2), w3) else (Returned None, w3)
            | Failed e2 => (Raised e2, w3)
            end
        end
  | Failed e0 =>
      let w2 := mkWorld (S (S (requests w))) (slept w ++ [1]) (cache w) (db w) (db_ops w) (scrapers w) in
      match net (S (requests w)) quote f t with
      | Response s1 x1 =>
          if s1 =? 200 then (Returned (Some x1), w2)
          else
            let w3 := mkWorld (S (S (S (requests w)))) (slept w ++ [1]) (cache w) (db w) (db_ops w) (scrapers w) in
            match net (S (S (requests w))) quote f t with
            | Response s2 x2 =>
                if s2 =? 200 then (Returned (Some x2), w3) else (Returned None, w3)
            | Failed e2 => (Raised e2, w3)
            end
      | Failed e1 =>
          let w3 := mkWorld (S (S (S (requests w)))) ((slept w ++ [1]) ++ [2]) (cache w) (db w) (db_ops w) (scrapers w) in
          match net (S (S (requests w))) quote f t with
          | Response s2 x2 =>
              if s2 =? 200 then (Returned (Some x2), w3) else (Returned None, w3)
          | Failed e2 => (Raised e2, w3)
          end
      end
  end.
Proof.
  unfold _fetch_data_with_retry. cbn [seq retry_loop].
  unfold requests_get, mbind, sleep, ret.
  cbn [requests slept cache db db_ops scrapers Nat.sub Nat.eqb Z.of_nat].
  destruct (net (requests w) quote f t) as [s0 x0 | e0];
    [destruct (s0 =? 200); [reflexivity |] |];
    (destruct (net (S (requests w)) quote f t) as [s1 x1 | e1];
     [destruct (s1 =? 200); [reflexivity |] |]);
    (destruct (net (S (S (requests w))) quote f t) as [s2 x2 | e2];
     [destruct (s2 =? 200); reflexivity | reflexivity]).
Qed.

Lemma fetch_chunk_body_eq (quote : string) (f t : Z) (w : world) :
  fetch_chunk_body net quote f t w =
  match _fetch_data_with_retry net quote f t 3 w with
  | (Returned v, w1) => (Returned v, w1)
  | (Raised _, w1) => (Returned None, w1)
  end.
Proof. reflexivity. Qed.

Ltac outcome_cases w quote f t :=
  let H0 := fresh "H0" in let H1 := fresh "H1" in let H2 := fresh "H2" in
  destruct (net (requests w) quote f t) as [?s ?x | ?e] eqn:H0;
  [match goal with |- context [?s =? 200] => destruct (Z.eqb_spec s 200) end |];
  try (destruct (net (S (requests w)) quote f t) as [?s ?x | ?e] eqn:H1;
       [match goal with |- context [?s =? 200] => destruct (Z.eqb_spec s 200) end |]);
  try (destruct (net (S (S (requests w))) quote f t) as [?s ?x | ?e] eqn:H2;
       [match goal with |- context [?s =? 200] => destruct (Z.eqb_spec s 200) end |]).

Ltac failure_facts :=
  repeat match goal with
    | H : is_failure (Response ?s _) = true |- _ =>
        cbn [is_failure] in H;
        destruct (Z.eqb_spec s 200); cbn [negb] in H; [discriminate H |]
    | H : is_failure (Failed _) = true |- _ => clear H
    end.

(** C2 (as the code has it).  A fetch makes between one and three attempts
    and goes on to the next attempt after a transport failure as well as
    after a status other than 200; a transport failure in attempt [i] that
    is not the last is followed by a wait of [2 ^ i] seconds; two transport
    failures and then a page give that page after waits of 1 and 2 seconds;
    the first attempt answered by 200 gives its text; when all three fail,
    [_fetch_data_with_retry] raises the last transport exception or, after
    a last bad status, returns [None], and the function under the cache
    returns [None] in both cases, so that no error leaves [_fetch_chunk]. *)
Theorem fetch_retry_backoff (quote : string) (f t : Z) (w : world) :
  let o := fun i => net (requests w + i)%nat quote f t in
  let r := fst (_fetch_data_with_retry net quote f t 3 w) in
  let w' := snd (_fetch_data_with_retry net quote f t 3 w) in
  exists new,
    slept w' = slept w ++ new /\
    (requests w + 1 <= requests w' <= requests w + 3)%nat /\
    (is_failure (o 0%nat) = true -> (requests w + 2 <= requests w')%nat) /\
    (is_failure (o 0%nat) = true -> is_failure (o 1%nat) = true ->
     requests w' = (requests w + 3)%nat) /\
    (forall e, o 0%nat = Failed e -> In (2 ^ 0) new) /\
    (forall e, is_failure (o 0%nat) = true -> o 1%nat = Failed e -> In (2 ^ 1) new) /\
    (forall e0 e1 text,
       o 0%nat = Failed e0 -> o 1%nat = Failed e1 -> o 2%nat = Response 200 text ->
       r = Returned (Some text) /\ new = [1; 2]) /\
    (forall i text, (i < 3)%nat ->
       (forall j, (j < i)%nat -> is_failure (o j) = true) ->
       o i = Response 200 text -> r = Returned (Some text)) /\
    (is_failure (o 0%nat) = true -> is_failure (o 1%nat) = true ->
     is_failure (o 2%nat) = true ->
     (forall e, o 2%nat = Failed e -> r = Raised e) /\
     (forall s x, o 2%nat = Response s x -> r = Returned None) /\
     fst (fetch_chunk_body net quote f t w) = Returned None).
Proof.
  intros o r w'. subst o r w'. cbv beta.
  rewrite fetch_chunk_body_eq, fetch_three_attempts.
  replace (requests w + 0)%nat with (requests w) by lia.
  replace (requests w + 1)%nat with (S (requests w)) by lia.
  replace (requests w + 2)%nat with (S (S (requests w))) by lia.
  cbv zeta.
  outcome_cases w quote f t; cbn [fst snd slept requests].
  all: match goal with
       | |- exists new, ?l = ?l ++ new /\ _ => exists []
       | |- exists new, ?l ++ ?a = ?l ++ new /\ _ => exists a
       | |- exists new, (?l ++ ?a) ++ ?b = ?l ++ new /\ _ => exists (a ++ b)
       end.
  all: split; [rewrite ?app_nil_r, ?app_assoc; reflexivity |].
  all: repeat split; intros; failure_facts; try lia; try congruence;
       try (cbn; tauto).
  all: idtac.
  all: try match goal with
       | Hi : (?i < 3)%nat |- _ =>
           destruct i as [| [| [| ?]]]; [| | | lia]
       end.
  all: try (replace (requests w + 0)%nat with (requests w) in * by lia).
  all: try (replace (requests w + 1)%nat with (S (requests w)) in * by lia).
  all: try (replace (requests w + 2)%nat with (S (S (requests w))) in * by lia).
  all: try congruence.
  all: match goal with
       | Hj : forall j, (j < _)%nat -> is_failure _ = true |- _ =>
           pose proof (Hj 0%nat ltac:(lia)) as Hj0;
           try pose proof (Hj 1%nat ltac:(lia)) as Hj1
       end.
  all: replace (requests w + 0)%nat with (requests w) in * by lia.
  all: try (replace (requests w + 1)%nat with (S (requests w)) in * by lia).
  all: repeat match goal with
       | Hn : net ?n ?q ?a ?b = _, Hf : is_failure (net ?n ?q ?a ?b) = true |- _ =>
           rewrite Hn in Hf
       end; failure_facts; congruence.
Qed.

(** ** The cache of [_fetch_chunk] *)

Lemma cache_key_eqb_eq (a b : cache_key) : cache_key_eqb a b = true <-> a = b.
Proof.
  destruct a as [[[s1 q1] f1] t1], b as [[[s2 q2] f2] t2]. unfold cache_key_eqb.
  rewrite !andb_true_iff, Nat.eqb_eq, String.eqb_eq, !Z.eqb_eq.
  split; [intros [[[-> ->] ->] ->]; reflexivity | intros H; inversion H; auto].
Qed.

Lemma cache_key_eqb_refl (k : cache_key) : cache_key_eqb k k = true.
Proof. apply cache_key_eqb_eq. reflexivity. Qed.

Lemma cache_remove_absent (k : cache_key) (c : list (cache_key * option string)) :
  cache_find k c = None -> cache_remove k c = c.
Proof.
  induction c as [| [k' v] c IH]; [reflexivity |].
  cbn [cache_find cache_remove filter fst].
  destruct (cache_key_eqb k k'); [discriminate |].
  intros H. cbn [negb]. f_equal. apply IH, H.
Qed.

Lemma cache_remove_length (k : cache_key) (c : list (cache_key * option string)) :
  (List.length (cache_remove k c) <= List.length c)%nat.
Proof. apply filter_length_le. Qed.

Lemma cache_remove_hit_length (k : cache_key) (c : list (cache_key * option string))
    (v : option string) :
  cache_find k c = Some v -> (S (List.length (cache_remove k c)) <= List.length c)%nat.
Proof.
  induction c as [| [k' v'] c IH]; [discriminate |].
  cbn [cache_find cache_remove filter fst List.length].
  destruct (cache_key_eqb k k'); cbn [negb].
  - intros _. pose proof (cache_remove_length k c). unfold cache_remove in *. lia.
  - intros H. cbn [List.length]. apply IH in H. unfold cache_remove in *. lia.
Qed.

(** The function under the cache never raises and touches only the request
    count and the sleep log. *)
Lemma fetch_chunk_body_frame (quote : string) (f t : Z) (w : world) :
  exists v w1,
    fetch_chunk_body net quote f t w = (Returned v, w1) /\
    cache w1 = cache w /\ db w1 = db w /\ db_ops w1 = db_ops w /\
    scrapers w1 = scrapers w /\ (requests w <= requests w1)%nat.
Proof.
  rewrite fetch_chunk_body_eq, fetch_three_attempts. cbv zeta.
  outcome_cases w quote f t;
    eexists; eexists; (split; [reflexivity |]); cbn; repeat split; lia.
Qed.

Lemma fetch_chunk_hit (self : nat) (quote : string) (f t : Z) (w : world)
    (v : option string) :
  cache_find (self, quote, f, t) (cache w) = Some v ->
  _fetch_chunk net self quote f t w =
  (Returned v,
   with_cache ((self, quote, f, t, v) :: cache_remove (self, quote, f, t) (cache w)) w).
Proof. intros H. unfold _fetch_chunk. rewrite H. reflexivity. Qed.

Lemma fetch_chunk_miss (self : nat) (quote : string) (f t : Z) (w : world) :
  cache_find (self, quote, f, t) (cache w) = None ->
  exists v w1,
    fetch_chunk_body net quote f t w = (Returned v, w1) /\
    cache w1 = cache w /\ db w1 = db w /\ db_ops w1 = db_ops w /\
    scrapers w1 = scrapers w /\ (requests w <= requests w1)%nat /\
    _fetch_chunk net self quote f t w =
    (Returned v, with_cache (firstn maxsize ((self, quote, f, t, v) :: cache w)) w1).
Proof.
  intros H. destruct (fetch_chunk_body_frame quote f t w)
    as (v & w1 & Hb & Hc & Hd & Ho & Hs & Hr).
  exists v, w1. repeat split; try assumption.
  unfold _fetch_chunk. rewrite H, Hb, Hc, (cache_remove_absent _ _ H). reflexivity.
Qed.

Lemma fetch_chunk_body_all_fail (quote : string) (f t : Z) (w : world) :
  (forall i, (i < 3)%nat -> is_failure (net (requests w + i)%nat quote f t) = true) ->
  fst (fetch_chunk_body net quote f t w) = Returned None /\
  requests (snd (fetch_chunk_body net quote f t w)) = (requests w + 3)%nat.
Proof.
  intros H.
  pose proof (H 0%nat ltac:(lia)) as F0. pose proof (H 1%nat ltac:(lia)) as F1.
  pose proof (H 2%nat ltac:(lia)) as F2.
  replace (requests w + 0)%nat with (requests w) in F0 by lia.
  replace (requests w + 1)%nat with (S (requests w)) in F1 by lia.
  replace (requests w + 2)%nat with (S (S (requests w))) in F2 by lia.
  rewrite fetch_chunk_body_eq, fetch_three_attempts. cbv zeta.
  outcome_cases w quote f t; cbn [fst snd requests];
    repeat match goal with
      | Hn : net ?n ?q ?a ?b = _, Hf : is_failure (net ?n ?q ?a ?b) = true |- _ =>
          rewrite Hn in Hf
      end; failure_facts; try congruence; split; try reflexivity; lia.
Qed.

(** C8 (as the code has it).  The cache of [_fetch_chunk] is keyed by
    instance, pair and window bounds, never holds more than 32 entries and
    drops the least recently used one; a hit asks nothing of the source and
    moves the entry to the front; a miss stores whatever the call returned,
    the [None] of a failed fetch included, so that the next call for the
    same key returns that value again without any request. *)
Theorem fetch_cache_behaviour (self : nat) (quote : string) (f t : Z) (w : world) :
  let k := (self, quote, f, t) in
  exists v w',
    _fetch_chunk net self quote f t w = (Returned v, w') /\
    ((List.length (cache w) <= maxsize)%nat ->
     (List.length (cache w') <= maxsize)%nat) /\
    (forall v0, cache_find k (cache w) = Some v0 ->
       v = v0 /\ requests w' = requests w /\
       cache w' = (k, v) :: cache_remove k (cache w)) /\
    (cache_find k (cache w) = None ->
       fst (fetch_chunk_body net quote f t w) = Returned v /\
       cache w' = firstn maxsize ((k, v) :: cache w)) /\
    (cache_find k (cache w) = None ->
     (forall i, (i < 3)%nat ->
        is_failure (net (requests w + i)%nat quote f t) = true) ->
     v = None /\ requests w' = (requests w + 3)%nat) /\
    cache_find k (cache w') = Some v /\
    (exists w'', _fetch_chunk net self quote f t w' = (Returned v, w'') /\
                 requests w'' = requests w').
Proof.
  intros k. subst k.
  destruct (cache_find (self, quote, f, t) (cache w)) as [v0 |] eqn:Hfind.
  - rewrite (fetch_chunk_hit _ _ _ _ _ _ Hfind).
    eexists; eexists; split; [reflexivity |]. cbn [with_cache cache requests].
    assert (cache_find (self, quote, f, t)
              ((self, quote, f, t, v0) :: cache_remove (self, quote, f, t) (cache w))
            = Some v0) as Hfront
      by (cbn [cache_find]; rewrite cache_key_eqb_refl; reflexivity).
    repeat split; try discriminate; try exact Hfront.
    + intros Hcap. cbn [List.length].
      pose proof (cache_remove_hit_length _ _ _ Hfind). lia.
    + inversion H; reflexivity.
    + eexists. split; [apply fetch_chunk_hit; exact Hfront | reflexivity].
  - destruct (fetch_chunk_miss self quote f t w Hfind)
      as (v & w1 & Hb & Hc & Hd & Ho & Hs & Hr & Hcall).
    rewrite Hcall. exists v. eexists. split; [reflexivity |].
    cbn [with_cache cache requests].
    assert (cache_find (self, quote, f, t)
              (firstn maxsize ((self, quote, f, t, v) :: cache w)) = Some v) as Hfront
      by (cbn [maxsize firstn cache_find]; rewrite cache_key_eqb_refl; reflexivity).
    repeat split; try discriminate; try exact Hfront.
    + intros _. rewrite length_firstn. lia.
    + rewrite Hb. reflexivity.
    + destruct (fetch_chunk_body_all_fail quote f t w H0) as [Hnone _].
      rewrite Hb in Hnone. cbn in Hnone. congruence.
    + destruct (fetch_chunk_body_all_fail quote f t w H0) as [_ Hreq].
      rewrite Hb in Hreq. exact Hreq.
    + eexists. split; [apply fetch_chunk_hit; exact Hfront | reflexivity].
Qed.

End FetchFacts.

Lemma fetch_retry_backoff_witness :
  fst (_fetch_data_with_retry (timeouts_then_page 2) "GBPINR=X" 0 7776000 3
         empty_world) = Returned (Some "<table/>") /\
  slept (snd (_fetch_data_with_retry (timeouts_then_page 2) "GBPINR=X" 0 7776000 3
                empty_world)) = [1; 2].
Proof.
  destruct (fetch_retry_backoff (timeouts_then_page 2) "GBPINR=X" 0 7776000
              empty_world)
    as (new & Hslept & _ & _ & _ & _ & _ & Hthird & _).
  destruct (Hthird RequestException RequestException "<table/>"
              eq_refl eq_refl eq_refl) as [Hr Hnew].
  split; [exact Hr |]. rewrite Hslept, Hnew. reflexivity.
Defined.

(** Three answers of status 500: the call returns [None] without having
    waited, and nothing is raised. *)
Lemma no_backoff_no_error_after_bad_status :
  ~ backoff_then_error (flaky_source 3) "GBPINR=X" 0 7776000 empty_world.
Proof.
  intros H. destruct H as [[e He] _].
  - intros [| [| [| i]]] Hi; try reflexivity. lia.
  - vm_compute in He. discriminate He.
Qed.

Lemma fetch_cache_behaviour_witness :
  exists w' w'',
    _fetch_chunk (flaky_source 3) 0 "GBPINR=X" 0 7776000 empty_world =
      (Returned None, w') /\
    requests w' = 3%nat /\
    _fetch_chunk (flaky_source 3) 0 "GBPINR=X" 0 7776000 w' = (Returned None, w'') /\
    requests w'' = 3%nat.
Proof.
  destruct (fetch_cache_behaviour (flaky_source 3) 0 "GBPINR=X" 0 7776000
              empty_world)
    as (v & w' & Hcall & _ & _ & _ & Hfail & _ & (w'' & Hnext & Hreq)).
  destruct Hfail as [Hv Hreq'].
  - reflexivity.
  - intros [| [| [| i]]] Hi; try reflexivity. lia.
  - subst v. exists w', w''. split; [exact Hcall |]. split; [exact Hreq' |].
    split; [exact Hnext |]. rewrite Hreq. exact Hreq'.
Defined.

(** A fetch that failed is remembered: the second call for the same key
    returns the stored [None] and asks the source nothing, although the
    source would answer by then. *)
Lemma failed_fetch_is_cached :
  ~ failure_not_cached (flaky_source 3) 0 "GBPINR=X" 0 7776000 empty_world.
Proof.
  unfold failure_not_cached. vm_compute. intros H.
  exact (Nat.lt_irrefl 3 (H eq_refl)).
Qed.

(* ===================================================================== *)
(** * Properties of the orchestration                                     *)
(* ===================================================================== *)

Section OrchestratorFacts.

Variable soup_rows : string -> list (list string).
Variable net : nat -> string -> Z -> Z -> http_outcome.
Variable db_fault : nat -> option exn.
Variable utcnow : nat -> Z.
Variable completion : list (nat * (Z * Z)) -> list (nat * (Z * Z)).
Variable localtime : Z -> option Z.

Lemma cache_find_remove_other (k k2 : cache_key)
    (c : list (cache_key * option string)) :
  cache_key_eqb k k2 = false -> cache_find k (cache_remove k2 c) = cache_find k c.
Proof.
  intros Hne. induction c as [| [k' v] c IH]; [reflexivity |].
  cbn [cache_remove filter fst cache_find].
  destruct (cache_key_eqb k2 k') eqn:H2; cbn [negb].
  - apply cache_key_eqb_eq in H2. subst k'. rewrite Hne. exact IH.
  - cbn [cache_find]. destruct (cache_key_eqb k k'); [reflexivity | exact IH].
Qed.

Lemma cache_find_firstn (k : cache_key) (n : nat)
    (c : list (cache_key * option string)) :
  cache_find k (firstn n c) = None \/ cache_find k (firstn n c) = cache_find k c.
Proof.
  revert n. induction c as [| [k' v] c IH]; intros [| n]; cbn [firstn cache_find]; auto.
  destruct (cache_key_eqb k k'); [right; reflexivity | apply IH].
Qed.

Lemma always_page_settled (quote : string) (f t : Z) (html : string) :
  (forall n, net n quote f t = Response 200 html) ->
  settled net quote f t (Some html).
Proof.
  intros H w. rewrite fetch_chunk_body_eq, fetch_three_attempts, H. reflexivity.
Qed.

Lemma always_failing_settled (quote : string) (f t : Z) :
  (forall n, is_failure (net n quote f t) = true) ->
  settled net quote f t None.
Proof.
  intros H w. apply fetch_chunk_body_all_fail. intros i _. apply H.
Qed.

(** A call of [_fetch_chunk], for whatever window, leaves the cache in
    agreement with every settled window, and for a settled window it returns
    the settled value. *)
Lemma fetch_chunk_agrees (self : nat) (quote : string) (f t : Z)
    (v : option string) (f2 t2 : Z) (w : world) :
  settled net quote f t v ->
  cache_agrees (self, quote, f, t) v w ->
  cache_agrees (self, quote, f, t) v (snd (_fetch_chunk net self quote f2 t2 w)) /\
  (exists v2, fst (_fetch_chunk net self quote f2 t2 w) = Returned v2 /\
              (f2 = f -> t2 = t -> v2 = v)).
Proof.
  intros Hset Hag. unfold cache_agrees in *.
  destruct (cache_find (self, quote, f2, t2) (cache w)) as [v0 |] eqn:Hfind.
  - rewrite (fetch_chunk_hit _ _ _ _ _ _ _ Hfind). cbn [fst snd with_cache cache].
    destruct (cache_key_eqb (self, quote, f, t) (self, quote, f2, t2)) eqn:Hk.
    + apply cache_key_eqb_eq in Hk. inversion Hk; subst f2 t2.
      rewrite Hfind in Hag. destruct Hag as [Hag | Hag]; [discriminate |].
      inversion Hag; subst v0. split.
      * right. cbn [cache_find]. rewrite cache_key_eqb_refl. reflexivity.
      * exists v. split; reflexivity.
    + split.
      * cbn [cache_find]. rewrite Hk, cache_find_remove_other by exact Hk. exact Hag.
      * exists v0. split; [reflexivity |]. intros -> ->.
        rewrite cache_key_eqb_refl in Hk. discriminate.
  - destruct (fetch_chunk_miss net self quote f2 t2 w Hfind)
      as (v2 & w1 & Hb & Hc & _ & _ & _ & _ & Hcall).
    rewrite Hcall. cbn [fst snd with_cache cache].
    destruct (cache_key_eqb (self, quote, f, t) (self, quote, f2, t2)) eqn:Hk.
    + apply cache_key_eqb_eq in Hk. inversion Hk; subst f2 t2.
      pose proof (Hset w) as Hv. rewrite Hb in Hv. cbn in Hv. inversion Hv; subst v2.
      split.
      * right.
        change (firstn maxsize ((self, quote, f, t, v) :: cache w))
          with ((self, quote, f, t, v) :: firstn 31 (cache w)).
        cbn [cache_find]. rewrite cache_key_eqb_refl. reflexivity.
      * exists v. split; reflexivity.
    + split.
      * change (firstn maxsize ((self, quote, f2, t2, v2) :: cache w))
          with ((self, quote, f2, t2, v2) :: firstn 31 (cache w)).
        cbn [cache_find]. rewrite Hk.
        destruct (cache_find_firstn (self, quote, f, t) 31 (cache w)) as [E | E];
          rewrite E; [left; reflexivity | exact Hag].
      * exists v2. split; [reflexivity |]. intros -> ->.
        rewrite cache_key_eqb_refl in Hk. discriminate.
Qed.

(** What a task does after the fetch changes neither its cache nor, when the
    database does not fail, its result. *)
Lemma task_after_fetch (self : nat) (quote : string) (f t : Z) (i n : nat)
    (w : world) :
  cache (snd (_fetch_and_save_chunk soup_rows net db_fault utcnow
                self quote f t i n w)) =
  cache (snd (_fetch_chunk net self quote f t w)) /\
  ((forall k, db_fault k = None) ->
   fst (_fetch_and_save_chunk soup_rows net db_fault utcnow self quote f t i n w)
   = fst (_fetch_chunk net self quote f t w)).
Proof.
  unfold _fetch_and_save_chunk, mbind, lift, ret.
  destruct (_fetch_chunk net self quote f t w) as [[v | e] w1]; cbn [fst snd];
    [| split; reflexivity].
  destruct (truthy_str v); [| split; reflexivity].
  destruct v as [html |]; [| split; reflexivity].
  destruct (parse_exchange_data_returns soup_rows html quote) as (res & Hres & _).
  rewrite Hres. destruct res as [[| r rs] |]; try (split; reflexivity).
  pose proof (save_cases db_fault utcnow (r :: rs) w1) as Hc.
  destruct (save_to_database db_fault utcnow (r :: rs) w1) as [[u | e] w2];
    cbn [fst snd].
  - destruct Hc as (_ & _ & Hout). split; [apply Hout | reflexivity].
  - destruct Hc as (_ & _ & (k & _ & Hk) & Hout). split; [apply Hout |].
    intros Hnf. rewrite Hnf in Hk. discriminate.
Qed.

Lemma task_settled (self : nat) (quote : string) (f t : Z) (v : option string)
    (i n : nat) (w : world) :
  (forall k, db_fault k = None) ->
  settled net quote f t v ->
  cache_agrees (self, quote, f, t) v w ->
  fst (_fetch_and_save_chunk soup_rows net db_fault utcnow self quote f t i n w)
  = Returned v.
Proof.
  intros Hnf Hset Hag.
  rewrite (proj2 (task_after_fetch self quote f t i n w) Hnf).
  destruct (fetch_chunk_agrees self quote f t v f t w Hset Hag)
    as (_ & v2 & Hv2 & Heq).
  rewrite Hv2, (Heq eq_refl eq_refl). reflexivity.
Qed.

Lemma task_keeps_agreement (self : nat) (quote : string) (f t : Z)
    (v : option string) (f2 t2 : Z) (i n : nat) (w : world) :
  settled net quote f t v ->
  cache_agrees (self, quote, f, t) v w ->
  cache_agrees (self, quote, f, t) v
    (snd (_fetch_and_save_chunk soup_rows net db_fault utcnow
            self quote f2 t2 i n w)).
Proof.
  intros Hset Hag. unfold cache_agrees.
  rewrite (proj1 (task_after_fetch self quote f2 t2 i n w)).
  apply (fetch_chunk_agrees self quote f t v f2 t2 w Hset Hag).
Qed.

Lemma truthy_page (html : string) : html <> "" -> truthy_str (Some html) = true.
Proof.
  intros H. cbn. destruct (String.eqb_spec html ""); [contradiction | reflexivity].
Qed.

(** One turn of the collecting loop for a settled window. *)
Lemma collect_step_settled (self : nat) (quote : string) (total i : nat)
    (f t : Z) (v : option string) (rest : list (nat * (Z * Z)))
    (data : list string) (w : world) :
  (forall k, db_fault k = None) ->
  settled net quote f t v ->
  cache_agrees (self, quote, f, t) v w ->
  collect soup_rows net db_fault utcnow self quote total ((i, (f, t)) :: rest) data w
  = collect soup_rows net db_fault utcnow self quote total rest
      (if truthy_str v
       then match v with Some html => data ++ [html] | None => data end
       else data)
      (snd (_fetch_and_save_chunk soup_rows net db_fault utcnow
              self quote f t (i + 1) total w)).
Proof.
  intros Hnf Hset Hag. cbn [collect].
  pose proof (task_settled self quote f t v (i + 1) total w Hnf Hset Hag) as Hr.
  destruct (_fetch_and_save_chunk soup_rows net db_fault utcnow
              self quote f t (i + 1) total w) as [r w1].
  cbn [fst snd] in *. rewrite Hr. reflexivity.
Qed.

(** A settled window with a page contributes its page wherever it stands in
    the completion order and whatever happens to the other windows. *)
Lemma collect_contains (self : nat) (quote : string) (total : nat) (f t : Z)
    (html : string) :
  (forall k, db_fault k = None) ->
  settled net quote f t (Some html) -> html <> "" ->
  forall done data w,
    cache_agrees (self, quote, f, t) (Some html) w ->
    In html data \/ (exists i, In (i, (f, t)) done) ->
    In html (fst (collect soup_rows net db_fault utcnow self quote total done data w)).
Proof.
  intros Hnf Hset Hne. induction done as [| [i [f2 t2]] rest IH]; intros data w Hag H.
  - cbn. destruct H as [H | [i []]]. exact H.
  - cbn [collect].
    pose proof (task_keeps_agreement self quote f t (Some html) f2 t2 (i + 1) total w
                  Hset Hag) as Hag1.
    destruct (_fetch_and_save_chunk soup_rows net db_fault utcnow
                self quote f2 t2 (i + 1) total w) as [r w1] eqn:Etask.
    cbn [snd] in Hag1.
    assert (forall data', (In html data -> In html data') ->
            ((exists i0, (i0, (f, t)) = (i, (f2, t2))) -> In html data') ->
            In html data' \/ (exists i0, In (i0, (f, t)) rest)) as Hnext.
    { intros data' Hmono Hhead. destruct H as [H | [i0 [Hh | Hr]]].
      - left. apply Hmono, H.
      - left. apply Hhead. exists i0. symmetry. exact Hh.
      - right. exists i0. exact Hr. }
    destruct r as [chunk |].
    + apply IH; [exact Hag1 |]. apply Hnext.
      * intros Hin. destruct (truthy_str chunk); [| exact Hin].
        destruct chunk; [apply in_or_app; left; exact Hin | exact Hin].
      * intros [i0 Heq]. inversion Heq; subst f2 t2.
        pose proof (task_settled self quote f t (Some html) (i + 1) total w
                      Hnf Hset Hag) as Hr.
        rewrite Etask in Hr. cbn in Hr. inversion Hr; subst chunk.
        rewrite (truthy_page html Hne). apply in_or_app. right. left. reflexivity.
    + apply IH; [exact Hag1 |]. apply Hnext; [auto |].
      intros [i0 Heq]. inversion Heq; subst f2 t2.
      pose proof (task_settled self quote f t (Some html) (i + 1) total w
                    Hnf Hset Hag) as Hr.
      rewrite Etask in Hr. cbn in Hr. discriminate Hr.
Qed.

Lemma enumerate_in {A} (l : list A) (x : A) :
  In x l -> exists i, In (i, x) (enumerate l).
Proof.
  unfold enumerate. generalize 0%nat.
  induction l as [| y l IH]; intros n Hin; [destruct Hin |].
  cbn [List.length seq combine]. destruct Hin as [-> | Hin].
  - exists n. left. reflexivity.
  - destruct (IH (S n) Hin) as (i & Hi). exists i. right. exact Hi.
Qed.

(** The pool and the join never raise. *)
Lemma run_chunks_returns (self : nat) (quote : string) (f t : Z) (w : world) :
  exists r w',
    run_chunks soup_rows net db_fault utcnow completion self quote f t w
    = (Returned r, w').
Proof.
  unfold run_chunks.
  destruct (collect _ _ _ _ _ _ _ _ _ _) as [[| x l] w1]; eexists; eexists; reflexivity.
Qed.

(** With both bounds in the range of [datetime], [get_exchange_data] is
    its pool; with one outside, the line logged raises before anything
    else is done. *)
Lemma get_exchange_data_in_range (self : nat) (quote : string) (f t : Z)
    (w : world) :
  in_datetime_range localtime f = true ->
  in_datetime_range localtime t = true ->
  get_exchange_data soup_rows net db_fault utcnow completion localtime
    self quote f t w
  = run_chunks soup_rows net db_fault utcnow completion self quote f t w.
Proof.
  unfold in_datetime_range, get_exchange_data, mbind, lift. intros Hf Ht.
  destruct (fromtimestamp localtime f); [| discriminate].
  destruct (fromtimestamp localtime t); [| discriminate].
  reflexivity.
Qed.

Lemma get_exchange_data_out_of_range (self : nat) (quote : string) (f t : Z)
    (w : world) :
  in_datetime_range localtime f && in_datetime_range localtime t = false ->
  exists e,
    get_exchange_data soup_rows net db_fault utcnow completion localtime
      self quote f t w = (Raised e, w) /\
    (fromtimestamp localtime f = Raised e \/
     fromtimestamp localtime t = Raised e).
Proof.
  unfold in_datetime_range, get_exchange_data, mbind, lift. intros H.
  destruct (fromtimestamp localtime f) as [a | e].
  - destruct (fromtimestamp localtime t) as [b | e]; [discriminate |].
    exists e. split; [reflexivity | right; reflexivity].
  - exists e. split; [reflexivity | left; reflexivity].
Qed.

(** The call returns or raises; it raises only with the exception of
    [fromtimestamp], and then nothing has been done. *)
Lemma get_exchange_data_cases (self : nat) (quote : string) (f t : Z)
    (w : world) :
  (in_datetime_range localtime f = true /\
   in_datetime_range localtime t = true /\
   exists r w',
     get_exchange_data soup_rows net db_fault utcnow completion localtime
       self quote f t w = (Returned r, w') /\
     run_chunks soup_rows net db_fault utcnow completion self quote f t w
     = (Returned r, w')) \/
  (in_datetime_range localtime f && in_datetime_range localtime t = false /\
   exists e,
     get_exchange_data soup_rows net db_fault utcnow completion localtime
       self quote f t w = (Raised e, w) /\
     (fromtimestamp localtime f = Raised e \/
      fromtimestamp localtime t = Raised e)).
Proof.
  destruct (in_datetime_range localtime f) eqn:Hf;
    [destruct (in_datetime_range localtime t) eqn:Ht |].
  - left. split; [reflexivity |]. split; [reflexivity |].
    destruct (run_chunks_returns self quote f t w) as (r & w' & H).
    exists r, w'. split; [| exact H].
    rewrite get_exchange_data_in_range by assumption. exact H.
  - right. split; [reflexivity |].
    apply get_exchange_data_out_of_range. rewrite Hf, Ht. reflexivity.
  - right. split; [reflexivity |].
    apply get_exchange_data_out_of_range. rewrite Hf. reflexivity.
Qed.

(** A range of 104 days is cut into two windows. *)
Lemma plan_104_days (f : Z) :
  Planner.plan f (f + 104 * 86400) =
  [(f, f + 7776000); (f + 7776001, f + 104 * 86400)].
Proof.
  unfold Planner.plan.
  rewrite chunk_loop_lt by lia.
  replace (Z.min (f + Planner.three_months) (f + 104 * 86400)) with (f + 7776000)
    by (unfold Planner.three_months; lia).
  rewrite chunk_loop_lt by lia.
  replace (Z.min (f + 7776000 + 1 + Planner.three_months) (f + 104 * 86400))
    with (f + 104 * 86400) by (unfold Planner.three_months; lia).
  rewrite chunk_loop_ge by lia.
  replace (f + 7776000 + 1) with (f + 7776001) by lia. reflexivity.
Qed.

(** Two settled windows, one with a page and one without: the pages
    collected are that one page, in either completion order. *)
Lemma collect_one_of_two (self : nat) (quote : string) (total : nat)
    (f1 t1 f2 t2 : Z) (html : string) (done : list (nat * (Z * Z))) (w : world) :
  (forall k, db_fault k = None) ->
  settled net quote f1 t1 (Some html) -> html <> "" ->
  settled net quote f2 t2 None ->
  cache_agrees (self, quote, f1, t1) (Some html) w ->
  cache_agrees (self, quote, f2, t2) None w ->
  Permutation [(0%nat, (f1, t1)); (1%nat, (f2, t2))] done ->
  fst (collect soup_rows net db_fault utcnow self quote total done [] w) = [html].
Proof.
  intros Hnf Hs1 Hne Hs2 Ha1 Ha2 Hperm.
  apply Permutation_length_2_inv in Hperm. destruct Hperm as [-> | ->].
  - rewrite (collect_step_settled self quote total 0 f1 t1 (Some html)) by assumption.
    rewrite (collect_step_settled self quote total 1 f2 t2 None);
      [| assumption | assumption | apply task_keeps_agreement; assumption].
    rewrite (truthy_page html Hne). reflexivity.
  - rewrite (collect_step_settled self quote total 1 f2 t2 None) by assumption.
    rewrite (collect_step_settled self quote total 0 f1 t1 (Some html));
      [| assumption | assumption | apply task_keeps_agreement; assumption].
    rewrite (truthy_page html Hne). reflexivity.
Qed.

(** ** The summary of [process_single_pair] *)

Lemma parse_period_known (p : string) :
  In p periods -> exists d, parse_period p = Returned d.
Proof.
  intros H. cbn in H.
  repeat destruct H as [<- | H]; try (eexists; reflexivity). destruct H.
Qed.

Lemma period_records_ok (start : Z) (recs : list rate_data) :
  Forall (fun r => exists t, strptime_Y_m_d (date r) = Returned t) recs ->
  exists l, period_records start recs = Returned l /\
            (List.length l <= List.length recs)%nat.
Proof.
  induction 1 as [| r recs (t & Ht) _ (l & Hl & Hlen)].
  - exists []. split; [reflexivity | apply Nat.le_refl].
  - cbn [period_records]. rewrite Ht, Hl. cbn [bind].
    eexists. split; [reflexivity |].
    destruct (start <=? t); cbn [List.length]; lia.
Qed.

Lemma period_loop_names (end_date : Z) (recs : list rate_data) (ps : list string) :
  forall acc res,
    period_loop end_date recs ps acc = Returned res ->
    map fst res = map fst acc ++ ps.
Proof.
  induction ps as [| p ps IH]; intros acc res H.
  - cbn in H. inversion H. rewrite app_nil_r. reflexivity.
  - cbn [period_loop] in H. unfold bind in H.
    destruct (parse_period p) as [d | e]; [| discriminate].
    destruct (end_date - d <? 0); [discriminate |].
    destruct (period_records _ recs); [| discriminate].
    apply IH in H. rewrite H, map_app, <- app_assoc. reflexivity.
Qed.

(** A period is a span of at most 365 days. *)
Lemma parse_period_span (p : string) (d : Z) :
  parse_period p = Returned d -> 0 <= d <= timedelta_days 365.
Proof.
  unfold parse_period. cbv zeta.
  repeat (destruct (String.eqb _ _);
          [intros H; inversion H; unfold timedelta_days, microseconds_per_day; lia |]).
  discriminate.
Qed.

Lemma period_loop_ok (end_date : Z) (recs : list rate_data) (ps : list string) :
  timedelta_days 365 <= end_date ->
  Forall (fun r => exists t, strptime_Y_m_d (date r) = Returned t) recs ->
  (forall p, In p ps -> In p periods) ->
  forall acc,
    Forall (fun x => exists n, snd x = Success n /\ (n <= List.length recs)%nat) acc ->
    exists res,
      period_loop end_date recs ps acc = Returned res /\
      Forall (fun x => exists n, snd x = Success n /\ (n <= List.length recs)%nat) res.
Proof.
  intros Hend Hdates. induction ps as [| p ps IH]; intros Hps acc Hacc.
  - exists acc. split; [reflexivity | exact Hacc].
  - cbn [period_loop].
    destruct (parse_period_known p (Hps p (or_introl eq_refl))) as (d & Hd).
    rewrite Hd. cbn [bind].
    pose proof (parse_period_span p d Hd) as Hspan.
    destruct (Z.ltb_spec (end_date - d) 0) as [Hlt | _]; [lia |].
    destruct (period_records_ok (end_date - d) recs Hdates) as (l & Hl & Hlen).
    rewrite Hl. cbn [bind]. apply IH.
    + intros q Hq. apply Hps. right. exact Hq.
    + apply Forall_app. split; [exact Hacc |]. constructor; [| constructor].
      exists (List.length l). split; [reflexivity | exact Hlen].
Qed.

(** Whatever [summarise] returns names the pair and has one entry for each
    period, in order. *)
Lemma summarise_shape (scraper : nat) (pair : string) (end_date : Z)
    (html_content : option string) (w w' : world) (s : summary) :
  summarise soup_rows db_fault utcnow scraper pair end_date html_content w
  = (Returned s, w') ->
  fst s = pair /\ map fst (snd s) = periods.
Proof.
  unfold summarise, mbind, lift, ret.
  destruct (negb (truthy_str html_content)).
  { intros H; inversion H. split; reflexivity. }
  destruct html_content as [html |].
  2:{ intros H; inversion H. split; reflexivity. }
  destruct (parse_exchange_data soup_rows html pair) as [[[| r rs] |] | e];
    try (intros H; inversion H; split; reflexivity); try discriminate.
  destruct (save_to_database db_fault utcnow (r :: rs) w) as [[u | e] w1];
    [| discriminate].
  destruct (period_loop end_date (r :: rs) periods []) as [res | e] eqn:Hloop;
    [| discriminate].
  intros H; inversion H; subst. cbn [fst snd]. split; [reflexivity |].
  apply (period_loop_names _ _ _ _ _ Hloop).
Qed.

(** With a clock at least a year into the years of [datetime], a page that
    has records, all dated [YYYY-MM-DD], and a database that does not fail,
    every period is reported as a success with a count not above the number
    of records. *)
Lemma summarise_success (scraper : nat) (pair : string) (end_date : Z)
    (html : string) (recs : list rate_data) (w : world) :
  timedelta_days 365 <= end_date ->
  html <> "" ->
  parse_exchange_data soup_rows html pair = Returned (Some recs) ->
  Forall (fun x => iso_date (date x) = true) recs ->
  (forall k, db_fault k = None) ->
  exists results w',
    summarise soup_rows db_fault utcnow scraper pair end_date (Some html) w
    = (Returned (pair, results), w') /\
    map fst results = periods /\
    Forall (fun x => exists n, snd x = Success n /\ (n <= List.length recs)%nat)
           results.
Proof.
  intros Hend Hne Hparse Hiso Hnf. unfold summarise, mbind, lift, ret.
  rewrite (truthy_page html Hne). cbn [negb]. rewrite Hparse.
  destruct (parse_exchange_data_returns soup_rows html pair) as (res & Hres & Hrecs).
  rewrite Hparse in Hres. inversion Hres; subst res.
  destruct (Hrecs recs eq_refl) as (Hflat & Hnonempty).
  destruct recs as [| r rs]; [contradiction |].
  destruct (save_returns db_fault utcnow (r :: rs) w) as (w1 & Hsave).
  { intros i _. apply Hnf. }
  rewrite Hsave.
  assert (Forall (fun x => exists t, strptime_Y_m_d (date x) = Returned t) (r :: rs))
    as Hdates.
  { apply Forall_forall. intros x Hx.
    pose proof (proj1 (Forall_forall _ _) Hiso x Hx) as Hx_iso.
    rewrite Hflat in Hx. apply in_flat_map in Hx. destruct Hx as (cols & _ & Hx).
    exact (row_record_reads_back pair cols x Hx Hx_iso). }
  destruct (period_loop_ok end_date (r :: rs) periods Hend Hdates (fun p H => H) []
              (Forall_nil _)) as (results & Hloop & Hall).
  rewrite Hloop. exists results, w1. split; [reflexivity |]. split; [| exact Hall].
  apply (period_loop_names _ _ _ _ _ Hloop).
Qed.

End OrchestratorFacts.

(** [process_single_pair] never raises, and its summary has an entry for
    every period. *)
Lemma process_single_pair_returns (soup_rows : string -> list (list string))
    (net : nat -> string -> Z -> Z -> http_outcome)
    (db_fault : nat -> option exn) (utcnow : nat -> Z)
    (completion : list (nat * (Z * Z)) -> list (nat * (Z * Z)))
    (now utc_offset : Z) (localtime : Z -> option Z)
    (from_currency to_currency : string) (w : world) :
  exists s w',
    process_single_pair soup_rows net db_fault utcnow completion now utc_offset
      localtime from_currency to_currency w = (Returned s, w') /\
    fst s = (from_currency ++ to_currency ++ "=X")%string /\
    map fst (snd s) = periods.
Proof.
  unfold process_single_pair, try_except.
  destruct (now - timedelta_days 365 <? 0).
  { eexists; eexists. split; [reflexivity |]. split; reflexivity. }
  unfold mbind.
  destruct (new_scraper db_fault w) as [[scraper | e] w0].
  2:{ eexists; eexists. split; [reflexivity |]. split; reflexivity. }
  destruct (get_exchange_data soup_rows net db_fault utcnow completion localtime
              scraper (from_currency ++ to_currency ++ "=X")%string
              (timestamp utc_offset (now - timedelta_days 365))
              (timestamp utc_offset now) w0) as [[r | e] w1].
  2:{ eexists; eexists. split; [reflexivity |]. split; reflexivity. }
  destruct (summarise soup_rows db_fault utcnow scraper _ now r w1)
    as [[s | e] w2] eqn:Hsum.
  - exists s, w2. split; [reflexivity |]. apply (summarise_shape _ _ _ _ _ _ _ _ _ _ Hsum).
  - eexists; eexists. split; [reflexivity |]. split; reflexivity.
Qed.

(** ** The statements about the orchestration *)

(** With the bounds equal, on a machine in UTC in November 2023, the call
    returns [None]; nothing is raised. *)
Lemma empty_range_not_raised :
  ~ invalid_range_raises sample_soup (flaky_source 0) no_faults sample_clock
      in_order utc 0 "GBPINR=X" 1700000000 1700000000 empty_world.
Proof.
  intros H. destruct (H ltac:(lia)) as (e & w' & He).
  vm_compute in He. discriminate He.
Qed.

(** C9 (as the code has it).  For [to_epoch <= from_epoch] the planner gives
    no window.  When both bounds are instants that [datetime] has,
    [get_exchange_data] returns [None] at once: nothing is fetched, waited
    for or stored, and nothing is raised.  When one of them is not, the call
    raises the exception of [fromtimestamp] for that bound, as it does for
    a range in the right order, and has done nothing. *)
Theorem empty_range_returns_none (soup_rows : string -> list (list string))
    (net : nat -> string -> Z -> Z -> http_outcome)
    (db_fault : nat -> option exn) (utcnow : nat -> Z)
    (completion : list (nat * (Z * Z)) -> list (nat * (Z * Z)))
    (localtime : Z -> option Z)
    (self : nat) (quote : string) (f t : Z) (w : world) :
  t <= f -> completion [] = [] ->
  Planner.plan f t = [] /\
  (in_datetime_range localtime f = true ->
   in_datetime_range localtime t = true ->
   get_exchange_data soup_rows net db_fault utcnow completion localtime
     self quote f t w = (Returned None, w)) /\
  (in_datetime_range localtime f && in_datetime_range localtime t = false ->
   exists e,
     get_exchange_data soup_rows net db_fault utcnow completion localtime
       self quote f t w = (Raised e, w) /\
     (fromtimestamp localtime f = Raised e \/
      fromtimestamp localtime t = Raised e)).
Proof.
  intros Hle Hnone.
  assert (Planner.plan f t = []) as Hplan by (apply chunk_loop_ge, Hle).
  split; [exact Hplan |]. split.
  - intros Hf Ht. rewrite get_exchange_data_in_range by assumption.
    unfold run_chunks. rewrite Hplan. cbn [enumerate List.length seq combine].
    rewrite Hnone. reflexivity.
  - apply get_exchange_data_out_of_range.
Qed.

Lemma empty_range_returns_none_witness :
  Planner.plan 1700000000 1700000000 = [] /\
  get_exchange_data sample_soup (flaky_source 0) no_faults sample_clock in_order
    utc 0 "GBPINR=X" 1700000000 1700000000 empty_world
  = (Returned None, empty_world).
Proof.
  destruct (empty_range_returns_none sample_soup (flaky_source 0) no_faults
              sample_clock in_order utc 0 "GBPINR=X" 1700000000 1700000000
              empty_world) as (Hplan & Hin & _).
  - lia.
  - reflexivity.
  - split; [exact Hplan |]. apply Hin; reflexivity.
Defined.

(** C6.  A window that fails does not stop the others.  For a range whose
    bounds are instants that [datetime] has (the line logged formats them
    before any window is planned), [get_exchange_data] returns whatever its
    tasks do; after a task that raised, the remaining futures are collected
    as before; a window whose requests are answered with a page has that
    page in the result, whatever the other windows do and in whatever order
    the windows complete; a range of 104 days has two windows, and when the
    first is served a page with 60 valid rows, dated [YYYY-MM-DD], while
    every request for the second fails, the call returns the page of the
    first and the summary made from it, with a clock at least a year into
    the years of [datetime], reports every period, 3M among them, as a
    success with at most 60 records; [process_single_pair] always
    returns a summary with an entry for each period and never raises. *)
Theorem sibling_windows_survive (soup_rows : string -> list (list string))
    (net : nat -> string -> Z -> Z -> http_outcome)
    (db_fault : nat -> option exn) (utcnow : nat -> Z)
    (completion : list (nat * (Z * Z)) -> list (nat * (Z * Z)))
    (localtime : Z -> option Z) :
  (forall self quote f t w,
     in_datetime_range localtime f = true ->
     in_datetime_range localtime t = true ->
     exists r w',
       get_exchange_data soup_rows net db_fault utcnow completion localtime
         self quote f t w
       = (Returned r, w')) /\
  (forall self quote total i f t rest data w e w1,
     _fetch_and_save_chunk soup_rows net db_fault utcnow self quote f t
       (i + 1) total w = (Raised e, w1) ->
     collect soup_rows net db_fault utcnow self quote total
       ((i, (f, t)) :: rest) data w
     = collect soup_rows net db_fault utcnow self quote total rest data w1) /\
  (forall self quote from_date to_date f t html w,
     in_datetime_range localtime from_date = true ->
     in_datetime_range localtime to_date = true ->
     (forall k, db_fault k = None) ->
     (forall l, Permutation l (completion l)) ->
     In (f, t) (Planner.plan from_date to_date) ->
     (forall n, net n quote f t = Response 200 html) -> html <> "" ->
     cache_agrees (self, quote, f, t) (Some html) w ->
     exists pages w',
       get_exchange_data soup_rows net db_fault utcnow completion localtime
         self quote from_date to_date w
       = (Returned (Some (String.concat newline pages)), w') /\
       In html pages) /\
  (forall f, List.length (Planner.plan f (f + 104 * 86400)) = 2%nat) /\
  (forall self quote f html recs end_date w,
     in_datetime_range localtime f = true ->
     in_datetime_range localtime (f + 104 * 86400) = true ->
     timedelta_days 365 <= end_date ->
     (forall k, db_fault k = None) ->
     (forall l, Permutation l (completion l)) ->
     (forall n, net n quote f (f + 7776000) = Response 200 html) -> html <> "" ->
     (forall n, is_failure (net n quote (f + 7776001) (f + 104 * 86400)) = true) ->
     parse_exchange_data soup_rows html quote = Returned (Some recs) ->
     List.length recs = 60%nat ->
     Forall (fun r => iso_date (date r) = true) recs ->
     cache_find (self, quote, f, f + 7776000) (cache w) = None ->
     cache_find (self, quote, f + 7776001, f + 104 * 86400) (cache w) = None ->
     exists w1 results w2,
       get_exchange_data soup_rows net db_fault utcnow completion localtime
         self quote f (f + 104 * 86400) w = (Returned (Some html), w1) /\
       summarise soup_rows db_fault utcnow self quote end_date (Some html) w1
       = (Returned (quote, results), w2) /\
       map fst results = periods /\
       exists n, In ("3M", Success n) results /\ (n <= 60)%nat) /\
  (forall now utc_offset from_currency to_currency w,
     exists s w',
       process_single_pair soup_rows net db_fault utcnow completion now utc_offset
         localtime from_currency to_currency w = (Returned s, w') /\
       map fst (snd s) = periods).
Proof.
  split; [| split; [| split; [| split; [| split]]]].
  - intros self quote f t w Hf Ht.
    rewrite (get_exchange_data_in_range soup_rows net db_fault utcnow completion
               localtime self quote f t w Hf Ht).
    apply run_chunks_returns.
  - intros self quote total i f t rest data w e w1 Htask.
    cbn [collect]. rewrite Htask. reflexivity.
  - intros self quote from_date to_date f t html w Hfrom Hto Hnf Hperm Hin Hnet
           Hne Hag.
    rewrite (get_exchange_data_in_range soup_rows net db_fault utcnow completion
               localtime self quote from_date to_date w Hfrom Hto).
    unfold run_chunks.
    destruct (enumerate_in _ _ Hin) as (i & Hi).
    apply (Permutation_in _ (Hperm _)) in Hi.
    pose proof (collect_contains soup_rows net db_fault utcnow self quote
                  (List.length (Planner.plan from_date to_date)) f t html Hnf
                  (always_page_settled net quote f t html Hnet) Hne
                  (completion (enumerate (Planner.plan from_date to_date))) [] w Hag
                  (or_intror (ex_intro _ i Hi))) as Hcontains.
    destruct (collect _ _ _ _ _ _ _ _ _ _) as [[| x l] w1]; cbn [fst] in Hcontains.
    + destruct Hcontains.
    + exists (x :: l), w1. split; [reflexivity | exact Hcontains].
  - intros f. rewrite plan_104_days. reflexivity.
  - intros self quote f html recs end_date w Hfrom Hto Hend Hnf Hperm Hnet1 Hne
           Hnet2 Hparse Hlen Hiso Hc1 Hc2.
    rewrite (get_exchange_data_in_range soup_rows net db_fault utcnow completion
               localtime self quote f (f + 104 * 86400) w Hfrom Hto).
    unfold run_chunks. rewrite plan_104_days.
    pose proof (collect_one_of_two soup_rows net db_fault utcnow self quote 2
                  f (f + 7776000) (f + 7776001) (f + 104 * 86400) html
                  (completion (enumerate [(f, f + 7776000);
                                          (f + 7776001, f + 104 * 86400)])) w Hnf
                  (always_page_settled net quote _ _ html Hnet1) Hne
                  (always_failing_settled net quote _ _ Hnet2)
                  (or_introl Hc1) (or_introl Hc2) (Hperm _)) as Hcollect.
    cbn [List.length].
    destruct (collect _ _ _ _ _ _ _ _ _ _) as [all_data w1]. cbn [fst] in Hcollect.
    subst all_data.
    destruct (summarise_success soup_rows db_fault utcnow self quote end_date html
                recs w1 Hend Hne Hparse Hiso Hnf)
      as (results & w2 & Hsum & Hnames & Hall).
    exists w1, results, w2. split; [reflexivity |]. split; [exact Hsum |].
    split; [exact Hnames |].
    destruct results as [| a [| b [| [p st] rest]]]; try discriminate Hnames.
    inversion Hnames as [[Ha Hb Hp Hrest]].
    inversion Hall as [| ? ? _ Hall1]. inversion Hall1 as [| ? ? _ Hall2].
    inversion Hall2 as [| ? ? (n & Hst & Hn) _]. cbn [snd] in Hst. subst st.
    exists n. split; [right; right; left; reflexivity | lia].
  - intros now utc_offset from_currency to_currency w.
    destruct (process_single_pair_returns soup_rows net db_fault utcnow completion
                now utc_offset localtime from_currency to_currency w)
      as (s & w' & H & _ & Hn).
    exists s, w'. split; assumption.
Qed.

Lemma sibling_windows_survive_witness :
  exists w1 results w2,
    get_exchange_data sixty_rows first_window_only no_faults sample_clock in_order
      utc 0 "GBPINR=X" 1700000000 (1700000000 + 104 * 86400) empty_world
    = (Returned (Some served_page), w1) /\
    summarise sixty_rows no_faults sample_clock 0 "GBPINR=X"
      (datetime_of_date 2024 2 1) (Some served_page) w1
    = (Returned ("GBPINR=X", results), w2) /\
    map fst results = periods /\
    exists n, In ("3M", Success n) results /\ (n <= 60)%nat.
Proof.
  destruct (sibling_windows_survive sixty_rows first_window_only no_faults
              sample_clock in_order utc) as (_ & _ & _ & _ & Hscenario & _).
  apply (Hscenario 0%nat "GBPINR=X" 1700000000 served_page
           (repeat (sample_rate "GBPINR=X" "2024-01-05" 10548 0) 60)
           (datetime_of_date 2024 2 1) empty_world).
  - reflexivity.
  - reflexivity.
  - vm_compute. discriminate.
  - intros k. reflexivity.
  - intros l. apply Permutation_refl.
  - intros n. reflexivity.
  - discriminate.
  - intros n. reflexivity.
  - vm_compute. reflexivity.
  - reflexivity.
  - apply Forall_forall. intros r Hr. apply repeat_spec in Hr. subst r.
    reflexivity.
  - reflexivity.
  - reflexivity.
Defined.

(* ===================================================================== *)
(** * Further properties of the chunk planner                             *)
(* ===================================================================== *)

(** X1.  Every second from [from_date] up to, but not including, [to_date]
    lies in exactly one window of the plan. *)
Theorem plan_covers_once (f t s : Z) :
  f <= s < t ->
  exists a b,
    In (a, b) (Planner.plan f t) /\ a <= s <= b /\
    forall a' b', In (a', b') (Planner.plan f t) -> a' <= s <= b' ->
                  (a', b') = (a, b).
Proof.
  unfold Planner.plan. revert s. pattern f, t. apply chunk_loop_ind; clear f t.
  - intros f t H s Hs. lia.
  - intros f t H IH s Hs. rewrite chunk_loop_lt by exact H.
    set (ct := Z.min (f + Planner.three_months) t) in *.
    pose proof (plan_within (ct + 1) t) as Hrest. unfold Planner.plan in Hrest.
    rewrite Forall_forall in Hrest.
    destruct (Z_le_gt_dec s ct) as [Hle | Hgt].
    + exists f, ct. split; [left; reflexivity |]. split; [lia |].
      intros a' b' [Heq | Hin] Hs'; [symmetry; exact Heq |].
      apply Hrest in Hin. unfold Planner.within in Hin. cbn in Hin. exfalso. lia.
    + destruct (IH s ltac:(lia)) as (a & b & Hin & Hab & Huniq).
      exists a, b. split; [right; exact Hin |]. split; [exact Hab |].
      intros a' b' [Heq | Hin'] Hs'.
      * inversion Heq; subst a' b'. exfalso. lia.
      * apply Huniq; assumption.
Qed.

Lemma plan_covers_once_witness :
  exists a b,
    In (a, b) (Planner.plan 1700000000 1708985600) /\
    a <= 1707776001 <= b.
Proof.
  destruct (plan_covers_once 1700000000 1708985600 1707776001 ltac:(lia))
    as (a & b & Hin & Hab & _).
  exists a, b. split; assumption.
Defined.

(** X2.  When the range is a whole number of steps of 7,776,001 seconds,
    the last window ends one second before [to_date] and no window reaches
    [to_date]. *)
Theorem plan_misses_last_second (f t : Z) :
  f < t -> (t - f) mod (Planner.three_months + 1) = 0 ->
  Planner.last_end (Planner.plan f t) = Some (t - 1) /\
  Forall (fun w => snd w < t) (Planner.plan f t).
Proof.
  intros Hlt Hmod. split.
  - rewrite plan_last by exact Hlt. rewrite Hmod. reflexivity.
  - revert Hlt Hmod. unfold Planner.plan. pattern f, t.
    apply chunk_loop_ind; clear f t.
    + intros; lia.
    + intros f t H IH _ Hmod. rewrite chunk_loop_lt by exact H.
      assert (Planner.three_months + 1 <= t - f) as Hbig.
      { apply Z.mod_divide in Hmod; [| unfold Planner.three_months; lia].
        destruct Hmod as [q Hq]. unfold Planner.three_months in *. nia. }
      assert (Z.min (f + Planner.three_months) t = f + Planner.three_months) as Hct
        by (unfold Planner.three_months in *; lia).
      rewrite Hct in *. constructor; [cbn [snd]; lia |].
      destruct (Z_lt_dec (f + Planner.three_months + 1) t) as [Hnext | Hend].
      * apply IH; [exact Hnext |].
        replace (t - (f + Planner.three_months + 1))
          with ((t - f) + (-1) * (Planner.three_months + 1)) by lia.
        rewrite Z.mod_add by (unfold Planner.three_months; lia). exact Hmod.
      * rewrite chunk_loop_ge by lia. constructor.
Qed.

Lemma plan_misses_last_second_witness :
  Planner.last_end (Planner.plan 0 7776001) = Some (7776001 - 1) /\
  Forall (fun w => snd w < 7776001) (Planner.plan 0 7776001).
Proof.
  apply (plan_misses_last_second 0 7776001); [lia | reflexivity].
Defined.

(* ===================================================================== *)
(** * Further properties of the fetch client                              *)
(* ===================================================================== *)

Section RetryFacts.

Variable net : nat -> string -> Z -> Z -> http_outcome.

(** What the sleeps of a run over the attempts [attempts] can add up to. *)
Lemma retry_loop_frame (quote : string) (f t : Z) (n : nat) (attempts : list nat) :
  forall w,
  exists new,
    slept (snd (retry_loop net quote f t n attempts w)) = slept w ++ new /\
    (0 <= total new /\
     total new <=
       total (map (fun a => 2 ^ Z.of_nat a)
                  (filter (fun a => negb (Nat.eqb a (n - 1))) attempts))) /\
    cache (snd (retry_loop net quote f t n attempts w)) = cache w /\
    db (snd (retry_loop net quote f t n attempts w)) = db w /\
    db_ops (snd (retry_loop net quote f t n attempts w)) = db_ops w /\
    scrapers (snd (retry_loop net quote f t n attempts w)) = scrapers w.
Proof.
  unfold total. induction attempts as [| a rest IH]; intros w.
  - exists []. cbn. rewrite app_nil_r. split; [reflexivity |].
    split; [lia |]. repeat split.
  - cbn [retry_loop filter]. unfold requests_get, mbind, sleep.
    assert (0 <= 2 ^ Z.of_nat a) as Hpow by (apply Z.pow_nonneg; lia).
    assert (0 <= fold_right Z.add 0 (map (fun a0 => 2 ^ Z.of_nat a0)
                         (filter (fun a0 => negb (a0 =? n - 1)%nat) rest))) as Hrest
      by (destruct (IH w) as (new & _ & Hb & _); lia).
    assert (fold_right Z.add 0 (map (fun a0 => 2 ^ Z.of_nat a0)
                       (filter (fun a0 => negb (a0 =? n - 1)%nat) rest)) <=
            fold_right Z.add 0 (map (fun a0 => 2 ^ Z.of_nat a0)
                       (if negb (a =? n - 1)%nat
                        then a :: filter (fun a0 => negb (a0 =? n - 1)%nat) rest
                        else filter (fun a0 => negb (a0 =? n - 1)%nat) rest))) as Hmono
      by (destruct (negb (a =? n - 1)%nat); cbn [map fold_right]; lia).
    destruct (net (requests w) quote f t) as [s0 x0 | e0].
    + destruct (s0 =? 200).
      * exists []. cbn [snd slept cache db db_ops scrapers].
        rewrite app_nil_r. split; [reflexivity |].
        split; [cbn [fold_right]; lia |]. repeat split.
      * destruct (IH (mkWorld (S (requests w)) (slept w) (cache w) (db w)
                              (db_ops w) (scrapers w)))
          as (new & Hs & Hb & Hc & Hd & Ho & Hsc).
        exists new. cbn [slept cache db db_ops scrapers] in *.
        split; [exact Hs |]. split; [lia |]. repeat split; assumption.
    + destruct (a =? n - 1)%nat.
      * exists []. cbn [snd slept cache db db_ops scrapers].
        rewrite app_nil_r. split; [reflexivity |].
        split; [cbn [fold_right]; lia |]. repeat split.
      * cbn [negb map fold_right] in *. cbv beta iota.
        cbn [requests slept cache db db_ops scrapers].
        destruct (IH (mkWorld (S (requests w)) (slept w ++ [2 ^ Z.of_nat a])
                              (cache w) (db w) (db_ops w) (scrapers w)))
          as (new & Hs & Hb & Hc & Hd & Ho & Hsc).
        exists (2 ^ Z.of_nat a :: new). cbn [slept cache db db_ops scrapers] in *.
        split; [rewrite Hs, <- app_assoc; reflexivity |].
        split; [cbn [fold_right]; lia |].
        repeat split; assumption.
Qed.

(** What a run over the attempts [attempts] returns, by the answers met. *)
Lemma retry_loop_result (quote : string) (f t : Z) (n : nat) (attempts : list nat) :
  forall w,
  match fst (retry_loop net quote f t n attempts w) with
  | Returned (Some text) =>
      exists i, (i < List.length attempts)%nat /\
        requests (snd (retry_loop net quote f t n attempts w))
        = (requests w + S i)%nat /\
        net (requests w + i)%nat quote f t = Response 200 text /\
        forall j, (j < i)%nat -> is_failure (net (requests w + j)%nat quote f t) = true
  | Returned None =>
      requests (snd (retry_loop net quote f t n attempts w))
      = (requests w + List.length attempts)%nat /\
      (forall j, (j < List.length attempts)%nat ->
         is_failure (net (requests w + j)%nat quote f t) = true) /\
      (forall j e, (j < List.length attempts)%nat ->
         nth j attempts 0%nat = (n - 1)%nat ->
         net (requests w + j)%nat quote f t <> Failed e)
  | Raised e =>
      exists i, (i < List.length attempts)%nat /\
        nth i attempts 0%nat = (n - 1)%nat /\
        requests (snd (retry_loop net quote f t n attempts w))
        = (requests w + S i)%nat /\
        net (requests w + i)%nat quote f t = Failed e /\
        forall j, (j < i)%nat -> is_failure (net (requests w + j)%nat quote f t) = true
  end.
Proof.
  induction attempts as [| a rest IH]; intros w.
  - cbn. split; [lia |]. split; intros; lia.
  - cbn [retry_loop]. unfold requests_get, mbind, sleep.
    destruct (net (requests w) quote f t) as [s0 x0 | e0] eqn:H0.
    + destruct (Z.eqb_spec s0 200) as [-> | Hs0].
      * cbn [fst snd requests]. exists 0%nat. cbn [List.length].
        rewrite Nat.add_0_r. split; [lia |]. split; [lia |].
        split; [exact H0 |]. intros j Hj. lia.
      * assert (forall j, (j < 1)%nat ->
                  is_failure (net (requests w + j)%nat quote f t) = true) as Hfirst.
        { intros j Hj. replace j with 0%nat by lia. rewrite Nat.add_0_r, H0.
          cbn. destruct (Z.eqb_spec s0 200); [contradiction | reflexivity]. }
        specialize (IH (mkWorld (S (requests w)) (slept w) (cache w) (db w)
                                (db_ops w) (scrapers w))).
        cbn [requests] in IH.
        destruct (fst (retry_loop net quote f t n rest _)) as [[text |] | e].
        -- destruct IH as (i & Hi & Hr & Hn & Hf). exists (S i). cbn [List.length].
           split; [lia |]. split; [rewrite Hr; lia |].
           split; [rewrite <- Hn; f_equal; lia |].
           intros [| j] Hj; [apply Hfirst; lia |].
           replace (requests w + S j)%nat with (S (requests w) + j)%nat by lia.
           apply Hf. lia.
        -- destruct IH as (Hr & Hf & Hnf). cbn [List.length].
           split; [rewrite Hr; lia |]. split.
           ++ intros [| j] Hj; [apply Hfirst; lia |].
              replace (requests w + S j)%nat with (S (requests w) + j)%nat by lia.
              apply Hf. lia.
           ++ intros [| j] e' Hj Hnth.
              ** rewrite Nat.add_0_r, H0. discriminate.
              ** replace (requests w + S j)%nat with (S (requests w) + j)%nat by lia.
                 cbn [nth] in Hnth. apply Hnf; [lia | exact Hnth].
        -- destruct IH as (i & Hi & Hnth & Hr & Hn & Hf). exists (S i).
           cbn [List.length nth]. split; [lia |]. split; [exact Hnth |].
           split; [rewrite Hr; lia |].
           split; [rewrite <- Hn; f_equal; lia |].
           intros [| j] Hj; [apply Hfirst; lia |].
           replace (requests w + S j)%nat with (S (requests w) + j)%nat by lia.
           apply Hf. lia.
    + assert (forall j, (j < 1)%nat ->
                is_failure (net (requests w + j)%nat quote f t) = true) as Hfirst.
      { intros j Hj. replace j with 0%nat by lia. rewrite Nat.add_0_r, H0.
        reflexivity. }
      destruct (Nat.eqb_spec a (n - 1)) as [Ha | Ha].
      * cbn [fst snd requests]. exists 0%nat. cbn [List.length nth].
        rewrite Nat.add_0_r. split; [lia |]. split; [exact Ha |]. split; [lia |].
        split; [exact H0 |]. intros j Hj. lia.
      * cbv beta iota. cbn [requests slept cache db db_ops scrapers].
        specialize (IH (mkWorld (S (requests w)) (slept w ++ [2 ^ Z.of_nat a])
                                (cache w) (db w) (db_ops w) (scrapers w))).
        cbn [requests] in IH.
        destruct (fst (retry_loop net quote f t n rest _)) as [[text |] | e].
        -- destruct IH as (i & Hi & Hr & Hn & Hf). exists (S i). cbn [List.length].
           split; [lia |]. split; [rewrite Hr; lia |].
           split; [rewrite <- Hn; f_equal; lia |].
           intros [| j] Hj; [apply Hfirst; lia |].
           replace (requests w + S j)%nat with (S (requests w) + j)%nat by lia.
           apply Hf. lia.
        -- destruct IH as (Hr & Hf & Hnf). cbn [List.length].
           split; [rewrite Hr; lia |]. split.
           ++ intros [| j] Hj; [apply Hfirst; lia |].
              replace (requests w + S j)%nat with (S (requests w) + j)%nat by lia.
              apply Hf. lia.
           ++ intros [| j] e' Hj Hnth.
              ** rewrite Nat.add_0_r, H0. cbn [nth] in Hnth. congruence.
              ** replace (requests w + S j)%nat with (S (requests w) + j)%nat by lia.
                 cbn [nth] in Hnth. apply Hnf; [lia | exact Hnth].
        -- destruct IH as (i & Hi & Hnth & Hr & Hn & Hf). exists (S i).
           cbn [List.length nth]. split; [lia |]. split; [exact Hnth |].
           split; [rewrite Hr; lia |].
           split; [rewrite <- Hn; f_equal; lia |].
           intros [| j] Hj; [apply Hfirst; lia |].
           replace (requests w + S j)%nat with (S (requests w) + j)%nat by lia.
           apply Hf. lia.
Qed.

Lemma total_app (xs ys : list Z) : total (xs ++ ys) = total xs + total ys.
Proof.
  unfold total. induction xs as [| x xs IH]; cbn [app fold_right]; [lia |].
  rewrite IH. lia.
Qed.

Lemma total_powers (k : nat) :
  total (map (fun a => 2 ^ Z.of_nat a) (seq 0 k)) = 2 ^ Z.of_nat k - 1.
Proof.
  induction k as [| k IH]; [reflexivity |].
  rewrite seq_S, map_app, total_app, IH. cbn [map Nat.add]. unfold total.
  cbn [fold_right]. rewrite Nat2Z.inj_succ, Z.pow_succ_r by lia. lia.
Qed.

Lemma filter_not_last (n : nat) :
  filter (fun a => negb (Nat.eqb a (n - 1))) (seq 0 n) = seq 0 (n - 1).
Proof.
  destruct n as [| k]; [reflexivity |].
  replace (S k - 1)%nat with k by lia. rewrite seq_S, filter_app.
  cbn [Nat.add filter]. rewrite Nat.eqb_refl. cbn [negb]. rewrite app_nil_r.
  apply forallb_filter_id. apply forallb_forall. intros x Hx.
  apply in_seq in Hx. destruct (Nat.eqb_spec x k); [lia | reflexivity].
Qed.

(** X3.  Whatever [max_retries] is, [_fetch_data_with_retry] makes at most
    that many attempts, waits in all at most [2 ^ (max_retries - 1) - 1]
    seconds (3 seconds for the default of 3), and touches neither the cache
    nor the table. *)
Theorem fetch_retry_bounds (quote : string) (f t : Z) (max_retries : nat)
    (w : world) :
  exists new,
    slept (snd (_fetch_data_with_retry net quote f t max_retries w))
    = slept w ++ new /\
    (0 <= total new /\ total new <= 2 ^ Z.of_nat (max_retries - 1) - 1) /\
    ((requests w <=
      requests (snd (_fetch_data_with_retry net quote f t max_retries w)))%nat /\
     (requests (snd (_fetch_data_with_retry net quote f t max_retries w)) <=
      requests w + max_retries)%nat) /\
    cache (snd (_fetch_data_with_retry net quote f t max_retries w)) = cache w /\
    db (snd (_fetch_data_with_retry net quote f t max_retries w)) = db w.
Proof.
  unfold _fetch_data_with_retry.
  destruct (retry_loop_frame quote f t max_retries (seq 0 max_retries) w)
    as (new & Hs & Hb & Hc & Hd & _).
  rewrite filter_not_last, total_powers in Hb.
  exists new. split; [exact Hs |]. split; [exact Hb |]. split; [| split; assumption].
  pose proof (retry_loop_result quote f t max_retries (seq 0 max_retries) w) as Hr.
  rewrite length_seq in Hr.
  destruct (fst (retry_loop net quote f t max_retries (seq 0 max_retries) w))
    as [[text |] | e].
  - destruct Hr as (i & Hi & Hr & _). rewrite Hr. lia.
  - destruct Hr as (Hr & _). rewrite Hr. lia.
  - destruct Hr as (i & Hi & _ & Hr & _). rewrite Hr. lia.
Qed.

(** X4.  [_fetch_data_with_retry] returns a page exactly when one of its
    [max_retries] attempts is answered with status 200 after failures only,
    and the page is the text of that answer. *)
Theorem fetch_retry_page (quote : string) (f t : Z) (max_retries : nat)
    (w : world) (text : string) :
  fst (_fetch_data_with_retry net quote f t max_retries w) = Returned (Some text)
  <->
  exists i, (i < max_retries)%nat /\
    net (requests w + i)%nat quote f t = Response 200 text /\
    forall j, (j < i)%nat -> is_failure (net (requests w + j)%nat quote f t) = true.
Proof.
  unfold _fetch_data_with_retry.
  pose proof (retry_loop_result quote f t max_retries (seq 0 max_retries) w) as Hr.
  rewrite length_seq in Hr.
  destruct (fst (retry_loop net quote f t max_retries (seq 0 max_retries) w))
    as [[text' |] | e].
  - destruct Hr as (i & Hi & _ & Hn & Hf). split.
    + intros H. inversion H; subst text'. exists i. repeat split; assumption.
    + intros (i' & Hi' & Hn' & Hf').
      destruct (Nat.lt_trichotomy i i') as [Hlt | [Heq | Hgt]].
      * specialize (Hf' i Hlt). rewrite Hn in Hf'. discriminate.
      * subst i'. rewrite Hn in Hn'. inversion Hn'. reflexivity.
      * specialize (Hf i' Hgt). rewrite Hn' in Hf. discriminate.
  - destruct Hr as (_ & Hf & _). split; [discriminate |].
    intros (i' & Hi' & Hn' & _). specialize (Hf i' Hi'). rewrite Hn' in Hf.
    discriminate.
  - destruct Hr as (i & Hi & Hnth & _ & Hn & Hf). split; [discriminate |].
    rewrite seq_nth in Hnth by lia. cbn [Nat.add] in Hnth.
    intros (i' & Hi' & Hn' & Hf').
    destruct (Nat.lt_trichotomy i i') as [Hlt | [Heq | Hgt]].
    + lia.
    + subst i'. rewrite Hn in Hn'. discriminate.
    + specialize (Hf i' Hgt). rewrite Hn' in Hf. discriminate.
Qed.

(** X5.  [_fetch_data_with_retry] raises exactly when all attempts before
    the last have failed and the last attempt itself raises; the exception is
    the one of the last attempt.  A last attempt answered with a bad status
    gives [None] instead. *)
Theorem fetch_retry_raises (quote : string) (f t : Z) (max_retries : nat)
    (w : world) (e : exn) :
  fst (_fetch_data_with_retry net quote f t max_retries w) = Raised e
  <->
  (1 <= max_retries)%nat /\
  net (requests w + (max_retries - 1))%nat quote f t = Failed e /\
  forall j, (j < max_retries - 1)%nat ->
    is_failure (net (requests w + j)%nat quote f t) = true.
Proof.
  unfold _fetch_data_with_retry.
  pose proof (retry_loop_result quote f t max_retries (seq 0 max_retries) w) as Hr.
  rewrite length_seq in Hr.
  destruct (fst (retry_loop net quote f t max_retries (seq 0 max_retries) w))
    as [[text' |] | e'].
  - destruct Hr as (i & Hi & _ & Hn & Hf). split; [discriminate |].
    intros (Hn1 & Hlast & Hall).
    destruct (Nat.eq_dec i (max_retries - 1)) as [-> | Hne].
    + rewrite Hn in Hlast. discriminate.
    + specialize (Hall i ltac:(lia)). rewrite Hn in Hall. discriminate.
  - destruct Hr as (_ & _ & Hnf). split; [discriminate |].
    intros (Hn1 & Hlast & _). exfalso.
    apply (Hnf (max_retries - 1)%nat e); [lia | | exact Hlast].
    rewrite seq_nth by lia. reflexivity.
  - destruct Hr as (i & Hi & Hnth & _ & Hn & Hf).
    rewrite seq_nth in Hnth by lia. cbn [Nat.add] in Hnth. subst i. split.
    + intros H. inversion H; subst e'. split; [lia |]. split; assumption.
    + intros (_ & Hlast & _). rewrite Hn in Hlast. inversion Hlast. reflexivity.
Qed.

End RetryFacts.

Section CacheFacts.

Variable net : nat -> string -> Z -> Z -> http_outcome.

Lemma cache_find_absent (k : cache_key) (c : list (cache_key * option string)) :
  ~ In k (map fst c) -> cache_find k c = None.
Proof.
  induction c as [| [k' v] c IH]; intros H; [reflexivity |].
  cbn [cache_find]. destruct (cache_key_eqb k k') eqn:Hk.
  - apply cache_key_eqb_eq in Hk. subst k'. exfalso. apply H. left. reflexivity.
  - apply IH. intros Hin. apply H. right. exact Hin.
Qed.

Lemma cache_find_present (k : cache_key) (c : list (cache_key * option string)) :
  cache_find k c = None -> ~ In k (map fst c).
Proof.
  induction c as [| [k' v] c IH]; intros H Hin; [destruct Hin |].
  cbn [cache_find] in H. destruct (cache_key_eqb k k') eqn:Hk; [discriminate |].
  destruct Hin as [Heq | Hin]; [| exact (IH H Hin)].
  cbn in Heq. subst k'. rewrite cache_key_eqb_refl in Hk. discriminate.
Qed.

Lemma keys_of_removed (k : cache_key) (c : list (cache_key * option string)) :
  NoDup (map fst c) ->
  NoDup (map fst (cache_remove k c)) /\ ~ In k (map fst (cache_remove k c)).
Proof.
  induction c as [| [k' v] c IH]; intros H.
  - split; [constructor | intros []].
  - cbn [map fst] in H. inversion H as [| ? ? Hnotin Hrest]; subst.
    destruct (IH Hrest) as [Hnd Hk]. cbn [cache_remove filter fst].
    destruct (cache_key_eqb k k') eqn:Hkk; cbn [negb]; [split; assumption |].
    cbn [map fst]. split.
    + constructor; [| exact Hnd]. intros Hin. apply Hnotin.
      apply in_map_iff in Hin. destruct Hin as ([k2 v2] & Hfst & Hin2).
      apply filter_In in Hin2. apply in_map_iff. exists (k2, v2).
      split; [exact Hfst | apply Hin2].
    + intros [Heq | Hin]; [| exact (Hk Hin)].
      subst k'. rewrite cache_key_eqb_refl in Hkk. discriminate.
Qed.

Lemma nodup_firstn {A} (n : nat) (l : list A) : NoDup l -> NoDup (firstn n l).
Proof.
  revert n. induction l as [| x l IH]; intros [| n] H; cbn [firstn];
    try constructor.
  - inversion H as [| ? ? Hx Hl]; subst. intros Hin. apply Hx.
    rewrite <- (firstn_skipn n l). apply in_or_app. left. exact Hin.
  - inversion H; subst. apply IH. assumption.
Qed.

(** X6.  A call of [_fetch_chunk] never raises, leaves the table and the
    count of database operations alone, makes at most three attempts, and
    keeps the keys of the cache distinct. *)
Theorem fetch_chunk_invariant (self : nat) (quote : string) (f t : Z) (w : world) :
  (exists v, fst (_fetch_chunk net self quote f t w) = Returned v) /\
  db (snd (_fetch_chunk net self quote f t w)) = db w /\
  db_ops (snd (_fetch_chunk net self quote f t w)) = db_ops w /\
  (requests (snd (_fetch_chunk net self quote f t w)) <= requests w + 3)%nat /\
  (NoDup (map fst (cache w)) ->
   NoDup (map fst (cache (snd (_fetch_chunk net self quote f t w))))).
Proof.
  destruct (cache_find (self, quote, f, t) (cache w)) as [v0 |] eqn:Hfind.
  - rewrite (fetch_chunk_hit net _ _ _ _ _ _ Hfind).
    cbn [fst snd with_cache db db_ops requests cache].
    split; [eexists; reflexivity |]. split; [reflexivity |].
    split; [reflexivity |]. split; [lia |].
    intros Hnd. destruct (keys_of_removed (self, quote, f, t) (cache w) Hnd)
      as [Hnd' Hk].
    cbn [map fst]. constructor; assumption.
  - destruct (fetch_chunk_miss net self quote f t w Hfind)
      as (v & w1 & Hb & Hc & Hd & Ho & Hs & Hr & Hcall).
    rewrite Hcall. cbn [fst snd with_cache db db_ops requests cache].
    split; [eexists; reflexivity |]. split; [exact Hd |]. split; [exact Ho |].
    split.
    + rewrite fetch_chunk_body_eq in Hb.
      pose proof (retry_loop_result net quote f t 3 (seq 0 3) w) as Hres.
      unfold _fetch_data_with_retry in Hb.
      destruct (retry_loop net quote f t 3 (seq 0 3) w) as [[[text |] | e] w2];
        cbn [fst snd List.length seq] in Hres; inversion Hb; subst w1.
      * destruct Hres as (i & Hi & Hreq & _). rewrite Hreq. lia.
      * destruct Hres as (Hreq & _). rewrite Hreq. lia.
      * destruct Hres as (i & Hi & _ & Hreq & _). rewrite Hreq. lia.
    + intros Hnd. rewrite <- firstn_map. apply nodup_firstn.
      cbn [map fst]. constructor; [apply cache_find_present, Hfind | exact Hnd].
Qed.

End CacheFacts.

Lemma fetch_chunk_invariant_witness :
  NoDup (map fst (cache (snd (_fetch_chunk (flaky_source 3) 0 "GBPINR=X" 0 7776000
                                 empty_world)))).
Proof.
  apply (fetch_chunk_invariant (flaky_source 3) 0 "GBPINR=X" 0 7776000 empty_world).
  constructor.
Defined.

Section EvictionFacts.

Variable net : nat -> string -> Z -> Z -> http_outcome.

Lemma firstn_app_firstn {A} (a b : list A) :
  forall n m, (n <= m)%nat -> firstn n (a ++ firstn m b) = firstn n (a ++ b).
Proof.
  induction a as [| x a IH]; intros n m Hnm.
  - cbn [app]. rewrite firstn_firstn. f_equal. lia.
  - destruct n as [| n]; [reflexivity |]. cbn [app firstn]. f_equal.
    apply IH. lia.
Qed.

(** Windows that are fetched for the first time, one after the other, are
    put in front of the cache in turn. *)
Lemma fetch_each_misses (self : nat) (quote : string) (others : list (Z * Z)) :
  forall w,
    (List.length (cache w) <= maxsize)%nat ->
    NoDup others ->
    (forall o, In o others ->
       cache_find (self, quote, fst o, snd o) (cache w) = None) ->
    exists entries,
      cache (fetch_each net self quote others w)
      = firstn maxsize (entries ++ cache w) /\
      map fst entries = rev (map (fun o => (self, quote, fst o, snd o)) others).
Proof.
  induction others as [| [f t] rest IH]; intros w Hcap Hnd Hmiss.
  - exists []. cbn [fetch_each app map rev]. split; [| reflexivity].
    symmetry. apply firstn_all2. exact Hcap.
  - cbn [fetch_each].
    pose proof (Hmiss (f, t) (or_introl eq_refl)) as Hfind. cbn [fst snd] in Hfind.
    destruct (fetch_chunk_miss net self quote f t w Hfind)
      as (v & w1 & _ & _ & _ & _ & _ & _ & Hcall).
    rewrite Hcall. cbn [snd].
    inversion Hnd as [| ? ? Hnotin Hnd']; subst.
    destruct (IH (with_cache (firstn maxsize ((self, quote, f, t, v) :: cache w)) w1))
      as (entries & Hcache & Hkeys).
    + cbn [with_cache cache]. rewrite length_firstn. lia.
    + exact Hnd'.
    + intros [f' t'] Hin. cbn [with_cache cache fst snd].
      destruct (cache_find_firstn (self, quote, f', t') maxsize
                  ((self, quote, f, t, v) :: cache w)) as [E | E]; [exact E |].
      etransitivity; [exact E |]. cbn [cache_find].
      destruct (cache_key_eqb (self, quote, f', t') (self, quote, f, t)) eqn:Hk.
      * apply cache_key_eqb_eq in Hk. inversion Hk; subst. contradiction.
      * apply (Hmiss (f', t')). right. exact Hin.
    + exists (entries ++ [(self, quote, f, t, v)]). split.
      * rewrite Hcache. cbn [with_cache cache].
        rewrite firstn_app_firstn by lia. rewrite <- app_assoc. reflexivity.
      * rewrite map_app, Hkeys. reflexivity.
Qed.

(** X7.  The cache forgets what has not been used while 32 other windows
    were fetched for the first time: the entry of a window is gone after
    that, and the next call for it asks the source again. *)
Theorem fetch_cache_evicts (self : nat) (quote : string) (f t : Z)
    (others : list (Z * Z)) (w : world) :
  (List.length (cache w) <= maxsize)%nat ->
  List.length others = maxsize -> NoDup others -> ~ In (f, t) others ->
  (forall o, In o others ->
     cache_find (self, quote, fst o, snd o) (cache w) = None) ->
  let w' := fetch_each net self quote others w in
  cache_find (self, quote, f, t) (cache w') = None /\
  (requests w' < requests (snd (_fetch_chunk net self quote f t w')))%nat.
Proof.
  intros Hcap Hlen Hnd Hnotin Hmiss w'.
  destruct (fetch_each_misses self quote others w Hcap Hnd Hmiss)
    as (entries & Hcache & Hkeys).
  assert (cache_find (self, quote, f, t) (cache w') = None) as Hgone.
  { subst w'. rewrite Hcache.
    assert (List.length entries = maxsize) as Hle.
    { rewrite <- (length_map fst), Hkeys, length_rev, length_map. exact Hlen. }
    rewrite firstn_app, Hle, Nat.sub_diag. cbn [firstn]. rewrite app_nil_r.
    rewrite <- Hle, firstn_all. apply cache_find_absent. rewrite Hkeys.
    rewrite <- in_rev. intros Hin. apply in_map_iff in Hin.
    destruct Hin as ([f' t'] & Heq & Hin). cbn [fst snd] in Heq.
    inversion Heq; subst. contradiction. }
  split; [exact Hgone |].
  destruct (fetch_chunk_miss net self quote f t w' Hgone)
    as (v & w1 & Hb & _ & _ & _ & _ & _ & Hcall).
  rewrite Hcall. cbn [snd with_cache requests].
  rewrite fetch_chunk_body_eq in Hb. unfold _fetch_data_with_retry in Hb.
  pose proof (retry_loop_result net quote f t 3 (seq 0 3) w') as Hres.
  destruct (retry_loop net quote f t 3 (seq 0 3) w') as [[[text |] | e] w2];
    cbn [fst snd List.length seq] in Hres; inversion Hb; subst w1.
  - destruct Hres as (i & Hi & Hreq & _). rewrite Hreq. lia.
  - destruct Hres as (Hreq & _). rewrite Hreq. lia.
  - destruct Hres as (i & Hi & _ & Hreq & _). rewrite Hreq. lia.
Qed.

End EvictionFacts.

Lemma fetch_cache_evicts_witness :
  let others := map (fun i => (Z.of_nat i, Z.of_nat i + 1)) (seq 1 32) in
  cache_find (0%nat, "GBPINR=X", 0, 1)
    (cache (fetch_each (flaky_source 0) 0 "GBPINR=X" others
              (snd (_fetch_chunk (flaky_source 0) 0 "GBPINR=X" 0 1 empty_world))))
  = None.
Proof.
  intros others.
  apply (fetch_cache_evicts (flaky_source 0) 0 "GBPINR=X" 0 1 others
           (snd (_fetch_chunk (flaky_source 0) 0 "GBPINR=X" 0 1 empty_world))).
  - vm_compute. lia.
  - reflexivity.
  - subst others. apply Finite.Injective_map_NoDup; [| apply seq_NoDup].
    intros x y H. inversion H. lia.
  - subst others. intros Hin. apply in_map_iff in Hin.
    destruct Hin as (i & Heq & Hin). apply in_seq in Hin. inversion Heq. lia.
  - subst others. intros o Hin. apply in_map_iff in Hin.
    destruct Hin as (i & <- & Hin). apply in_seq in Hin.
    cbn [fst snd]. apply cache_find_absent. cbn. intros [H | []].
    inversion H. lia.
Defined.

(* ===================================================================== *)
(** * Further properties of the parser                                    *)
(* ===================================================================== *)

Lemma row_records_first_seven (pair : string) (cols : list string) :
  row_records pair cols =
  if (7 <=? List.length cols)%nat then row_records pair (firstn 7 cols) else [].
Proof.
  unfold row_records at 1.
  destruct (Nat.leb_spec 7 (List.length cols)) as [Hlen | Hlen]; [| reflexivity].
  destruct (seven_cells cols Hlen)
    as (c0 & c1 & c2 & c3 & c4 & c5 & c6 & more & ->).
  unfold row_records. cbn [firstn List.length Nat.leb].
  rewrite !parse_row_seven. reflexivity.
Qed.

(** X8.  Only the first seven cells of a row are read, and rows with fewer
    than seven cells are as good as absent: the parse of any rows is the
    parse of the rows of at least seven cells cut down to seven. *)
Theorem parse_reads_seven_cells (pair : string) (rows : list (list string))
    (data : list rate_data) :
  parse_rows pair rows data =
  parse_rows pair
    (map (firstn 7) (filter (fun cols => (7 <=? List.length cols)%nat) rows)) data.
Proof.
  rewrite !parse_rows_total. f_equal. f_equal.
  induction rows as [| cols rows IH]; [reflexivity |].
  cbn [flat_map filter]. rewrite IH, (row_records_first_seven pair cols).
  destruct (7 <=? List.length cols)%nat; reflexivity.
Qed.

(** X9.  Parsing composes: when the rows found in a page are the rows of one
    page followed by the rows of another, its records are the records of the
    first followed by those of the second, and there are never more records
    than rows. *)
Theorem parse_of_joined_pages (soup_rows : string -> list (list string))
    (pair html1 html2 joined : string) :
  joined <> "" -> html1 <> "" -> html2 <> "" ->
  soup_rows joined = soup_rows html1 ++ soup_rows html2 ->
  records_of (parse_exchange_data soup_rows joined pair) =
  records_of (parse_exchange_data soup_rows html1 pair) ++
  records_of (parse_exchange_data soup_rows html2 pair) /\
  (List.length (records_of (parse_exchange_data soup_rows joined pair)) <=
   List.length (soup_rows joined))%nat.
Proof.
  intros Hj H1 H2 Hrows.
  assert (forall html, html <> "" ->
            records_of (parse_exchange_data soup_rows html pair) =
            flat_map (row_records pair) (soup_rows html)) as Hrec.
  { intros html Hne. rewrite parse_exchange_data_cases.
    destruct (String.eqb_spec html ""); [contradiction |].
    destruct (flat_map _ _); reflexivity. }
  rewrite !Hrec by assumption. rewrite Hrows, flat_map_app.
  split; [reflexivity |]. rewrite <- flat_map_app.
  generalize (soup_rows html1 ++ soup_rows html2). clear. intros rows.
  induction rows as [| cols rows IH]; [apply Nat.le_refl |].
  cbn [flat_map List.length]. rewrite length_app.
  assert (List.length (row_records pair cols) <= 1)%nat; [| lia].
  unfold row_records. destruct (7 <=? _)%nat; [| cbn; lia].
  destruct (parse_row pair cols) as [[r |] | e]; cbn; lia.
Qed.

Lemma parse_of_joined_pages_witness :
  records_of (parse_exchange_data lettered_soup "gbg" "GBPINR=X") =
  records_of (parse_exchange_data lettered_soup "g" "GBPINR=X") ++
  records_of (parse_exchange_data lettered_soup "bg" "GBPINR=X").
Proof.
  apply (parse_of_joined_pages lettered_soup "GBPINR=X" "g" "bg" "gbg");
    try discriminate. reflexivity.
Defined.

Lemma digit_char_injective (a b : Z) :
  0 <= a <= 9 -> 0 <= b <= 9 -> digit_char a = digit_char b -> a = b.
Proof.
  intros Ha Hb H. destruct (digit_char_spec a Ha) as (_ & Va & _).
  destruct (digit_char_spec b Hb) as (_ & Vb & _). rewrite <- Va, <- Vb, H.
  reflexivity.
Qed.

Lemma iso_text_injective (y m d y' m' d' : Z) :
  valid_date y m d = true -> valid_date y' m' d' = true ->
  iso_text (y, m, d) = iso_text (y', m', d') ->
  (y, m, d) = (y', m', d').
Proof.
  intros Hv Hv' H.
  pose proof (valid_date_bounds _ _ _ Hv) as (Hy & Hm & Hd).
  pose proof (valid_date_bounds _ _ _ Hv') as (Hy' & Hm' & Hd').
  apply (f_equal list_ascii_of_string) in H. unfold iso_text in H.
  rewrite !list_ascii_of_string_of_list_ascii in H.
  unfold zero_pad4, zero_pad2 in H. cbn [app] in H.
  destruct (decimal_digits y ltac:(lia)) as ((A1 & A2 & A3 & A4) & Ey).
  destruct (decimal_digits y' ltac:(lia)) as ((B1 & B2 & B3 & B4) & Ey').
  destruct (decimal_two_digits m ltac:(lia)) as ((M1 & M2) & Em).
  destruct (decimal_two_digits m' ltac:(lia)) as ((N1 & N2) & Em').
  destruct (decimal_two_digits d ltac:(lia)) as ((D1 & D2) & Ed).
  destruct (decimal_two_digits d' ltac:(lia)) as ((E1 & E2) & Ed').
  inversion H as [[H1 H2 H3 H4 H5 H6 H7 H8]].
  apply digit_char_injective in H1, H2, H3, H4, H5, H6, H7, H8; try assumption.
  assert (y = y') by lia. assert (m = m') by lia. assert (d = d') by lia.
  subst. reflexivity.
Qed.

Lemma digit_not_dash (k : Z) : 0 <= k <= 9 -> digit_char k <> "-"%char.
Proof.
  intros H E. destruct (digit_char_spec k H) as (Hd & _).
  rewrite E in Hd. discriminate Hd.
Qed.

(** The stored texts of two days differ, whatever the number of digits of
    their years. *)
Lemma strftime_injective (y m d y' m' d' : Z) :
  valid_date y m d = true -> valid_date y' m' d' = true ->
  strftime_Y_m_d (y, m, d) = strftime_Y_m_d (y', m', d') ->
  (y, m, d) = (y', m', d').
Proof.
  intros Hv Hv' H.
  pose proof (valid_date_bounds _ _ _ Hv) as (Hy & Hm & Hd).
  pose proof (valid_date_bounds _ _ _ Hv') as (Hy' & Hm' & Hd').
  apply (f_equal list_ascii_of_string) in H. unfold strftime_Y_m_d in H.
  rewrite !list_ascii_of_string_of_list_ascii in H.
  unfold year_text, zero_pad4, zero_pad2 in H.
  destruct (decimal_digits y ltac:(lia)) as ((A1 & A2 & A3 & A4) & Ey).
  destruct (decimal_digits y' ltac:(lia)) as ((B1 & B2 & B3 & B4) & Ey').
  destruct (decimal_two_digits m ltac:(lia)) as ((M1 & M2) & Em).
  destruct (decimal_two_digits m' ltac:(lia)) as ((N1 & N2) & Em').
  destruct (decimal_two_digits d ltac:(lia)) as ((D1 & D2) & Ed).
  destruct (decimal_two_digits d' ltac:(lia)) as ((E1 & E2) & Ed').
  destruct (Z.ltb_spec y 10) as [Y1 | Y1];
    [| destruct (Z.ltb_spec y 100) as [Y2 | Y2];
       [| destruct (Z.ltb_spec y 1000) as [Y3 | Y3]]];
    (destruct (Z.ltb_spec y' 10) as [Z1 | Z1];
     [| destruct (Z.ltb_spec y' 100) as [Z2 | Z2];
        [| destruct (Z.ltb_spec y' 1000) as [Z3 | Z3]]]);
    cbn [app] in H; inversion H;
    try match goal with
        | E : digit_char ?a = "-"%char |- _ =>
            exfalso; apply (digit_not_dash a); [lia | exact E]
        | E : "-"%char = digit_char ?a |- _ =>
            exfalso; apply (digit_not_dash a); [lia | symmetry; exact E]
        end;
    repeat match goal with
           | E : digit_char ?a = digit_char ?b |- _ =>
               apply digit_char_injective in E; [| lia ..]
           end;
    (assert (y = y') by lia); (assert (m = m') by lia); (assert (d = d') by lia);
    subst; reflexivity.
Qed.

(** X10.  The date text of a table row and the date stored for it: a cell
    accepted by ['%b %d, %Y'] with a year from 1000 on is stored in the
    shape YYYY-MM-DD and is read back by ['%Y-%m-%d'] as the midnight of
    that day; with an earlier year the stored text has the year without its
    leading zeros, is not of that shape and is refused by ['%Y-%m-%d'] with
    [ValueError]; in both cases two accepted cells get the same stored date
    only when they name the same day. *)
Theorem stored_date_round_trip (s1 s2 : string) (d1 d2 : Z * Z * Z) :
  strptime_b_d_Y s1 = Returned d1 -> strptime_b_d_Y s2 = Returned d2 ->
  iso_date (strftime_Y_m_d d1) = (1000 <=? fst (fst d1)) /\
  strptime_Y_m_d (strftime_Y_m_d d1) =
    (if 1000 <=? fst (fst d1)
     then Returned (datetime_of_date (fst (fst d1)) (snd (fst d1)) (snd d1))
     else Raised ValueError) /\
  (strftime_Y_m_d d1 = strftime_Y_m_d d2 -> d1 = d2).
Proof.
  destruct d1 as [[y m] d], d2 as [[y' m'] d']. intros H1 H2.
  apply strptime_b_d_Y_valid in H1, H2.
  destruct (stored_date_reads y m d H1) as [Hiso Hback].
  split; [exact Hiso |]. split; [exact Hback |].
  apply strftime_injective; assumption.
Qed.

Lemma stored_date_round_trip_witness :
  strptime_Y_m_d (strftime_Y_m_d (2024, 1, 5)) = Returned (datetime_of_date 2024 1 5)
  /\ strptime_Y_m_d (strftime_Y_m_d (999, 1, 5)) = Raised ValueError.
Proof.
  split.
  - destruct (stored_date_round_trip "Jan 5, 2024" "jan 05, 2024"
                (2024, 1, 5) (2024, 1, 5)) as (_ & H & _);
      [reflexivity | reflexivity | exact H].
  - reflexivity.
Defined.

(* ===================================================================== *)
(** * Further properties of the store                                     *)
(* ===================================================================== *)

Lemma overwrite_all_cons (d : rate_data) (rest : list rate_data) (r : row) :
  overwrite_all (d :: rest) r = overwrite_all rest (overwrite d r).
Proof. reflexivity. Qed.

Lemma overwrite_all_untouched (rates : list rate_data) (r : row) :
  (forall d, In d rates -> same_key d r = false) -> overwrite_all rates r = r.
Proof.
  revert r. induction rates as [| d rest IH]; intros r H; [reflexivity |].
  rewrite overwrite_all_cons. unfold overwrite.
  rewrite (H d (or_introl eq_refl)). apply IH.
  intros d' Hd'. apply H. right. exact Hd'.
Qed.

Lemma overwrite_all_identity (rates : list rate_data) (r : row) :
  id (overwrite_all rates r) = id r /\
  created_at (overwrite_all rates r) = created_at r /\
  row_key (overwrite_all rates r) = row_key r.
Proof.
  revert r. induction rates as [| d rest IH]; intros r; [repeat split |].
  rewrite overwrite_all_cons. destruct (IH (overwrite d r)) as (Hi & Hc & Hk).
  rewrite Hi, Hc, Hk, overwrite_key. destruct (overwrite_id d r) as [-> ->].
  repeat split.
Qed.

Lemma upsert_prefix (now : Z) (d : rate_data) (t : table) :
  firstn (List.length t) (upsert now d t) = map (overwrite d) t /\
  (List.length t <= List.length (upsert now d t))%nat.
Proof.
  unfold upsert. destruct (existsb (same_key d) t) eqn:E.
  - rewrite length_map. split; [| apply Nat.le_refl].
    rewrite <- (length_map (overwrite d) t). apply firstn_all.
  - rewrite firstn_app, Nat.sub_diag, firstn_all. cbn [firstn].
    rewrite app_nil_r, length_app. split; [| lia].
    symmetry. rewrite <- (map_id t) at 2. apply map_ext_in. intros r Hr.
    unfold overwrite. destruct (same_key d r) eqn:Hk; [| reflexivity].
    assert (existsb (same_key d) t = true)
      by (apply existsb_exists; exists r; auto).
    congruence.
Qed.

Lemma upsert_all_prefix (clk : nat -> Z) (rates : list rate_data) :
  forall n t,
    firstn (List.length t) (upsert_all clk n rates t) = map (overwrite_all rates) t /\
    (List.length t <= List.length (upsert_all clk n rates t))%nat.
Proof.
  induction rates as [| d rest IH]; intros n t.
  - cbn [upsert_all]. rewrite firstn_all. split; [| apply Nat.le_refl].
    symmetry. apply map_id.
  - cbn [upsert_all].
    destruct (upsert_prefix (clk n) d t) as [Hp Hl].
    destruct (IH (S n) (upsert (clk n) d t)) as [Hp' Hl'].
    split; [| lia].
    replace (List.length t)
      with (Nat.min (List.length t) (List.length (upsert (clk n) d t))) by lia.
    rewrite <- firstn_firstn, Hp', firstn_map, Hp, map_map. reflexivity.
Qed.

Section StoreExtras.

Variable db_fault : nat -> option exn.
Variable utcnow : nat -> Z.

(** X11.  A save never removes or moves a stored row: the rows stored before
    keep their place, their [id] and their [created_at], the rows whose key
    is not in the batch are left exactly as they were, and new rows come
    after them. *)
Theorem save_keeps_rows (rates : list rate_data) (w w1 : world) :
  save_to_database db_fault utcnow rates w = (Returned tt, w1) ->
  firstn (List.length (db w)) (db w1) = map (overwrite_all rates) (db w) /\
  (List.length (db w) <= List.length (db w1))%nat /\
  map id (firstn (List.length (db w)) (db w1)) = map id (db w) /\
  map created_at (firstn (List.length (db w)) (db w1)) = map created_at (db w) /\
  (forall r, In r (db w) -> (forall d, In d rates -> same_key d r = false) ->
             In r (db w1)).
Proof.
  intros Hsave. pose proof (save_cases db_fault utcnow rates w) as Hc.
  rewrite Hsave in Hc. destruct Hc as (Hdb & _).
  destruct (upsert_all_prefix utcnow rates (db_ops w) (db w)) as [Hp Hl].
  rewrite <- Hdb in Hp, Hl.
  split; [exact Hp |]. split; [exact Hl |]. rewrite Hp, !map_map.
  split; [apply map_ext; intros r; apply overwrite_all_identity |].
  split; [apply map_ext; intros r; apply overwrite_all_identity |].
  intros r Hin Hother.
  rewrite <- (firstn_skipn (List.length (db w)) (db w1)), Hp.
  apply in_or_app. left. rewrite <- (overwrite_all_untouched rates r Hother).
  apply in_map. exact Hin.
Qed.

End StoreExtras.

Lemma save_keeps_rows_witness :
  let a := sample_rate "GBPINR=X" "2024-01-05" 10548 0 in
  let b := sample_rate "AEDINR=X" "2024-01-05" 2262 0 in
  let w1 := snd (save_to_database no_faults sample_clock [a] empty_world) in
  let w2 := snd (save_to_database no_faults sample_clock [b] w1) in
  firstn (List.length (db w1)) (db w2) = map (overwrite_all [b]) (db w1).
Proof.
  intros a b w1 w2.
  apply (save_keeps_rows no_faults sample_clock [b] w1 w2). reflexivity.
Defined.

Lemma last_with_key_step (k : string * string) (rates : list rate_data)
    (acc : option rate_data) (r : row) :
  row_key r = k ->
  acc = None \/ (exists d0, acc = Some d0 /\ fields r = as_stored d0) ->
  match fold_left
          (fun acc d =>
             if String.eqb (currency_pair d) (fst k) && String.eqb (date d) (snd k)
             then Some d else acc) rates acc with
  | Some d => fields (overwrite_all rates r) = as_stored d
  | None => fields (overwrite_all rates r) = fields r /\ acc = None
  end.
Proof.
  revert acc r. induction rates as [| d rest IH]; intros acc r Hk Hacc.
  - cbn. destruct Hacc as [-> | (d0 & -> & Hf)]; [split; reflexivity | exact Hf].
  - cbn [fold_left]. rewrite overwrite_all_cons.
    assert (String.eqb (currency_pair d) (fst k) && String.eqb (date d) (snd k)
            = same_key d r) as Htest.
    { subst k. unfold same_key, row_key. cbn [fst snd].
      rewrite (String.eqb_sym (currency_pair d)), (String.eqb_sym (date d)).
      reflexivity. }
    rewrite Htest. unfold overwrite. destruct (same_key d r) eqn:Hs.
    + specialize (IH (Some d) (mkRow (id r) (as_stored d) (created_at r))).
      apply same_key_iff in Hs.
      assert (row_key (mkRow (id r) (as_stored d) (created_at r)) = k) as Hk'
        by (rewrite <- Hk, Hs; reflexivity).
      specialize (IH Hk' (or_intror (ex_intro _ d (conj eq_refl eq_refl)))).
      revert IH.
      match goal with
      | |- match ?a with Some _ => _ | None => _ end ->
           match ?b with Some _ => _ | None => _ end =>
          change b with a; destruct a
      end; intros IH; [exact IH |].
      destruct IH as [_ Hbad]. discriminate Hbad.
    + specialize (IH acc r Hk Hacc). exact IH.
Qed.

Lemma last_with_key_found (d : rate_data) (rates : list rate_data) :
  In d rates -> last_with_key (key_of d) rates <> None.
Proof.
  unfold last_with_key.
  set (step := fun (acc : option rate_data) (d0 : rate_data) =>
                 if String.eqb (currency_pair d0) (fst (key_of d))
                    && String.eqb (date d0) (snd (key_of d))
                 then Some d0 else acc).
  assert (forall rest d0, fold_left step rest (Some d0) <> None) as Hsome.
  { induction rest as [| d' rest IH]; intros d0; [discriminate |].
    cbn [fold_left]. unfold step at 2. destruct (_ && _); apply IH. }
  assert (forall acc, In d rates -> fold_left step rates acc <> None) as Hall.
  { induction rates as [| d' rest IH]; intros acc Hin; [destruct Hin |].
    cbn [fold_left]. destruct Hin as [-> | Hin]; [| apply IH, Hin].
    unfold step at 2. unfold key_of. cbn [fst snd].
    rewrite !String.eqb_refl. cbn [andb]. apply Hsome. }
  apply Hall.
Qed.

(** A record without a NaN rate is stored as it is given. *)
Lemma stored_as_given (r : row) (d : rate_data) :
  fields r = as_stored d -> no_nan d -> holds_values r d.
Proof.
  intros Hf (Ho & Hh & Hl & Hc & Ha). unfold holds_values. rewrite Hf.
  unfold as_stored, sqlite_real.
  destruct (open_rate d); try contradiction;
    destruct (high_rate d); try contradiction;
    destruct (low_rate d); try contradiction;
    destruct (close_rate d); try contradiction;
    destruct (adj_close d); try contradiction; reflexivity.
Qed.

Section StoreExtrasMore.

Variable db_fault : nat -> option exn.
Variable utcnow : nat -> Z.

(** X12.  Inside one batch the last record for a key wins: after a save
    that returned, every record of the batch has a row with its key, and a
    row whose key occurs in the batch holds the last record of the batch for
    that key as the table stores it, a NaN rate as [NULL] and the other
    values as given. *)
Theorem save_last_record_wins (rates : list rate_data) (w w1 : world) :
  save_to_database db_fault utcnow rates w = (Returned tt, w1) ->
  (forall d, In d rates ->
     last_with_key (key_of d) rates <> None /\
     exists r, In r (db w1) /\ row_key r = key_of d) /\
  (forall r d, In r (db w1) -> last_with_key (row_key r) rates = Some d ->
     fields r = as_stored d /\ (no_nan d -> holds_values r d)).
Proof.
  intros Hsave. pose proof (save_cases db_fault utcnow rates w) as Hc.
  rewrite Hsave in Hc. destruct Hc as (Hdb & _). split.
  - intros d Hin. split; [apply last_with_key_found, Hin |].
    pose proof (upsert_all_stores utcnow rates (db_ops w) (db w) d Hin) as Hex.
    rewrite <- Hdb in Hex. apply existsb_exists in Hex.
    destruct Hex as (r & Hr & Hk). exists r. split; [exact Hr |].
    apply same_key_iff, Hk.
  - intros r d Hin Hlast. rewrite Hdb in Hin.
    pose proof (upsert_all_settled utcnow rates _ _ _ Hin) as Hset.
    pose proof (last_with_key_step (row_key r) rates None r eq_refl
                  (or_introl eq_refl)) as Hstep.
    unfold last_with_key in Hlast. rewrite Hlast in Hstep.
    rewrite Hset in Hstep. split; [exact Hstep |].
    intros Hnn. apply stored_as_given; assumption.
Qed.

Lemma next_id_fresh (t : table) : ~ In (next_id t) (map id t).
Proof.
  assert (forall x, In x (map id t) -> x <= fold_right Z.max 0 (map id t)) as Hmax.
  { induction (map id t) as [| y l IH]; intros x Hin; [destruct Hin |].
    cbn [fold_right]. destruct Hin as [-> | Hin]; [lia |].
    specialize (IH x Hin). lia. }
  intros Hin. apply Hmax in Hin. unfold next_id in Hin. lia.
Qed.

Lemma upsert_ids_distinct (now : Z) (d : rate_data) (t : table) :
  NoDup (map id t) -> NoDup (map id (upsert now d t)).
Proof.
  intros H. unfold upsert. destruct (existsb (same_key d) t).
  - rewrite map_map. erewrite map_ext; [exact H |]. intros r. apply overwrite_id.
  - rewrite map_app. cbn [map id].
    apply (Permutation_NoDup (l := next_id t :: map id t)).
    + apply Permutation_cons_append.
    + constructor; [apply next_id_fresh | exact H].
Qed.

(** X13.  The primary keys stay distinct: when no two stored rows share an
    [id], none do after a save, whether it returned or raised. *)
Theorem save_keeps_ids_distinct (rates : list rate_data) (w : world) :
  NoDup (map id (db w)) ->
  NoDup (map id (db (snd (save_to_database db_fault utcnow rates w)))).
Proof.
  intros Hnd. pose proof (save_cases db_fault utcnow rates w) as Hc.
  destruct (save_to_database db_fault utcnow rates w) as [[u | e] w1]; cbn [snd].
  - destruct Hc as (Hdb & _). rewrite Hdb. clear Hdb.
    generalize (db_ops w). revert Hnd. generalize (db w).
    induction rates as [| d rest IH]; intros t Hnd n; [exact Hnd |].
    cbn [upsert_all]. apply IH, upsert_ids_distinct, Hnd.
  - destruct Hc as (Hdb & _). rewrite Hdb. exact Hnd.
Qed.

End StoreExtrasMore.

Lemma save_last_record_wins_witness :
  let a := sample_rate "GBPINR=X" "2024-01-05" 10548 0 in
  let b := sample_rate "GBPINR=X" "2024-01-05" 10611 350 in
  let w1 := snd (save_to_database no_faults sample_clock [a; b] empty_world) in
  (forall d, In d [a; b] ->
     last_with_key (key_of d) [a; b] <> None /\
     exists r, In r (db w1) /\ row_key r = key_of d) /\
  (forall r d, In r (db w1) -> last_with_key (row_key r) [a; b] = Some d ->
     fields r = as_stored d /\ (no_nan d -> holds_values r d)).
Proof.
  intros a b w1.
  apply (save_last_record_wins no_faults sample_clock [a; b] empty_world w1).
  reflexivity.
Defined.

Lemma save_keeps_ids_distinct_witness :
  NoDup (map id (db (snd (save_to_database no_faults sample_clock
                            [sample_rate "GBPINR=X" "2024-01-05" 10548 0;
                             sample_rate "GBPINR=X" "2024-01-04" 10530 0]
                            empty_world)))).
Proof.
  apply (save_keeps_ids_distinct no_faults sample_clock _ empty_world). constructor.
Defined.

(** ** The statements about the store *)

(** C4.  [save_to_database] applies a batch in one transaction.  When it
    returns, the whole batch is committed: every record of the batch has a
    row with its key that holds the last record of the batch for that key,
    and the rows of other keys are still there; when a statement or the
    commit fails, the table holds exactly what it held before and the
    exception reaches the caller; it returns when nothing fails, and the
    empty batch returns at once and changes nothing. *)
Theorem save_atomic (db_fault : nat -> option exn) (utcnow : nat -> Z)
    (rates : list rate_data) (w : world) :
  save_to_database db_fault utcnow [] w = (Returned tt, w) /\
  (forall r w', save_to_database db_fault utcnow rates w = (r, w') ->
     match r with
     | Returned _ =>
         db w' = upsert_all utcnow (db_ops w) rates (db w) /\
         (forall d, In d rates ->
            exists row last,
              In row (db w') /\ row_key row = key_of d /\
              last_with_key (key_of d) rates = Some last /\
              fields row = as_stored last) /\
         (forall row, In row (db w) ->
            (forall d, In d rates -> same_key d row = false) -> In row (db w'))
     | Raised e =>
         db w' = db w /\
         exists i, (i <= List.length rates)%nat /\
                   db_fault (db_ops w + i)%nat = Some e
     end) /\
  (no_fault db_fault (db_ops w) (List.length rates) ->
   exists w', save_to_database db_fault utcnow rates w = (Returned tt, w')) /\
  (rates <> [] ->
   (exists i, (i <= List.length rates)%nat /\ db_fault (db_ops w + i)%nat <> None) ->
   exists e w', save_to_database db_fault utcnow rates w = (Raised e, w') /\
                db w' = db w).
Proof.
  split; [reflexivity |]. split; [| split].
  - intros r w' H. pose proof (save_cases db_fault utcnow rates w) as Hc.
    rewrite H in Hc. destruct r as [u | e].
    + destruct Hc as (Hdb & _). split; [exact Hdb |]. split.
      * intros d Hin.
        pose proof (upsert_all_stores utcnow rates (db_ops w) (db w) d Hin) as Hex.
        rewrite <- Hdb in Hex. apply existsb_exists in Hex.
        destruct Hex as (row & Hrow & Hk). apply same_key_iff in Hk.
        destruct (last_with_key (key_of d) rates) as [last |] eqn:Hlast;
          [| exfalso; exact (last_with_key_found d rates Hin Hlast)].
        exists row, last. split; [exact Hrow |]. split; [exact Hk |].
        split; [reflexivity |].
        rewrite Hdb in Hrow.
        pose proof (upsert_all_settled utcnow rates _ _ _ Hrow) as Hset.
        pose proof (last_with_key_step (row_key row) rates None row eq_refl
                      (or_introl eq_refl)) as Hstep.
        rewrite Hk in Hstep. unfold last_with_key in Hlast.
        rewrite Hlast, Hset in Hstep. exact Hstep.
      * intros row Hin Hother.
        destruct (upsert_all_prefix utcnow rates (db_ops w) (db w)) as [Hp _].
        rewrite <- Hdb in Hp.
        rewrite <- (firstn_skipn (List.length (db w)) (db w')), Hp.
        apply in_or_app. left. rewrite <- (overwrite_all_untouched rates row Hother).
        apply in_map. exact Hin.
    + destruct Hc as (Hdb & _ & Hex & _). split; assumption.
  - apply save_returns.
  - intros Hne Hex. destruct (save_raises db_fault utcnow rates w Hne Hex) as (e & w' & H).
    exists e, w'. split; [exact H |].
    pose proof (save_cases db_fault utcnow rates w) as Hc. rewrite H in Hc. apply Hc.
Qed.

Lemma save_atomic_witness :
  (exists w', save_to_database no_faults sample_clock
                [sample_rate "GBPINR=X" "2024-01-05" 10548 0;
                 sample_rate "GBPINR=X" "2024-01-04" 10530 1200] empty_world
              = (Returned tt, w')) /\
  (exists e w', save_to_database (fault_at 1 SQLAlchemyError) sample_clock
                  [sample_rate "GBPINR=X" "2024-01-05" 10548 0;
                   sample_rate "GBPINR=X" "2024-01-04" 10530 1200] empty_world
                = (Raised e, w') /\ db w' = db empty_world).
Proof.
  split.
  - apply (save_atomic no_faults sample_clock _ empty_world).
    intros i _. reflexivity.
  - apply (save_atomic (fault_at 1 SQLAlchemyError) sample_clock _ empty_world).
    + discriminate.
    + exists 1%nat. split; [cbn; lia | discriminate].
Defined.

(** A rate that is a NaN is stored as [NULL]: after a record and then, for
    the same key, a record whose close rate is a NaN were saved, the row
    does not hold the values of the second. *)
Lemma nan_rate_stored_as_null :
  ~ last_write_as_stated no_faults sample_clock
      (sample_rate "GBPINR=X" "2024-01-05" 10548 0) nan_close empty_world.
Proof.
  intros H.
  set (a := sample_rate "GBPINR=X" "2024-01-05" 10548 0) in *.
  set (w1 := snd (save_to_database no_faults sample_clock [a] empty_world)).
  specialize (H eq_refl w1
                (snd (save_to_database no_faults sample_clock [nan_close] w1))
                (mkRow 1 (as_stored nan_close) 1000)
                eq_refl eq_refl (or_introl eq_refl) eq_refl).
  unfold holds_values in H. discriminate H.
Qed.

(** C3 (as the code has it).  Saving is idempotent and the last write wins:
    once a batch has been saved, saving it again leaves the table as it is,
    at whatever time and whether or not the second call fails; the keys stay
    without duplicates; and a record saved for a key that is already stored
    replaces the eight data columns of the row by its values as the table
    stores them (a NaN rate as [NULL], every other value as given) and
    leaves its [id] and [created_at], which the first insert set from the
    clock. *)
Theorem save_idempotent_last_write_wins (db_fault : nat -> option exn)
    (utcnow : nat -> Z) :
  (forall rates w w1 w2,
     save_to_database db_fault utcnow rates w = (Returned tt, w1) ->
     db w2 = db w1 ->
     db (snd (save_to_database db_fault utcnow rates w2)) = db w1) /\
  (forall rates w,
     NoDup (map row_key (db w)) ->
     NoDup (map row_key (db (snd (save_to_database db_fault utcnow rates w))))) /\
  (forall a b w w1 w2 w3,
     key_of a = key_of b ->
     save_to_database db_fault utcnow [a] w = (Returned tt, w1) ->
     db w2 = db w1 ->
     save_to_database db_fault utcnow [b] w2 = (Returned tt, w3) ->
     db w3 = map (overwrite b) (db w1) /\
     (exists r, In r (db w3) /\ row_key r = key_of b) /\
     (forall r, In r (db w3) -> row_key r = key_of b ->
        fields r = as_stored b /\ (no_nan b -> holds_values r b)) /\
     map id (db w3) = map id (db w1) /\
     map created_at (db w3) = map created_at (db w1)) /\
  (forall a w w1,
     save_to_database db_fault utcnow [a] w = (Returned tt, w1) ->
     existsb (same_key a) (db w) = false ->
     db w1 = db w ++ [mkRow (next_id (db w)) (as_stored a) (utcnow (db_ops w))]).
Proof.
  split; [| split; [| split]].
  - intros rates w w1 w2 H1 H2.
    pose proof (save_cases db_fault utcnow rates w) as Hc1. rewrite H1 in Hc1.
    destruct Hc1 as (Hdb1 & _).
    pose proof (save_cases db_fault utcnow rates w2) as Hc2.
    destruct (save_to_database db_fault utcnow rates w2) as [[u | e] w3]; cbn [snd].
    + destruct Hc2 as (Hdb3 & _). rewrite Hdb3, H2, Hdb1. apply upsert_all_twice.
    + destruct Hc2 as (Hdb3 & _). rewrite Hdb3. exact H2.
  - intros rates w Hnd.
    pose proof (save_cases db_fault utcnow rates w) as Hc.
    destruct (save_to_database db_fault utcnow rates w) as [[u | e] w1]; cbn [snd].
    + destruct Hc as (Hdb & _). rewrite Hdb. apply upsert_all_nodup, Hnd.
    + destruct Hc as (Hdb & _). rewrite Hdb. exact Hnd.
  - intros a b w w1 w2 w3 Hkey H1 H2 H3.
    pose proof (save_cases db_fault utcnow [a] w) as Hc1. rewrite H1 in Hc1.
    destruct Hc1 as (Hdb1 & _). cbn [upsert_all] in Hdb1.
    pose proof (save_cases db_fault utcnow [b] w2) as Hc2. rewrite H3 in Hc2.
    destruct Hc2 as (Hdb3 & _). cbn [upsert_all] in Hdb3. rewrite H2 in Hdb3.
    assert (forall r, same_key b r = same_key a r) as Hsame.
    { intros r. unfold same_key, key_of in *. inversion Hkey as [[Hp Hd]].
      rewrite Hp, Hd. reflexivity. }
    assert (existsb (same_key b) (db w1) = true) as Hex.
    { rewrite (existsb_pointwise _ _ Hsame), Hdb1. apply upsert_stores. }
    rewrite upsert_present in Hdb3 by exact Hex.
    split; [exact Hdb3 |]. rewrite Hdb3. repeat split.
    + apply existsb_exists in Hex. destruct Hex as (r1 & Hr1 & Hk1).
      exists (overwrite b r1). split; [apply in_map, Hr1 |].
      rewrite overwrite_key. apply same_key_iff, Hk1.
    + apply in_map_iff in H. destruct H as (r0 & <- & _).
      rewrite overwrite_key in H0. apply same_key_iff in H0.
      unfold overwrite. rewrite H0. reflexivity.
    + intros Hnn. apply stored_as_given; [| exact Hnn].
      apply in_map_iff in H. destruct H as (r0 & <- & _).
      rewrite overwrite_key in H0. apply same_key_iff in H0.
      unfold overwrite. rewrite H0. reflexivity.
    + rewrite map_map. apply map_ext. intros r. apply overwrite_id.
    + rewrite map_map. apply map_ext. intros r. apply overwrite_id.
  - intros a w w1 H1 Habs.
    pose proof (save_cases db_fault utcnow [a] w) as Hc1. rewrite H1 in Hc1.
    destruct Hc1 as (Hdb1 & _). cbn [upsert_all] in Hdb1.
    rewrite Hdb1. apply upsert_absent, Habs.
Qed.

Lemma save_idempotent_last_write_wins_witness :
  let a := sample_rate "GBPINR=X" "2024-01-05" 10548 0 in
  let b := sample_rate "GBPINR=X" "2024-01-05" 10611 350 in
  let w1 := snd (save_to_database no_faults sample_clock [a] empty_world) in
  let w3 := snd (save_to_database no_faults sample_clock [b] w1) in
  db (snd (save_to_database no_faults sample_clock [a] w1)) = db w1 /\
  db w3 = map (overwrite b) (db w1) /\
  db w1 = db empty_world ++ [mkRow 1 (as_stored a) 1000].
Proof.
  intros a b w1 w3.
  destruct (save_idempotent_last_write_wins no_faults sample_clock)
    as (Hidem & _ & Hlast & Hfirst).
  split; [| split].
  - apply (Hidem [a] empty_world w1 w1); reflexivity.
  - apply (Hlast a b empty_world w1 w1 w3); reflexivity.
  - apply (Hfirst a empty_world w1); reflexivity.
Defined.

(* ===================================================================== *)
(** * Further properties of the orchestration                             *)
(* ===================================================================== *)

Section TaskFacts.

Variable soup_rows : string -> list (list string).
Variable net : nat -> string -> Z -> Z -> http_outcome.
Variable db_fault : nat -> option exn.
Variable utcnow : nat -> Z.
Variable completion : list (nat * (Z * Z)) -> list (nat * (Z * Z)).
Variable localtime : Z -> option Z.

Lemma fetch_chunk_effects (self : nat) (quote : string) (f t : Z) (w : world) :
  exists v w1,
    _fetch_chunk net self quote f t w = (Returned v, w1) /\
    db w1 = db w /\ db_ops w1 = db_ops w /\ scrapers w1 = scrapers w /\
    (requests w <= requests w1 <= requests w + 3)%nat.
Proof.
  destruct (cache_find (self, quote, f, t) (cache w)) as [v0 |] eqn:Hfind.
  - rewrite (fetch_chunk_hit net _ _ _ _ _ _ Hfind). eexists; eexists.
    split; [reflexivity |]. cbn. repeat split; lia.
  - destruct (fetch_chunk_miss net self quote f t w Hfind)
      as (v & w1 & Hb & Hc & Hd & Ho & Hs & Hr & Hcall).
    rewrite Hcall. eexists; eexists. split; [reflexivity |].
    cbn [with_cache db db_ops scrapers requests].
    split; [exact Hd |]. split; [exact Ho |]. split; [exact Hs |].
    split; [exact Hr |].
    rewrite fetch_chunk_body_eq in Hb. unfold _fetch_data_with_retry in Hb.
    pose proof (retry_loop_result net quote f t 3 (seq 0 3) w) as Hres.
    destruct (retry_loop net quote f t 3 (seq 0 3) w) as [[[text |] | e] w2];
      cbn [fst snd List.length seq] in Hres; inversion Hb; subst w1.
    + destruct Hres as (i & Hi & Hreq & _). rewrite Hreq. lia.
    + destruct Hres as (Hreq & _). rewrite Hreq. lia.
    + destruct Hres as (i & Hi & _ & Hreq & _). rewrite Hreq. lia.
Qed.

(** What one chunk task does, in terms of its fetch. *)
Lemma task_effects (self : nat) (quote : string) (f t : Z) (i n : nat) (w : world) :
  exists v w1 r w',
    _fetch_chunk net self quote f t w = (Returned v, w1) /\
    _fetch_and_save_chunk soup_rows net db_fault utcnow self quote f t i n w
    = (r, w') /\
    requests w' = requests w1 /\ cache w' = cache w1 /\ scrapers w' = scrapers w /\
    (requests w <= requests w' <= requests w + 3)%nat /\
    (truthy_str v = false -> r = Returned v /\ w' = w1) /\
    match r with
    | Returned v' => v' = v
    | Raised e => db w' = db w /\ exists k, db_fault k = Some e
    end.
Proof.
  destruct (fetch_chunk_effects self quote f t w)
    as (v & w1 & Hf & Hd & Ho & Hs & Hr).
  unfold _fetch_and_save_chunk, mbind, lift, ret. rewrite Hf.
  exists v, w1.
  destruct (truthy_str v) eqn:Htruthy.
  2:{ eexists; eexists. split; [reflexivity |]. split; [reflexivity |].
      repeat split; try assumption; try lia. }
  destruct v as [html |]; [| discriminate].
  destruct (parse_exchange_data_returns soup_rows html quote) as (res & Hres & _).
  rewrite Hres.
  destruct res as [[| r0 rs] |];
    try (eexists; eexists; split; [reflexivity |]; split; [reflexivity |];
         repeat split; try assumption; try lia; discriminate).
  pose proof (save_cases db_fault utcnow (r0 :: rs) w1) as Hc.
  destruct (save_to_database db_fault utcnow (r0 :: rs) w1) as [[u | e] w2].
  - destruct Hc as (_ & _ & (Hq & _ & Hca & Hsc)).
    eexists; eexists. split; [reflexivity |]. split; [reflexivity |].
    repeat split; try assumption; try lia; try congruence; discriminate.
  - destruct Hc as (Hdb & _ & (k & _ & Hk) & (Hq & _ & Hca & Hsc)).
    eexists; eexists. split; [reflexivity |]. split; [reflexivity |].
    split; [exact Hq |]. split; [exact Hca |]. split; [congruence |].
    split; [lia |]. split; [discriminate |].
    split; [congruence | exists (db_ops w1 + k)%nat; exact Hk].
Qed.

(** X14.  A chunk task hands back what its fetch gave; it raises only when a
    database operation failed, and then it has stored nothing; without a
    page it leaves the database alone; and it makes at most three fetch
    attempts. *)
Theorem chunk_task_behaviour (self : nat) (quote : string) (f t : Z) (i n : nat)
    (w : world) :
  let fetched := _fetch_chunk net self quote f t w in
  let done := _fetch_and_save_chunk soup_rows net db_fault utcnow
                self quote f t i n w in
  (forall v, fst done = Returned v -> fst fetched = Returned v) /\
  (forall e, fst done = Raised e ->
     db (snd done) = db w /\ exists k, db_fault k = Some e) /\
  (forall v, fst fetched = Returned v -> truthy_str v = false ->
     done = fetched /\ db (snd done) = db w /\ db_ops (snd done) = db_ops w) /\
  (requests (snd done) <= requests w + 3)%nat.
Proof.
  intros fetched done. subst fetched done.
  destruct (task_effects self quote f t i n w)
    as (v & w1 & r & w' & Hf & Ht & Hq & Hca & Hsc & Hr & Hnone & Hres).
  destruct (fetch_chunk_effects self quote f t w)
    as (v2 & w2 & Hf2 & Hd & Ho & _).
  rewrite Hf in Hf2. inversion Hf2; subst v2 w2.
  rewrite Hf, Ht. cbn [fst snd]. split; [| split; [| split]].
  - intros v' H. subst r. congruence.
  - intros e H. subst r. exact Hres.
  - intros v' H Htr. inversion H; subst v'.
    destruct (Hnone Htr) as [-> ->]. repeat split; assumption.
  - lia.
Qed.

(** What the collecting loop adds: at most one page for each future, none
    of them empty, for at most three attempts each. *)
Lemma collect_effects (self : nat) (quote : string) (total_chunks : nat)
    (done : list (nat * (Z * Z))) :
  forall data w,
  exists added,
    fst (collect soup_rows net db_fault utcnow self quote total_chunks done data w)
    = data ++ added /\
    (List.length added <= List.length done)%nat /\
    Forall (fun page => page <> "") added /\
    (requests (snd (collect soup_rows net db_fault utcnow self quote total_chunks
                      done data w))
     <= requests w + 3 * List.length done)%nat.
Proof.
  induction done as [| [i [f t]] rest IH]; intros data w.
  - exists []. cbn. rewrite app_nil_r.
    split; [reflexivity |]. split; [lia |]. split; [constructor | lia].
  - cbn [collect].
    destruct (task_effects self quote f t (i + 1) total_chunks w)
      as (v & w1 & r & w' & _ & Ht & _ & _ & _ & Hr & _ & _).
    rewrite Ht. destruct r as [page | e].
    + destruct (truthy_str page) eqn:Htr.
      * destruct page as [html |]; [| discriminate].
        destruct (IH (data ++ [html]) w') as (added & Ha & Hl & Hne & Hq).
        exists (html :: added). rewrite Ha, <- app_assoc. cbn [List.length].
        split; [reflexivity |]. split; [lia |]. split; [| lia].
        constructor; [| exact Hne]. intros ->. discriminate.
      * destruct (IH data w') as (added & Ha & Hl & Hne & Hq).
        exists added. cbn [List.length]. repeat split; try assumption; lia.
    + destruct (IH data w') as (added & Ha & Hl & Hne & Hq).
      exists added. cbn [List.length]. repeat split; try assumption; lia.
Qed.

Lemma enumerate_length {A} (l : list A) : List.length (enumerate l) = List.length l.
Proof. unfold enumerate. rewrite length_combine, length_seq. lia. Qed.

(** X15.  For bounds that are instants of [datetime], [get_exchange_data]
    makes at most three attempts for each window of its plan, and what it
    returns is [None] or the pages of some of the windows, none of them
    empty, joined by line breaks. *)
Theorem get_exchange_data_bounds (self : nat) (quote : string) (f t : Z) (w : world) :
  (forall l, List.length (completion l) = List.length l) ->
  in_datetime_range localtime f = true ->
  in_datetime_range localtime t = true ->
  exists pages,
    fst (get_exchange_data soup_rows net db_fault utcnow completion localtime
           self quote f t w)
    = Returned (match pages with
                | [] => None
                | _ => Some (String.concat newline pages)
                end) /\
    (List.length pages <= List.length (Planner.plan f t))%nat /\
    Forall (fun page => page <> "") pages /\
    (requests (snd (get_exchange_data soup_rows net db_fault utcnow completion
                      localtime self quote f t w))
     <= requests w + 3 * List.length (Planner.plan f t))%nat.
Proof.
  intros Hlen Hf Ht.
  rewrite (get_exchange_data_in_range soup_rows net db_fault utcnow completion
             localtime self quote f t w Hf Ht).
  unfold run_chunks.
  destruct (collect_effects self quote (List.length (Planner.plan f t))
              (completion (enumerate (Planner.plan f t))) [] w)
    as (added & Ha & Hl & Hne & Hq).
  rewrite Hlen, enumerate_length in Hl, Hq. cbn [app] in Ha.
  destruct (collect _ _ _ _ _ _ _ _ _ _) as [all_data w1]. cbn [fst snd] in *.
  subst all_data. exists added.
  destruct added as [| x l]; cbn [fst snd]; repeat split; assumption.
Qed.

End TaskFacts.

Lemma get_exchange_data_bounds_witness :
  (requests (snd (get_exchange_data sample_soup (flaky_source 3) no_faults
                    sample_clock in_order utc 0 "GBPINR=X" 1700000000 1708985600
                    empty_world))
   <= requests empty_world
      + 3 * List.length (Planner.plan 1700000000 1708985600))%nat.
Proof.
  destruct (get_exchange_data_bounds sample_soup (flaky_source 3) no_faults
              sample_clock in_order utc 0 "GBPINR=X" 1700000000 1708985600
              empty_world)
    as (pages & _ & _ & _ & Hq).
  - intros l. reflexivity.
  - reflexivity.
  - reflexivity.
  - exact Hq.
Defined.

Section PairFacts.

Variable soup_rows : string -> list (list string).
Variable net : nat -> string -> Z -> Z -> http_outcome.
Variable db_fault : nat -> option exn.
Variable utcnow : nat -> Z.
Variable completion : list (nat * (Z * Z)) -> list (nat * (Z * Z)).
Variable now utc_offset : Z.
Variable localtime : Z -> option Z.

(** An earlier start keeps at least the records of a later one. *)
Lemma period_records_mono (s1 s2 : Z) (recs : list rate_data) :
  s1 <= s2 ->
  forall l1 l2,
    period_records s1 recs = Returned l1 ->
    period_records s2 recs = Returned l2 ->
    (List.length l2 <= List.length l1)%nat.
Proof.
  intros Hle. induction recs as [| r recs IH]; intros l1 l2 H1 H2.
  - cbn in H1, H2. inversion H1; inversion H2. apply Nat.le_refl.
  - cbn [period_records] in H1, H2. unfold bind in H1, H2.
    destruct (strptime_Y_m_d (date r)) as [t | e]; [| discriminate].
    destruct (period_records s1 recs) as [m1 | e]; [| discriminate].
    destruct (period_records s2 recs) as [m2 | e]; [| discriminate].
    specialize (IH m1 m2 eq_refl eq_refl).
    inversion H1; inversion H2.
    destruct (s1 <=? t) eqn:E1; destruct (s2 <=? t) eqn:E2; cbn [List.length]; lia.
Qed.

(** Over records whose dates read back, the loop over the five periods
    gives five counts that do not decrease. *)
Lemma period_loop_periods (end_date : Z) (recs : list rate_data) :
  timedelta_days 365 <= end_date ->
  Forall (fun r => exists t, strptime_Y_m_d (date r) = Returned t) recs ->
  exists a b c d e,
    period_loop end_date recs periods [] = Returned (success_entries a b c d e) /\
    (a <= b)%nat /\ (b <= c)%nat /\ (c <= d)%nat /\ (d <= e)%nat /\
    (e <= List.length recs)%nat.
Proof.
  intros Hend Hdates.
  destruct (period_records_ok (end_date - timedelta_days 7) recs Hdates)
    as (l1 & H1 & _).
  destruct (period_records_ok (end_date - timedelta_days 30) recs Hdates)
    as (l2 & H2 & _).
  destruct (period_records_ok (end_date - timedelta_days 90) recs Hdates)
    as (l3 & H3 & _).
  destruct (period_records_ok (end_date - timedelta_days 180) recs Hdates)
    as (l4 & H4 & _).
  destruct (period_records_ok (end_date - timedelta_days 365) recs Hdates)
    as (l5 & H5 & Hlen).
  exists (List.length l1), (List.length l2), (List.length l3), (List.length l4),
         (List.length l5).
  split.
  - unfold periods. cbn [period_loop].
    change (parse_period "1W") with (Returned (timedelta_days 7)).
    change (parse_period "1M") with (Returned (timedelta_days 30)).
    change (parse_period "3M") with (Returned (timedelta_days 90)).
    change (parse_period "6M") with (Returned (timedelta_days 180)).
    change (parse_period "1Y") with (Returned (timedelta_days 365)).
    cbn [bind].
    assert (forall n, n <= 365 -> (end_date - timedelta_days n <? 0) = false)
      as Hfits.
    { intros n Hn. apply Z.ltb_ge.
      unfold timedelta_days, microseconds_per_day in *. lia. }
    rewrite !Hfits by lia.
    rewrite H1. cbn [bind]. rewrite H2. cbn [bind].
    rewrite H3. cbn [bind]. rewrite H4. cbn [bind]. rewrite H5. reflexivity.
  - assert (forall m n, m <= n -> end_date - timedelta_days n <= end_date - timedelta_days m)
      as Hstart.
    { intros m n Hmn. unfold timedelta_days, microseconds_per_day. lia. }
    split; [apply (period_records_mono _ _ recs (Hstart 7 30 ltac:(lia)) _ _ H2 H1) |].
    split; [apply (period_records_mono _ _ recs (Hstart 30 90 ltac:(lia)) _ _ H3 H2) |].
    split; [apply (period_records_mono _ _ recs (Hstart 90 180 ltac:(lia)) _ _ H4 H3) |].
    split; [apply (period_records_mono _ _ recs (Hstart 180 365 ltac:(lia)) _ _ H5 H4) |].
    exact Hlen.
Qed.

(** One date that does not read back makes every count fail. *)
Lemma period_records_raise (start : Z) (recs : list rate_data) :
  Forall (fun r => (exists t, strptime_Y_m_d (date r) = Returned t) \/
                   strptime_Y_m_d (date r) = Raised ValueError) recs ->
  Exists (fun r => strptime_Y_m_d (date r) = Raised ValueError) recs ->
  period_records start recs = Raised ValueError.
Proof.
  induction 1 as [| r recs Hr _ IH]; intros Hex; [inversion Hex |].
  cbn [period_records]. destruct Hr as [(t & Ht) | Hr].
  - rewrite Ht. cbn [bind]. rewrite IH; [reflexivity |].
    inversion Hex as [? ? Hhead | ? ? Htail]; [congruence | exact Htail].
  - rewrite Hr. reflexivity.
Qed.

(** The records of a page: either all their dates have the shape
    [YYYY-MM-DD] and read back, or one has not and every count fails. *)
Lemma parsed_dates_cases (pair html : string) (recs : list rate_data) :
  recs = flat_map (row_records pair) (soup_rows html) ->
  Forall (fun r => exists t, strptime_Y_m_d (date r) = Returned t) recs \/
  (exists r, In r recs /\ iso_date (date r) = false) /\
  (forall start, period_records start recs = Raised ValueError).
Proof.
  intros Hflat.
  assert (Forall (fun r =>
            (iso_date (date r) = true /\
             exists t, strptime_Y_m_d (date r) = Returned t) \/
            (iso_date (date r) = false /\
             strptime_Y_m_d (date r) = Raised ValueError)) recs) as Hall.
  { apply Forall_forall. intros x Hx. rewrite Hflat in Hx.
    apply in_flat_map in Hx. destruct Hx as (cols & _ & Hx).
    exact (row_record_date_cases pair cols x Hx). }
  destruct (Forall_Exists_dec (fun r : rate_data => iso_date (date r) = true)
              (fun r => bool_dec (iso_date (date r)) true) recs) as [Hiso | Hex].
  - left. rewrite Forall_forall in *. intros x Hx.
    destruct (Hall x Hx) as [[_ Ht] | [Hf _]]; [exact Ht |].
    rewrite (Hiso x Hx) in Hf. discriminate Hf.
  - right. split.
    + apply Exists_exists in Hex. destruct Hex as (x & Hx & Hn).
      exists x. split; [exact Hx |]. destruct (iso_date (date x)); congruence.
    + intros start. apply period_records_raise.
      * eapply Forall_impl; [| exact Hall]. intros x [[_ Ht] | [_ Hr]]; auto.
      * apply Exists_exists in Hex. destruct Hex as (x & Hx & Hn).
        apply Exists_exists. exists x. split; [exact Hx |].
        destruct (proj1 (Forall_forall _ _) Hall x Hx) as [[Ht _] | [_ Hr]];
          [contradiction | exact Hr].
Qed.

(** The outcomes of [summarise], for a clock at least a year into the
    years of [datetime]. *)
Lemma summarise_cases (scraper : nat) (pair : string) (end_date : Z)
    (html_content : option string) (w : world) :
  timedelta_days 365 <= end_date ->
  requests (snd (summarise soup_rows db_fault utcnow scraper pair end_date
                   html_content w)) = requests w /\
  match fst (summarise soup_rows db_fault utcnow scraper pair end_date
               html_content w) with
  | Returned s =>
      s = error_summary pair FailedToFetchData /\ truthy_str html_content = false \/
      s = error_summary pair NoDataFound \/
      exists a b c d e,
        s = (pair, success_entries a b c d e) /\
        (a <= b)%nat /\ (b <= c)%nat /\ (c <= d)%nat /\ (d <= e)%nat
  | Raised e =>
      (exists k, db_fault k = Some e) \/
      e = ValueError /\
      exists html recs r,
        html_content = Some html /\
        parse_exchange_data soup_rows html pair = Returned (Some recs) /\
        In r recs /\ iso_date (date r) = false
  end.
Proof.
  intros Hend. unfold summarise, mbind, lift, ret.
  destruct (truthy_str html_content) eqn:Htr; cbn [negb].
  2:{ cbn [fst snd]. split; [reflexivity |]. left. split; reflexivity. }
  destruct html_content as [html |]; [| discriminate].
  destruct (parse_exchange_data_returns soup_rows html pair) as (res & Hres & Hrecs).
  rewrite Hres.
  destruct res as [recs |].
  2:{ cbn [fst snd]. split; [reflexivity |]. right. left. reflexivity. }
  destruct (Hrecs recs eq_refl) as (Hflat & Hnonempty).
  destruct recs as [| r rs]; [contradiction |].
  pose proof (save_cases db_fault utcnow (r :: rs) w) as Hc.
  destruct (save_to_database db_fault utcnow (r :: rs) w) as [[u | e] w1].
  - destruct Hc as (_ & _ & (Hq & _)).
    destruct (parsed_dates_cases pair html (r :: rs) Hflat)
      as [Hdates | ((x & Hx & Hshape) & Hraise)].
    + destruct (period_loop_periods end_date (r :: rs) Hend Hdates)
        as (a & b & c & d & e & Hloop & Hab & Hbc & Hcd & Hde & _).
      rewrite Hloop. cbn [fst snd]. split; [exact Hq |]. right. right.
      exists a, b, c, d, e. repeat split; assumption.
    + unfold periods. cbn [period_loop].
      change (parse_period "1W") with (Returned (timedelta_days 7)).
      cbn [bind].
      assert ((end_date - timedelta_days 7 <? 0) = false) as Hfits.
      { apply Z.ltb_ge. unfold timedelta_days, microseconds_per_day in *. lia. }
      rewrite Hfits, Hraise. cbn [bind fst snd]. split; [exact Hq |].
      right. split; [reflexivity |]. exists html, (r :: rs), x.
      repeat split; assumption.
  - destruct Hc as (_ & _ & (k & _ & Hk) & (Hq & _)).
    cbn [fst snd]. split; [exact Hq |]. left. eexists. exact Hk.
Qed.

(** ** The steps of [process_single_pair] before the pool *)

Lemma clock_inside_past_first_year : clock_inside now -> 0 <= now - timedelta_days 365.
Proof.
  intros [H _]. unfold timedelta_days, microseconds_per_day in *. lia.
Qed.

(** A clock in the first year of [datetime]: the subtraction raises. *)
Lemma process_single_pair_first_year (from_currency to_currency : string)
    (w : world) :
  now - timedelta_days 365 < 0 ->
  process_single_pair soup_rows net db_fault utcnow completion now utc_offset
    localtime from_currency to_currency w
  = (Returned (error_summary (from_currency ++ to_currency ++ "=X")%string
                 (ExceptionText RuntimeError)), w).
Proof.
  intros H. unfold process_single_pair, try_except.
  destruct (Z.ltb_spec (now - timedelta_days 365) 0); [reflexivity | lia].
Qed.

(** The constructor fails: its exception is reported. *)
Lemma process_single_pair_no_scraper (from_currency to_currency : string)
    (w : world) (e : exn) :
  0 <= now - timedelta_days 365 ->
  db_fault (db_ops w) = Some e ->
  process_single_pair soup_rows net db_fault utcnow completion now utc_offset
    localtime from_currency to_currency w
  = (Returned (error_summary (from_currency ++ to_currency ++ "=X")%string
                 (ExceptionText e)), tick_db w).
Proof.
  intros H He. unfold process_single_pair, try_except, mbind, new_scraper.
  destruct (Z.ltb_spec (now - timedelta_days 365) 0); [lia |].
  rewrite He. reflexivity.
Qed.

(** A bound is not an instant of [datetime]: the exception of
    [fromtimestamp] is reported, and nothing is asked of the source. *)
Lemma process_single_pair_out_of_range (from_currency to_currency : string)
    (w : world) :
  0 <= now - timedelta_days 365 ->
  db_fault (db_ops w) = None ->
  in_datetime_range localtime (timestamp utc_offset (now - timedelta_days 365))
  && in_datetime_range localtime (timestamp utc_offset now) = false ->
  exists e,
    process_single_pair soup_rows net db_fault utcnow completion now utc_offset
      localtime from_currency to_currency w
    = (Returned (error_summary (from_currency ++ to_currency ++ "=X")%string
                   (ExceptionText e)), scraper_made w) /\
    (fromtimestamp localtime (timestamp utc_offset (now - timedelta_days 365))
     = Raised e \/
     fromtimestamp localtime (timestamp utc_offset now) = Raised e).
Proof.
  intros H Hdb Hout. unfold process_single_pair, try_except, mbind, new_scraper.
  destruct (Z.ltb_spec (now - timedelta_days 365) 0); [lia |].
  rewrite Hdb.
  destruct (get_exchange_data_out_of_range soup_rows net db_fault utcnow
              completion localtime (scrapers w)
              (from_currency ++ to_currency ++ "=X")%string
              (timestamp utc_offset (now - timedelta_days 365))
              (timestamp utc_offset now) (scraper_made w) Hout) as (e & He & Hwhy).
  unfold scraper_made in He. rewrite He. exists e. split; [reflexivity | exact Hwhy].
Qed.

(** Otherwise the run is the pool followed by the summary, in the world
    that the constructor left. *)
Lemma process_single_pair_run (from_currency to_currency : string) (w : world) :
  0 <= now - timedelta_days 365 ->
  db_fault (db_ops w) = None ->
  year_in_datetime_range localtime now utc_offset ->
  process_single_pair soup_rows net db_fault utcnow completion now utc_offset
    localtime from_currency to_currency w
  = try_except
      (html_content <~ run_chunks soup_rows net db_fault utcnow completion
                         (scrapers w)
                         (from_currency ++ to_currency ++ "=X")%string
                         (timestamp utc_offset (now - timedelta_days 365))
                         (timestamp utc_offset now) ;;
       summarise soup_rows db_fault utcnow (scrapers w)
         (from_currency ++ to_currency ++ "=X")%string now html_content)
      (fun e => ret (error_summary (from_currency ++ to_currency ++ "=X")%string
                       (ExceptionText e)))
      (scraper_made w).
Proof.
  intros H Hdb [Hfrom Hto].
  unfold process_single_pair, try_except, mbind, new_scraper.
  destruct (Z.ltb_spec (now - timedelta_days 365) 0); [lia |].
  rewrite Hdb.
  rewrite (get_exchange_data_in_range soup_rows net db_fault utcnow completion
             localtime _ _ _ _ _ Hfrom Hto).
  reflexivity.
Qed.

(** The four ways a run can go. *)
Lemma process_single_pair_ways (from_currency to_currency : string) (w : world) :
  now - timedelta_days 365 < 0 \/
  (0 <= now - timedelta_days 365 /\ exists e, db_fault (db_ops w) = Some e) \/
  (0 <= now - timedelta_days 365 /\ db_fault (db_ops w) = None /\
   in_datetime_range localtime (timestamp utc_offset (now - timedelta_days 365))
   && in_datetime_range localtime (timestamp utc_offset now) = false) \/
  (0 <= now - timedelta_days 365 /\ db_fault (db_ops w) = None /\
   year_in_datetime_range localtime now utc_offset).
Proof.
  destruct (Z.lt_ge_cases (now - timedelta_days 365) 0) as [H | H]; [left; exact H |].
  right. destruct (db_fault (db_ops w)) as [e |] eqn:Hdb.
  { left. split; [exact H |]. exists e. reflexivity. }
  right. unfold year_in_datetime_range.
  destruct (in_datetime_range localtime
              (timestamp utc_offset (now - timedelta_days 365))) eqn:Hf;
    [destruct (in_datetime_range localtime (timestamp utc_offset now)) eqn:Ht |].
  - right. repeat split; assumption.
  - left. repeat split; assumption.
  - left. repeat split; assumption.
Qed.

(** X16.  For a clock inside the years of [datetime],
    [process_single_pair] returns a summary for its pair in which the five
    periods stand or fall together: all carry the same error message, or
    all carry a count, and the counts do not decrease from 1W to 1Y.  The
    message is that of a fetch that gave nothing, that of a page without
    records, or the text of an exception: the one of a failed database
    operation (the constructor's among them), the one of [fromtimestamp]
    for a bound that is not an instant of [datetime], or the [ValueError]
    of ['%Y-%m-%d'] for a record whose stored date is not of the shape
    [YYYY-MM-DD]. *)
Theorem pair_summary_cases (from_currency to_currency : string) (w : world) :
  let pair := (from_currency ++ to_currency ++ "=X")%string in
  clock_inside now ->
  exists entries w',
    process_single_pair soup_rows net db_fault utcnow completion now utc_offset
      localtime from_currency to_currency w = (Returned (pair, entries), w') /\
    (entries = snd (error_summary pair FailedToFetchData) \/
     entries = snd (error_summary pair NoDataFound) \/
     (exists e, entries = snd (error_summary pair (ExceptionText e)) /\
        ((exists k, db_fault k = Some e) \/
         fromtimestamp localtime (timestamp utc_offset (now - timedelta_days 365))
         = Raised e \/
         fromtimestamp localtime (timestamp utc_offset now) = Raised e \/
         (e = ValueError /\
          exists html recs r,
            parse_exchange_data soup_rows html pair = Returned (Some recs) /\
            In r recs /\ iso_date (date r) = false))) \/
     (exists a b c d e, entries = success_entries a b c d e /\
        (a <= b)%nat /\ (b <= c)%nat /\ (c <= d)%nat /\ (d <= e)%nat)).
Proof.
  intros pair Hclock. subst pair.
  pose proof (clock_inside_past_first_year Hclock) as Hpast.
  destruct (process_single_pair_ways from_currency to_currency w)
    as [Hfirst | [(Hnow & e & Hdb) | [(Hnow & Hdb & Hout) | (Hnow & Hdb & Hin)]]].
  - lia.
  - rewrite (process_single_pair_no_scraper _ _ _ e Hnow Hdb).
    eexists; eexists. split; [reflexivity |]. right. right. left.
    exists e. split; [reflexivity |]. left. eexists. exact Hdb.
  - destruct (process_single_pair_out_of_range from_currency to_currency w
                Hnow Hdb Hout) as (e & Hrun & Hwhy).
    rewrite Hrun. eexists; eexists. split; [reflexivity |]. right. right. left.
    exists e. split; [reflexivity |]. right.
    destruct Hwhy as [Hwhy | Hwhy]; [left | right; left]; exact Hwhy.
  - rewrite (process_single_pair_run _ _ _ Hnow Hdb Hin).
    unfold try_except, mbind.
    destruct (run_chunks_returns soup_rows net db_fault utcnow completion
                (scrapers w) (from_currency ++ to_currency ++ "=X")%string
                (timestamp utc_offset (now - timedelta_days 365))
                (timestamp utc_offset now) (scraper_made w)) as (r & w1 & Hget).
    rewrite Hget.
    assert (timedelta_days 365 <= now) as Hyear by lia.
    pose proof (summarise_cases (scrapers w)
                  (from_currency ++ to_currency ++ "=X")%string now r w1 Hyear)
      as [_ Hc].
    destruct (summarise soup_rows db_fault utcnow (scrapers w) _ now r w1)
      as [[s | e] w2]; cbn [fst] in Hc.
    + destruct Hc as [[-> _] | [-> | (a & b & c & d & e & -> & Hle)]];
        eexists; eexists; (split; [reflexivity |]); auto.
      right. right. right. exists a, b, c, d, e. split; [reflexivity | exact Hle].
    + eexists; eexists. split; [reflexivity |]. right. right. left.
      exists e. split; [reflexivity |].
      destruct Hc as [Hk | (-> & html & recs & x & _ & Hparse & Hx & Hshape)];
        [left; exact Hk |].
      right. right. right. split; [reflexivity |].
      exists html, recs, x. repeat split; assumption.
Qed.


(** While every request fails and the cache holds no page, the collecting
    loop adds nothing and leaves the database alone. *)
Lemma collect_source_down (self : nat) (quote : string) (total_chunks : nat)
    (done : list (nat * (Z * Z))) :
  (forall n f t, is_failure (net n quote f t) = true) ->
  forall data w,
    (forall f t, cache_agrees (self, quote, f, t) None w) ->
    fst (collect soup_rows net db_fault utcnow self quote total_chunks done data w)
    = data /\
    db (snd (collect soup_rows net db_fault utcnow self quote total_chunks
               done data w)) = db w /\
    db_ops (snd (collect soup_rows net db_fault utcnow self quote total_chunks
                   done data w)) = db_ops w.
Proof.
  intros Hdown. induction done as [| [i [f t]] rest IH]; intros data w Hinv.
  - cbn. repeat split.
  - cbn [collect].
    destruct (task_effects soup_rows net db_fault utcnow self quote f t (i + 1)
                total_chunks w)
      as (v & w1 & r & w' & Hf & Ht & _ & _ & _ & _ & Hnone & _).
    destruct (fetch_chunk_effects net self quote f t w)
      as (v2 & w2 & Hf2 & Hd & Ho & _).
    rewrite Hf in Hf2. inversion Hf2; subst v2 w2.
    assert (v = None) as ->.
    { destruct (fetch_chunk_agrees net self quote f t None f t w
                  (always_failing_settled net quote f t (fun n => Hdown n f t))
                  (Hinv f t)) as (_ & v2 & Hv2 & Heq).
      rewrite Hf in Hv2. cbn [fst] in Hv2. inversion Hv2; subst v2.
      apply Heq; reflexivity. }
    destruct (Hnone eq_refl) as [-> ->]. rewrite Ht. cbn [truthy_str].
    destruct (IH data w1) as (Hdata & Hdb & Hops).
    + intros f' t'.
      destruct (fetch_chunk_agrees net self quote f' t' None f t w
                  (always_failing_settled net quote f' t' (fun n => Hdown n f' t'))
                  (Hinv f' t')) as (Hag & _).
      rewrite Hf in Hag. exact Hag.
    + split; [exact Hdata |]. split; congruence.
Qed.

(** X17.  While the source cannot be reached (every request fails, and the
    cache holds nothing for the scraper about to be created), a run of
    [process_single_pair] whose constructor succeeds, with a clock inside
    the years of [datetime] and bounds that are instants of [datetime],
    reports 'Failed to fetch data' for every period; it leaves the table as
    it was, and the only database operation is that of the constructor. *)
Theorem pair_summary_source_down (from_currency to_currency : string) (w : world) :
  let pair := (from_currency ++ to_currency ++ "=X")%string in
  (forall n f t, is_failure (net n pair f t) = true) ->
  (forall k, In k (map fst (cache w)) -> fst (fst (fst k)) <> scrapers w) ->
  clock_inside now ->
  db_fault (db_ops w) = None ->
  year_in_datetime_range localtime now utc_offset ->
  fst (process_single_pair soup_rows net db_fault utcnow completion now utc_offset
         localtime from_currency to_currency w)
  = Returned (error_summary pair FailedToFetchData) /\
  db (snd (process_single_pair soup_rows net db_fault utcnow completion now
             utc_offset localtime from_currency to_currency w)) = db w /\
  db_ops (snd (process_single_pair soup_rows net db_fault utcnow completion now
                 utc_offset localtime from_currency to_currency w))
  = S (db_ops w).
Proof.
  intros pair Hdown Hfresh Hclock Hmade Hrange. subst pair.
  rewrite (process_single_pair_run _ _ _ (clock_inside_past_first_year Hclock)
             Hmade Hrange).
  unfold try_except, mbind, run_chunks, scraper_made.
  match goal with
  | |- context [collect _ _ _ _ ?self ?q ?n ?done ?data ?w0] =>
      destruct (collect_source_down self q n done Hdown data w0) as (Hdata & Hdb & Hops)
  end.
  { intros f t. left. cbn [cache]. apply cache_find_absent. intros Hin.
    apply (Hfresh _ Hin). reflexivity. }
  destruct (collect _ _ _ _ _ _ _ _ _ _) as [all_data w1]. cbn [fst snd] in *.
  subst all_data. cbn [db db_ops] in Hdb, Hops.
  unfold ret, summarise. cbn [truthy_str negb fst snd].
  repeat split; assumption.
Qed.

Lemma timestamp_year_apart :
  unix_epoch + utc_offset * 1000000 + timedelta_days 365 <= now ->
  timestamp utc_offset now
  = timestamp utc_offset (now - timedelta_days 365) + 31536000.
Proof.
  intros H. unfold timestamp, timedelta_days, microseconds_per_day in *.
  replace (now - unix_epoch - utc_offset * 1000000)
    with ((now - 365 * (86400 * 1000000) - unix_epoch - utc_offset * 1000000)
          + 31536000 * 1000000) by lia.
  apply Z.quot_add; [lia | nia].
Qed.

(** A run makes at most three requests for each window of its plan. *)
Lemma process_single_pair_requests (from_currency to_currency : string)
    (w : world) :
  (forall l, List.length (completion l) = List.length l) ->
  (requests (snd (process_single_pair soup_rows net db_fault utcnow completion
                    now utc_offset localtime from_currency to_currency w))
   <= requests w
      + 3 * List.length
              (Planner.plan (timestamp utc_offset (now - timedelta_days 365))
                            (timestamp utc_offset now)))%nat.
Proof.
  intros Hlen.
  destruct (process_single_pair_ways from_currency to_currency w)
    as [Hfirst | [(Hnow & e & Hdb) | [(Hnow & Hdb & Hout) | (Hnow & Hdb & Hin)]]].
  - rewrite (process_single_pair_first_year _ _ _ Hfirst). cbn [snd]. lia.
  - rewrite (process_single_pair_no_scraper _ _ _ e Hnow Hdb).
    cbn [snd tick_db requests]. lia.
  - destruct (process_single_pair_out_of_range from_currency to_currency w
                Hnow Hdb Hout) as (e & Hrun & _).
    rewrite Hrun. cbn [snd scraper_made requests]. lia.
  - rewrite (process_single_pair_run _ _ _ Hnow Hdb Hin).
    unfold try_except, mbind, run_chunks.
    match goal with
    | |- context [collect _ _ _ _ ?self ?q ?n ?done ?data ?w0] =>
        destruct (collect_effects soup_rows net db_fault utcnow self q n done data w0)
          as (added & _ & _ & _ & Hq)
    end.
    rewrite Hlen, enumerate_length in Hq. cbn [requests scraper_made] in Hq.
    destruct (collect _ _ _ _ _ _ _ _ _ _) as [all_data w1]. cbn [fst snd] in Hq.
    assert (forall h,
              (requests (snd (summarise soup_rows db_fault utcnow (scrapers w)
                                (from_currency ++ to_currency ++ "=X")%string
                                now h w1))
               <= requests w
                  + 3 * List.length
                          (Planner.plan
                             (timestamp utc_offset (now - timedelta_days 365))
                             (timestamp utc_offset now)))%nat) as Hsum.
    { intros h.
      destruct (summarise_cases (scrapers w)
                  (from_currency ++ to_currency ++ "=X")%string now h w1
                  ltac:(lia)) as [Hs _].
      rewrite Hs. exact Hq. }
    destruct all_data as [| page pages];
      match goal with
      | |- context [summarise _ _ _ ?sc ?p ?e ?h ?w0] =>
          specialize (Hsum h);
          destruct (summarise soup_rows db_fault utcnow sc p e h w0)
            as [[s | err] w2]
      end; cbn [fst snd ret] in *; exact Hsum.
Qed.

(** X18.  From 1971 on, the year that [process_single_pair] asks for is cut
    into exactly five windows, so one run makes at most fifteen requests. *)
Theorem pair_year_five_windows (from_currency to_currency : string) (w : world) :
  (forall l, List.length (completion l) = List.length l) ->
  unix_epoch + utc_offset * 1000000 + timedelta_days 365 <= now ->
  List.length (Planner.plan (timestamp utc_offset (now - timedelta_days 365))
                 (timestamp utc_offset now)) = 5%nat /\
  (requests (snd (process_single_pair soup_rows net db_fault utcnow completion
                    now utc_offset localtime from_currency to_currency w))
   <= requests w + 15)%nat.
Proof.
  intros Hlen Hnow.
  assert (List.length (Planner.plan (timestamp utc_offset (now - timedelta_days 365))
                         (timestamp utc_offset now)) = 5%nat) as Hfive.
  { apply Nat2Z.inj. rewrite plan_length
      by (rewrite (timestamp_year_apart Hnow); lia).
    rewrite (timestamp_year_apart Hnow).
    replace (timestamp utc_offset (now - timedelta_days 365) + 31536000
             - timestamp utc_offset (now - timedelta_days 365)) with 31536000 by lia.
    reflexivity. }
  split; [exact Hfive |].
  pose proof (process_single_pair_requests from_currency to_currency w Hlen) as Hq.
  rewrite Hfive in Hq. exact Hq.
Qed.

End PairFacts.

Lemma pair_summary_cases_witness :
  exists entries w',
    process_single_pair sample_soup source_down no_faults sample_clock in_order
      (datetime_of_date 2024 1 15) 0 utc "GBP" "INR" empty_world
    = (Returned ("GBPINR=X", entries), w').
Proof.
  destruct (pair_summary_cases sample_soup source_down no_faults sample_clock
              in_order (datetime_of_date 2024 1 15) 0 utc "GBP" "INR" empty_world)
    as (entries & w' & H & _).
  - split; vm_compute; discriminate.
  - exists entries, w'. exact H.
Defined.

Lemma pair_summary_source_down_witness :
  fst (process_single_pair sample_soup source_down no_faults sample_clock in_order
         (datetime_of_date 2024 1 15) 0 utc "GBP" "INR" empty_world)
  = Returned (error_summary "GBPINR=X" FailedToFetchData).
Proof.
  refine (proj1 (pair_summary_source_down sample_soup source_down no_faults
                   sample_clock in_order (datetime_of_date 2024 1 15) 0 utc
                   "GBP" "INR" empty_world _ _ _ _ _)).
  - intros n f t. reflexivity.
  - intros k H. destruct H.
  - split; vm_compute; discriminate.
  - reflexivity.
  - split; reflexivity.
Defined.

Lemma pair_year_five_windows_witness :
  (requests (snd (process_single_pair sample_soup source_down no_faults sample_clock
                    in_order (datetime_of_date 2024 1 15) 0 utc "GBP" "INR"
                    empty_world))
   <= requests empty_world + 15)%nat.
Proof.
  refine (proj2 (pair_year_five_windows sample_soup source_down no_faults
                   sample_clock in_order (datetime_of_date 2024 1 15) 0 utc
                   "GBP" "INR" empty_world _ _)).
  - intros l. reflexivity.
  - vm_compute. discriminate.
Defined.

(* ===================================================================== *)
(** * Further properties of the endpoints                                 *)
(* ===================================================================== *)

Lemma upper_idempotent (c : ascii) : upper (upper c) = upper c.
Proof. destruct c as [[] [] [] [] [] [] [] []]; reflexivity. Qed.

Lemma upper_string_idempotent (s : string) :
  upper_string (upper_string s) = upper_string s.
Proof.
  unfold upper_string. rewrite list_ascii_of_string_of_list_ascii, map_map.
  f_equal. apply map_ext. intros c. apply upper_idempotent.
Qed.

(** X19.  [parse_period] does not look at the case of the letters: it
    returns a span between 7 and 365 days exactly for the names that are,
    in upper case, one of the five periods, and raises [ValueError] for
    every other name. *)
Theorem parse_period_cases (p : string) :
  parse_period (upper_string p) = parse_period p /\
  (In (upper_string p) periods /\
   (exists d, parse_period p = Returned d /\
              timedelta_days 7 <= d /\ d <= timedelta_days 365) \/
   ~ In (upper_string p) periods /\ parse_period p = Raised ValueError).
Proof.
  split.
  - unfold parse_period. cbv zeta. rewrite upper_string_idempotent. reflexivity.
  - unfold parse_period, periods. cbv zeta.
    destruct (String.eqb_spec (upper_string p) "1W") as [-> | H1].
    { left. split; [cbn; auto |]. eexists. split; [reflexivity |].
      unfold timedelta_days, microseconds_per_day. lia. }
    destruct (String.eqb_spec (upper_string p) "1M") as [-> | H2].
    { left. split; [cbn; auto |]. eexists. split; [reflexivity |].
      unfold timedelta_days, microseconds_per_day. lia. }
    destruct (String.eqb_spec (upper_string p) "3M") as [-> | H3].
    { left. split; [cbn; auto |]. eexists. split; [reflexivity |].
      unfold timedelta_days, microseconds_per_day. lia. }
    destruct (String.eqb_spec (upper_string p) "6M") as [-> | H4].
    { left. split; [cbn; auto 6 |]. eexists. split; [reflexivity |].
      unfold timedelta_days, microseconds_per_day. lia. }
    destruct (String.eqb_spec (upper_string p) "1Y") as [-> | H5].
    { left. split; [cbn; auto 6 |]. eexists. split; [reflexivity |].
      unfold timedelta_days, microseconds_per_day. lia. }
    right. split; [| reflexivity].
    cbn. intros [E | [E | [E | [E | [E | []]]]]]; congruence.
Qed.

(** The names of the periods as [jsonify] writes them. *)
Lemma sort_keys_periods {A} (v : list (string * A)) :
  map fst v = periods -> map fst (sort_keys v) = ["1M"; "1W"; "1Y"; "3M"; "6M"].
Proof.
  intros H.
  destruct v as [| [p1 a1] [| [p2 a2] [| [p3 a3] [| [p4 a4] [| [p5 a5] [| x v]]]]]];
    try discriminate H.
  inversion H; subst. reflexivity.
Qed.

(** X20.  Whatever the source and the database do, and in whichever order
    the two tasks complete, [sync_forex_data] answers 200 'Sync completed'
    and never 500; its results hold exactly the two pairs, and each pair
    has exactly the five periods; as [jsonify] sorts the keys, the answer
    lists AEDINR=X before GBPINR=X and the periods as 1M, 1W, 1Y, 3M,
    6M. *)
Theorem sync_always_completes (soup_rows : string -> list (list string))
    (net : nat -> string -> Z -> Z -> http_outcome)
    (db_fault : nat -> option exn) (utcnow : nat -> Z)
    (completion : list (nat * (Z * Z)) -> list (nat * (Z * Z)))
    (utc_offset : Z) (localtime : Z -> option Z) (now_of : string * string -> Z)
    (pair_completion : list (string * string) -> list (string * string))
    (w : world) :
  Permutation currency_pairs (pair_completion currency_pairs) ->
  exists results w',
    sync_forex_data soup_rows net db_fault utcnow completion utc_offset localtime
      now_of pair_completion w = (Returned (SyncCompleted results), w') /\
    map fst results = ["AEDINR=X"; "GBPINR=X"] /\
    Forall (fun s => map fst (snd s) = ["1M"; "1W"; "1Y"; "3M"; "6M"]) results /\
    Permutation ["GBPINR=X"; "AEDINR=X"] (map fst results) /\
    Forall (fun s => Permutation periods (map fst (snd s))) results.
Proof.
  intros Hperm.
  assert (exists v1 v2 w',
            sync_forex_data soup_rows net db_fault utcnow completion utc_offset
              localtime now_of pair_completion w
            = (Returned (SyncCompleted [("AEDINR=X", sort_keys v1);
                                        ("GBPINR=X", sort_keys v2)]), w') /\
            map fst v1 = periods /\ map fst v2 = periods) as Hrun.
  { unfold sync_forex_data, try_except, mbind, ret.
    unfold currency_pairs in *.
    apply Permutation_length_2_inv in Hperm.
    destruct Hperm as [-> | ->]; cbn [sync_collect]; unfold mbind, ret.
    - destruct (process_single_pair_returns soup_rows net db_fault utcnow
                  completion (now_of ("GBP", "INR")) utc_offset localtime
                  "GBP" "INR" w)
        as ([k1 v1] & w1 & H1 & Hk1 & Hv1).
      rewrite H1.
      destruct (process_single_pair_returns soup_rows net db_fault utcnow
                  completion (now_of ("AED", "INR")) utc_offset localtime
                  "AED" "INR" w1)
        as ([k2 v2] & w2 & H2 & Hk2 & Hv2).
      rewrite H2. cbn [fst snd] in *. subst k1 k2.
      exists v2, v1, w2. split; [reflexivity |]. split; assumption.
    - destruct (process_single_pair_returns soup_rows net db_fault utcnow
                  completion (now_of ("AED", "INR")) utc_offset localtime
                  "AED" "INR" w)
        as ([k1 v1] & w1 & H1 & Hk1 & Hv1).
      rewrite H1.
      destruct (process_single_pair_returns soup_rows net db_fault utcnow
                  completion (now_of ("GBP", "INR")) utc_offset localtime
                  "GBP" "INR" w1)
        as ([k2 v2] & w2 & H2 & Hk2 & Hv2).
      rewrite H2. cbn [fst snd] in *. subst k1 k2.
      exists v1, v2, w2. split; [reflexivity |]. split; assumption. }
  destruct Hrun as (v1 & v2 & w' & Hrun & Hv1 & Hv2).
  pose proof (sort_keys_periods v1 Hv1) as Hs1.
  pose proof (sort_keys_periods v2 Hv2) as Hs2.
  eexists; eexists. split; [exact Hrun |]. cbn [map fst snd].
  split; [reflexivity |].
  split; [constructor; [exact Hs1 | constructor; [exact Hs2 | constructor]] |].
  split; [apply perm_swap |].
  assert (Permutation periods ["1M"; "1W"; "1Y"; "3M"; "6M"]) as Hp.
  { unfold periods.
    apply (perm_trans (l' := ["1M"; "1W"; "3M"; "6M"; "1Y"])); [apply perm_swap |].
    do 2 apply perm_skip.
    apply (perm_trans (l' := ["3M"; "1Y"; "6M"]));
      [apply perm_skip, perm_swap | apply perm_swap]. }
  constructor; [cbn [snd]; rewrite Hs1; exact Hp |].
  constructor; [cbn [snd]; rewrite Hs2; exact Hp | constructor].
Qed.

Lemma sync_always_completes_witness :
  exists results w',
    sync_forex_data sample_soup source_down no_faults sample_clock in_order 0 utc
      (fun _ => datetime_of_date 2024 1 15) (fun l => l) empty_world
    = (Returned (SyncCompleted results), w') /\
    map fst results = ["AEDINR=X"; "GBPINR=X"] /\
    Forall (fun s => map fst (snd s) = ["1M"; "1W"; "1Y"; "3M"; "6M"]) results /\
    Permutation ["GBPINR=X"; "AEDINR=X"] (map fst results) /\
    Forall (fun s => Permutation periods (map fst (snd s))) results.
Proof.
  apply (sync_always_completes sample_soup source_down no_faults sample_clock
           in_order 0 utc (fun _ => datetime_of_date 2024 1 15) (fun l => l)
           empty_world).
  apply Permutation_refl.
Defined.

(* ===================================================================== *)
(** * Further properties of the dates and of the query                    *)
(* ===================================================================== *)


(** ** The calendar *)

Lemma is_leap_shift (y k : Z) : is_leap (y + 400 * k) = is_leap y.
Proof.
  unfold is_leap.
  replace ((y + 400 * k) mod 4) with (y mod 4)
    by (replace (y + 400 * k) with (y + (100 * k) * 4) by lia;
        rewrite Z.mod_add by lia; reflexivity).
  replace ((y + 400 * k) mod 100) with (y mod 100)
    by (replace (y + 400 * k) with (y + (4 * k) * 100) by lia;
        rewrite Z.mod_add by lia; reflexivity).
  replace ((y + 400 * k) mod 400) with (y mod 400)
    by (replace (y + 400 * k) with (y + k * 400) by lia;
        rewrite Z.mod_add by lia; reflexivity).
  reflexivity.
Qed.

Lemma days_in_month_shift (y k m : Z) :
  days_in_month (y + 400 * k) m = days_in_month y m.
Proof. unfold days_in_month. rewrite is_leap_shift. reflexivity. Qed.

Lemma days_before_month_from_shift (y k : Z) (m : nat) :
  days_before_month_from (y + 400 * k) m = days_before_month_from y m.
Proof.
  induction m as [| m IH]; [reflexivity |].
  cbn [days_before_month_from]. rewrite IH, days_in_month_shift. reflexivity.
Qed.

Lemma days_before_year_shift (y k : Z) :
  days_before_year (y + 400 * k) = days_before_year y + 146097 * k.
Proof.
  unfold days_before_year. cbv zeta.
  replace (y + 400 * k - 1) with (y - 1 + 400 * k) by lia.
  replace ((y - 1 + 400 * k) / 4) with ((y - 1) / 4 + 100 * k)
    by (replace (y - 1 + 400 * k) with (y - 1 + (100 * k) * 4) by lia;
        rewrite Z.div_add by lia; reflexivity).
  replace ((y - 1 + 400 * k) / 100) with ((y - 1) / 100 + 4 * k)
    by (replace (y - 1 + 400 * k) with (y - 1 + (4 * k) * 100) by lia;
        rewrite Z.div_add by lia; reflexivity).
  replace ((y - 1 + 400 * k) / 400) with ((y - 1) / 400 + k)
    by (replace (y - 1 + 400 * k) with (y - 1 + k * 400) by lia;
        rewrite Z.div_add by lia; reflexivity).
  lia.
Qed.

Lemma ymd2ord_shift (y k m d : Z) :
  ymd2ord (y + 400 * k) m d = ymd2ord y m d + 146097 * k.
Proof.
  unfold ymd2ord. rewrite days_before_year_shift, days_before_month_from_shift. lia.
Qed.

Lemma ord2ymd_shift (k r : Z) :
  0 <= r < 146097 ->
  _ord2ymd (146097 * k + r + 1) = shift_years k (_ord2ymd (r + 1)).
Proof.
  intros Hr. unfold _ord2ymd, _DI400Y. cbv zeta.
  replace (146097 * k + r + 1 - 1) with (r + k * 146097) by lia.
  replace (r + 1 - 1) with r by lia.
  rewrite Z.div_add, Z.mod_add by lia.
  rewrite (Z.div_small r 146097), (Z.mod_small r 146097) by lia.
  destruct ((r mod _DI100Y mod _DI4Y / 365 =? 4) || (r / _DI100Y =? 4));
    [cbn [shift_years]; f_equal; f_equal; lia |].
  destruct (_ <? _); cbn [shift_years]; f_equal; f_equal; lia.
Qed.

Lemma all_from_spec (test : Z -> bool) (count : nat) :
  forall r, all_from test r count = true ->
  forall x, r <= x < r + Z.of_nat count -> test x = true.
Proof.
  induction count as [| c IH]; intros r H x Hx; [lia |].
  cbn [all_from] in H. apply andb_true_iff in H. destruct H as [H0 H1].
  destruct (Z.eq_dec x r) as [-> | Hne]; [exact H0 |].
  apply (IH (r + 1) H1). lia.
Qed.

Lemma cycle_ok : all_from ordinal_ok 0 (Z.to_nat 146097) = true.
Proof. vm_cast_no_check (@eq_refl bool true). Qed.

(** [_ord2ymd] inverts [ymd2ord] and gives a date of the calendar. *)
Lemma ord2ymd_spec (n : Z) :
  1 <= n ->
  exists y m d,
    _ord2ymd n = (y, m, d) /\ 1 <= y /\ 1 <= m <= 12 /\
    1 <= d <= days_in_month y m /\ ymd2ord y m d = n.
Proof.
  intros Hn.
  pose proof (Z.div_mod (n - 1) 146097 ltac:(lia)) as Hdm.
  pose proof (Z.mod_pos_bound (n - 1) 146097 ltac:(lia)) as Hr.
  assert (0 <= (n - 1) / 146097) as Hk by (apply Z.div_pos; lia).
  remember ((n - 1) / 146097) as k eqn:Ek.
  remember ((n - 1) mod 146097) as r eqn:Er.
  assert (n = 146097 * k + r + 1) as En by lia.
  clear Ek Er Hdm. subst n.
  rewrite ord2ymd_shift by exact Hr.
  pose proof (all_from_spec ordinal_ok _ 0 cycle_ok r
                ltac:(rewrite Z2Nat.id; lia)) as Hok.
  unfold ordinal_ok in Hok.
  destruct (_ord2ymd (r + 1)) as [[y m] d].
  rewrite !andb_true_iff, !Z.leb_le, Z.eqb_eq in Hok.
  destruct Hok as ((((((Hy1 & Hy2) & Hm1) & Hm2) & Hd1) & Hd2) & Hord).
  exists (y + 400 * k), m, d. cbn [shift_years].
  split; [reflexivity |]. rewrite days_in_month_shift, ymd2ord_shift.
  repeat split; try lia.
Qed.

Lemma days_before_year_step (y : Z) :
  days_before_year (y + 1) =
  days_before_year y + 365 + (if is_leap y then 1 else 0).
Proof.
  unfold days_before_year, is_leap. cbv zeta.
  replace (y + 1 - 1) with (y - 1 + 1) by lia.
  destruct (Z.eqb_spec (y mod 4) 0); destruct (Z.eqb_spec (y mod 100) 0);
    destruct (Z.eqb_spec (y mod 400) 0); cbn [andb orb negb];
    Z.div_mod_to_equations; lia.
Qed.

Lemma days_before_year_mono (y1 y2 : Z) :
  y1 <= y2 -> days_before_year y1 <= days_before_year y2.
Proof.
  intros H. replace y2 with (y1 + Z.of_nat (Z.to_nat (y2 - y1))) by lia.
  induction (Z.to_nat (y2 - y1)) as [| k IH]; [rewrite Z.add_0_r; lia |].
  replace (y1 + Z.of_nat (S k)) with (y1 + Z.of_nat k + 1) by lia.
  rewrite days_before_year_step. destruct (is_leap _); lia.
Qed.

Lemma days_before_month_from_mono (y : Z) (a b : nat) :
  (a <= b)%nat -> days_before_month_from y a <= days_before_month_from y b.
Proof.
  induction 1 as [| b _ IH]; [lia |].
  cbn [days_before_month_from]. pose proof (days_in_month_bound y (Z.of_nat (S b))). lia.
Qed.

Lemma days_before_month_from_year (y : Z) :
  days_before_month_from y 12 = 365 + (if is_leap y then 1 else 0).
Proof.
  cbn [days_before_month_from]. unfold days_in_month.
  cbn [Z.of_nat Pos.of_succ_nat Pos.succ Z.eqb Pos.eqb orb].
  destruct (is_leap y); reflexivity.
Qed.

Lemma ymd2ord_bounds (y m d : Z) :
  in_calendar (y, m, d) ->
  days_before_year y + days_before_month_from y (Z.to_nat (m - 1)) < ymd2ord y m d /\
  ymd2ord y m d <= days_before_year y + days_before_month_from y (Z.to_nat m).
Proof.
  intros (Hm & Hd). unfold ymd2ord. split; [lia |].
  replace (Z.to_nat m) with (S (Z.to_nat (m - 1))) by lia.
  cbn [days_before_month_from].
  replace (Z.of_nat (S (Z.to_nat (m - 1)))) with m by lia. lia.
Qed.

Lemma ymd2ord_lt_month (y m1 d1 m2 d2 : Z) :
  in_calendar (y, m1, d1) -> in_calendar (y, m2, d2) -> m1 < m2 ->
  ymd2ord y m1 d1 < ymd2ord y m2 d2.
Proof.
  intros H1 H2 Hlt.
  pose proof (ymd2ord_bounds _ _ _ H1) as (_ & Hu).
  pose proof (ymd2ord_bounds _ _ _ H2) as (Hl & _).
  destruct H1 as (Hm1 & _). destruct H2 as (Hm2 & _).
  pose proof (days_before_month_from_mono y (Z.to_nat m1) (Z.to_nat (m2 - 1))
                ltac:(lia)).
  lia.
Qed.

Lemma ymd2ord_lt_year (y1 m1 d1 y2 m2 d2 : Z) :
  in_calendar (y1, m1, d1) -> in_calendar (y2, m2, d2) -> y1 < y2 ->
  ymd2ord y1 m1 d1 < ymd2ord y2 m2 d2.
Proof.
  intros H1 H2 Hlt.
  pose proof (ymd2ord_bounds _ _ _ H1) as (_ & Hu).
  pose proof (ymd2ord_bounds _ _ _ H2) as (Hl & _).
  destruct H1 as (Hm1 & _). destruct H2 as (Hm2 & _).
  pose proof (days_before_month_from_mono y1 (Z.to_nat m1) 12 ltac:(lia)) as Ha.
  rewrite days_before_month_from_year in Ha.
  pose proof (days_before_year_step y1) as Hs.
  pose proof (days_before_year_mono (y1 + 1) y2 ltac:(lia)) as Hmono.
  pose proof (days_before_month_from_mono y2 0 (Z.to_nat (m2 - 1)) ltac:(lia)) as Hb.
  cbn [days_before_month_from] in Hb. lia.
Qed.

Lemma ymd2ord_compare (y1 m1 d1 y2 m2 d2 : Z) :
  in_calendar (y1, m1, d1) -> in_calendar (y2, m2, d2) ->
  (ymd2ord y1 m1 d1 ?= ymd2ord y2 m2 d2) = date_compare (y1, m1, d1) (y2, m2, d2).
Proof.
  intros H1 H2. unfold date_compare.
  destruct (Z.compare_spec y1 y2) as [-> | Hy | Hy].
  - destruct (Z.compare_spec m1 m2) as [-> | Hm | Hm].
    + unfold ymd2ord. destruct (Z.compare_spec d1 d2) as [-> | Hd | Hd].
      * apply Z.compare_refl.
      * apply Z.compare_lt_iff. lia.
      * apply Z.compare_gt_iff. lia.
    + apply Z.compare_lt_iff. apply ymd2ord_lt_month; assumption.
    + apply Z.compare_gt_iff. apply ymd2ord_lt_month; assumption.
  - apply Z.compare_lt_iff. apply ymd2ord_lt_year; assumption.
  - apply Z.compare_gt_iff. apply ymd2ord_lt_year; assumption.
Qed.

Lemma valid_date_in_calendar (y m d : Z) :
  valid_date y m d = true -> in_calendar (y, m, d).
Proof.
  unfold valid_date, in_calendar. rewrite !andb_true_iff, !Z.leb_le. lia.
Qed.

(** The ordinals of the dates that [datetime] has: 0001-01-01 is day 1 and
    9999-12-31 is day 3652059. *)
Lemma ord2ymd_valid (n : Z) :
  1 <= n <= 3652059 ->
  exists y m d,
    _ord2ymd n = (y, m, d) /\ valid_date y m d = true /\ ymd2ord y m d = n.
Proof.
  intros Hn. destruct (ord2ymd_spec n ltac:(lia)) as (y & m & d & E & Hy & Hm & Hd & Ho).
  exists y, m, d. split; [exact E |]. split; [| exact Ho].
  assert (y <= 9999) as Hy2.
  { destruct (Z_le_gt_dec y 9999) as [| Hgt]; [assumption | exfalso].
    pose proof (ymd2ord_bounds y m d (conj Hm Hd)) as (Hl & _).
    pose proof (days_before_year_mono 10000 y ltac:(lia)) as Hmono.
    pose proof (days_before_month_from_mono y 0 (Z.to_nat (m - 1)) ltac:(lia)) as Hb.
    cbn [days_before_month_from] in Hb.
    change (days_before_year 10000) with 3652059 in Hmono. lia. }
  unfold valid_date. rewrite !andb_true_iff, !Z.leb_le. lia.
Qed.

(** ** The order of the stored date texts *)

Lemma digit_char_compare (a b : Z) :
  0 <= a <= 9 -> 0 <= b <= 9 ->
  Ascii.compare (digit_char a) (digit_char b) = (a ?= b).
Proof.
  intros Ha Hb. unfold Ascii.compare, digit_char.
  rewrite !N_ascii_embedding by lia.
  rewrite Z2N.inj_compare by lia. apply Z.add_compare_mono_l.
Qed.

Lemma compare_two_digits (hi lo hi' lo' : Z) (k : comparison) :
  0 <= lo <= 9 -> 0 <= lo' <= 9 ->
  match 10 * hi + lo ?= 10 * hi' + lo' with
  | Eq => k | Lt => Lt | Gt => Gt
  end =
  match hi ?= hi' with
  | Eq => match lo ?= lo' with Eq => k | Lt => Lt | Gt => Gt end
  | Lt => Lt
  | Gt => Gt
  end.
Proof.
  intros Hlo Hlo'.
  destruct (Z.compare_spec hi hi'); destruct (Z.compare_spec lo lo');
    destruct (Z.compare_spec (10 * hi + lo) (10 * hi' + lo'));
    try reflexivity; exfalso; lia.
Qed.

(** Texts in the shape YYYY-MM-DD compare as the dates they name. *)
Lemma iso_text_compare (y m d y' m' d' : Z) :
  valid_date y m d = true -> valid_date y' m' d' = true ->
  String.compare (iso_text (y, m, d)) (iso_text (y', m', d'))
  = date_compare (y, m, d) (y', m', d').
Proof.
  intros Hv Hv'.
  pose proof (valid_date_bounds _ _ _ Hv) as (Hy & Hm & Hd).
  pose proof (valid_date_bounds _ _ _ Hv') as (Hy' & Hm' & Hd').
  destruct (decimal_digits y ltac:(lia)) as ((Ha & Hb & Hc & Hd0) & Ey).
  destruct (decimal_two_digits m ltac:(lia)) as ((Hm1 & Hm0) & Em).
  destruct (decimal_two_digits d ltac:(lia)) as ((Hd1 & Hd2) & Ed).
  destruct (decimal_digits y' ltac:(lia)) as ((Ha' & Hb' & Hc' & Hd0') & Ey').
  destruct (decimal_two_digits m' ltac:(lia)) as ((Hm1' & Hm0') & Em').
  destruct (decimal_two_digits d' ltac:(lia)) as ((Hd1' & Hd2') & Ed').
  unfold iso_text, zero_pad4, zero_pad2, date_compare.
  cbn [app string_of_list_ascii String.compare].
  rewrite !digit_char_compare by assumption.
  change (Ascii.compare "-" "-") with Eq. cbv iota.
  set (a := y / 1000 mod 10) in *. set (b := y / 100 mod 10) in *.
  set (c := y / 10 mod 10) in *. set (e := y mod 10) in *.
  set (a' := y' / 1000 mod 10) in *. set (b' := y' / 100 mod 10) in *.
  set (c' := y' / 10 mod 10) in *. set (e' := y' mod 10) in *.
  set (f := m / 10 mod 10) in *. set (g := m mod 10) in *.
  set (f' := m' / 10 mod 10) in *. set (g' := m' mod 10) in *.
  set (h := d / 10 mod 10) in *. set (i := d mod 10) in *.
  set (h' := d' / 10 mod 10) in *. set (i' := d' mod 10) in *.
  replace (d ?= d') with (match d ?= d' with Eq => Eq | Lt => Lt | Gt => Gt end)
    by (destruct (d ?= d'); reflexivity).
  replace y with (10 * (10 * (10 * a + b) + c) + e) by lia.
  replace y' with (10 * (10 * (10 * a' + b') + c') + e') by lia.
  replace m with (10 * f + g) by lia. replace m' with (10 * f' + g') by lia.
  replace d with (10 * h + i) by lia. replace d' with (10 * h' + i') by lia.
  rewrite !compare_two_digits by assumption.
  reflexivity.
Qed.

(** The text order of stored dates is the order of their days. *)
Lemma iso_text_leb (y m d y' m' d' : Z) :
  valid_date y m d = true -> valid_date y' m' d' = true ->
  String.leb (iso_text (y, m, d)) (iso_text (y', m', d'))
  = (ymd2ord y m d <=? ymd2ord y' m' d').
Proof.
  intros Hv Hv'. unfold String.leb, Z.leb.
  rewrite (iso_text_compare _ _ _ _ _ _ Hv Hv').
  rewrite (ymd2ord_compare _ _ _ _ _ _ (valid_date_in_calendar _ _ _ Hv)
             (valid_date_in_calendar _ _ _ Hv')).
  reflexivity.
Qed.

(** ** The query of [get_forex_data] *)

Lemma insert_by_date_perm (r : row) (l : list row) :
  Permutation (insert_by_date r l) (r :: l).
Proof.
  induction l as [| x rest IH]; [apply Permutation_refl |].
  cbn [insert_by_date]. destruct (String.leb _ _); [apply Permutation_refl |].
  apply perm_trans with (x :: r :: rest); [apply perm_skip, IH | apply perm_swap].
Qed.

Lemma order_by_date_perm (l : list row) : Permutation (order_by_date l) l.
Proof.
  induction l as [| r rest IH]; [apply Permutation_refl |].
  cbn [order_by_date fold_right].
  apply perm_trans with (r :: order_by_date rest);
    [apply insert_by_date_perm | apply perm_skip, IH].
Qed.

Lemma insert_by_date_sorted (r : row) (l : list row) :
  Sorted by_date l -> Sorted by_date (insert_by_date r l).
Proof.
  induction 1 as [| x rest Hs IH Hhd].
  - cbn. constructor; constructor.
  - cbn [insert_by_date].
    destruct (String.leb (date (fields r)) (date (fields x))) eqn:Hle.
    + constructor; [constructor; assumption | constructor; exact Hle].
    + constructor; [exact IH |].
      assert (by_date x r) as Hxr.
      { unfold by_date.
        destruct (String.leb_total (date (fields x)) (date (fields r))) as [H | H];
          [exact H | congruence]. }
      destruct rest as [| z rest']; [constructor; exact Hxr |].
      cbn [insert_by_date]. destruct (String.leb _ (date (fields z)));
        constructor; [exact Hxr | inversion Hhd; assumption].
Qed.

Lemma order_by_date_sorted (l : list row) : Sorted by_date (order_by_date l).
Proof.
  induction l as [| r rest IH]; [constructor |].
  cbn [order_by_date fold_right]. apply insert_by_date_sorted, IH.
Qed.

Lemma parse_period_days (p : string) (delta : Z) :
  parse_period p = Returned delta ->
  exists n, delta = timedelta_days n /\ 7 <= n <= 365.
Proof.
  unfold parse_period. cbv zeta.
  destruct (String.eqb _ _); [intros H; exists 7; split; [congruence | lia] |].
  destruct (String.eqb _ _); [intros H; exists 30; split; [congruence | lia] |].
  destruct (String.eqb _ _); [intros H; exists 90; split; [congruence | lia] |].
  destruct (String.eqb _ _); [intros H; exists 180; split; [congruence | lia] |].
  destruct (String.eqb _ _); [intros H; exists 365; split; [congruence | lia] |].
  discriminate.
Qed.

Lemma day_of_earlier (t n : Z) : day_of (t - timedelta_days n) = day_of t - n.
Proof.
  unfold day_of, timedelta_days.
  replace (t - n * microseconds_per_day) with (t + (- n) * microseconds_per_day) by lia.
  rewrite Z.div_add by (unfold microseconds_per_day; lia). lia.
Qed.

Lemma day_of_bounds (t : Z) :
  0 <= t <= datetime_max -> 1 <= day_of t <= 3652059.
Proof.
  intros [H0 H1]. unfold day_of.
  change datetime_max with (3652059 * microseconds_per_day - 1) in H1.
  assert (0 <= t / microseconds_per_day < 3652059); [| lia].
  unfold microseconds_per_day in *. split.
  - apply Z.div_pos; lia.
  - apply Z.div_lt_upper_bound; lia.
Qed.

Lemma strftime_datetime_spec (t : Z) :
  0 <= t <= datetime_max ->
  exists y m d,
    strftime_datetime t = strftime_Y_m_d (y, m, d) /\
    valid_date y m d = true /\ ymd2ord y m d = day_of t.
Proof.
  intros Ht. destruct (ord2ymd_valid (day_of t) (day_of_bounds t Ht))
    as (y & m & d & E & Hv & Ho).
  exists y, m, d. unfold strftime_datetime. fold (day_of t). rewrite E.
  repeat split; assumption.
Qed.

(** From the year 1000 on, the text of a [datetime] has four digits of
    year. *)
Lemma strftime_datetime_iso (t : Z) :
  datetime_of_date 1000 1 1 <= t <= datetime_max ->
  exists y m d,
    strftime_datetime t = iso_text (y, m, d) /\
    valid_date y m d = true /\ ymd2ord y m d = day_of t.
Proof.
  intros [Hlow Hhigh].
  assert (0 <= datetime_of_date 1000 1 1) as H0 by (vm_compute; discriminate).
  destruct (strftime_datetime_spec t ltac:(lia)) as (y & m & d & E & Hv & Ho).
  exists y, m, d. split; [| split; assumption].
  rewrite E. apply strftime_is_iso.
  destruct (Z_lt_ge_dec y 1000) as [Hy | Hy]; [exfalso | lia].
  pose proof (ymd2ord_lt_year y m d 1000 1 1 (valid_date_in_calendar _ _ _ Hv)
                ltac:(cbn; lia) Hy) as Hlt.
  assert (ymd2ord 1000 1 1 <= day_of t); [| lia].
  unfold day_of. unfold datetime_of_date in Hlow.
  assert (ymd2ord 1000 1 1 - 1 <= t / microseconds_per_day); [| lia].
  apply Z.div_le_lower_bound; [reflexivity | lia].
Qed.

(** Between two datetimes from the year 1000 on, a row whose date is the
    text [YYYY-MM-DD] of a day is in range exactly when it is of the pair
    and its day lies between their days. *)
Lemma in_range_days (pair : string) (t1 t2 : Z) (r : row) (y m d : Z) :
  datetime_of_date 1000 1 1 <= t1 <= datetime_max ->
  datetime_of_date 1000 1 1 <= t2 <= datetime_max ->
  date (fields r) = iso_text (y, m, d) -> valid_date y m d = true ->
  in_range pair (strftime_datetime t1) (strftime_datetime t2) r =
  String.eqb (currency_pair (fields r)) pair
  && (day_of t1 <=? ymd2ord y m d) && (ymd2ord y m d <=? day_of t2).
Proof.
  intros H1 H2 Hdate Hv.
  destruct (strftime_datetime_iso t1 H1) as (y1 & m1 & d1 & E1 & Hv1 & Ho1).
  destruct (strftime_datetime_iso t2 H2) as (y2 & m2 & d2 & E2 & Hv2 & Ho2).
  unfold in_range. rewrite E1, E2, Hdate.
  rewrite (iso_text_leb _ _ _ _ _ _ Hv1 Hv), (iso_text_leb _ _ _ _ _ _ Hv Hv2).
  rewrite Ho1, Ho2. reflexivity.
Qed.

Section QueryFacts.

Variable db_fault : nat -> option exn.
Variable now : Z.
Variable database_url : option table.

Lemma forex_query_returns (from_currency to_currency period : string)
    (days : Z) (w : world) :
  parse_period period = Returned (timedelta_days days) ->
  0 <= now - timedelta_days days ->
  db_fault (db_ops w) = None ->
  forex_query db_fault now database_url from_currency to_currency period w =
  (Returned
     (order_by_date
        (filter (in_range (from_currency ++ to_currency ++ "=X")%string
                   (strftime_datetime (now - timedelta_days days))
                   (strftime_datetime now))
                (queried database_url w))),
   tick_db w).
Proof.
  intros Hp H0 Hf. unfold forex_query, mbind, lift. cbv zeta. rewrite Hp.
  destruct (Z.ltb_spec (now - timedelta_days days) 0) as [Hlt | _]; [lia |].
  rewrite Hf. reflexivity.
Qed.

Lemma forex_query_window (period : string) (days : Z) :
  parse_period period = Returned (timedelta_days days) ->
  datetime_of_date 1000 1 1 <= now - timedelta_days days -> now <= datetime_max ->
  7 <= days <= 365 /\
  datetime_of_date 1000 1 1 <= now - timedelta_days days <= datetime_max /\
  datetime_of_date 1000 1 1 <= now <= datetime_max.
Proof.
  intros Hp H0 H1. destruct (parse_period_days _ _ Hp) as (n & En & Hn).
  assert (days = n) as ->.
  { unfold timedelta_days, microseconds_per_day in En. lia. }
  unfold timedelta_days, microseconds_per_day in *. lia.
Qed.

(** X22.  For a known period of [days] days, the query of [get_forex_data]
    returns, in ascending order of date, rows of the table it reads that
    are of the pair asked for.  When the range begins in the year 1000 or
    later, so that both bounds are written with four digits of year, a row
    of that pair whose date is the text [YYYY-MM-DD] of a day is returned
    exactly when its day is today or one of the [days] days before it: the
    range has [days + 1] calendar days.  The table is not changed. *)
Theorem forex_query_selects_days (from_currency to_currency period : string)
    (days : Z) (w : world) :
  parse_period period = Returned (timedelta_days days) ->
  0 <= now - timedelta_days days -> now <= datetime_max ->
  db_fault (db_ops w) = None ->
  exists rows,
    forex_query db_fault now database_url from_currency to_currency period w
    = (Returned rows, tick_db w) /\
    Sorted by_date rows /\
    (forall r, In r rows ->
       In r (queried database_url w) /\
       currency_pair (fields r) = (from_currency ++ to_currency ++ "=X")%string) /\
    (datetime_of_date 1000 1 1 <= now - timedelta_days days ->
     forall r ymd,
       In r (queried database_url w) ->
       currency_pair (fields r) = (from_currency ++ to_currency ++ "=X")%string ->
       date (fields r) = iso_text ymd ->
       valid_date (fst (fst ymd)) (snd (fst ymd)) (snd ymd) = true ->
       (In r rows <-> day_of now - days <= toordinal ymd <= day_of now)).
Proof.
  intros Hp H0 H1 Hf.
  rewrite (forex_query_returns _ _ _ _ _ Hp H0 Hf).
  eexists. split; [reflexivity |]. split; [apply order_by_date_sorted |].
  split.
  - intros r Hr.
    apply (Permutation_in _ (order_by_date_perm _)) in Hr.
    apply filter_In in Hr. destruct Hr as (Hin & Hr). split; [exact Hin |].
    unfold in_range in Hr. rewrite !andb_true_iff in Hr.
    apply String.eqb_eq, Hr.
  - intros H1000 r [[y m] d] Hin Hpair Hdate Hv. cbn [fst snd toordinal] in *.
    destruct (forex_query_window period days Hp H1000 H1)
      as (Hdays & Hstart & Hend).
    rewrite <- day_of_earlier. split.
    + intros Hr. apply (Permutation_in _ (order_by_date_perm _)) in Hr.
      apply filter_In in Hr. destruct Hr as (_ & Hr).
      rewrite (in_range_days _ _ _ _ _ _ _ Hstart Hend Hdate Hv) in Hr.
      rewrite !andb_true_iff, !Z.leb_le in Hr. lia.
    + intros Hr. apply (Permutation_in _ (Permutation_sym (order_by_date_perm _))).
      apply filter_In. split; [exact Hin |].
      rewrite (in_range_days _ _ _ _ _ _ _ Hstart Hend Hdate Hv).
      rewrite !andb_true_iff, !Z.leb_le, String.eqb_eq.
      split; [split; [exact Hpair | lia] | lia].
Qed.

(** X24.  The query only reads: whatever it returns or raises, the table,
    the cache and the count of requests are as before and at most one
    database operation was made; and for a name that is not a period it
    raises [ValueError] before any database operation. *)
Theorem forex_query_reads_only (from_currency to_currency period : string)
    (w : world) :
  let res := forex_query db_fault now database_url from_currency to_currency
               period w in
  db (snd res) = db w /\ cache (snd res) = cache w /\
  requests (snd res) = requests w /\
  (db_ops w <= db_ops (snd res) <= db_ops w + 1)%nat /\
  (In (upper_string period) periods \/ res = (Raised ValueError, w)).
Proof.
  unfold forex_query, mbind, lift, raise. cbv zeta.
  assert (forall d, parse_period period = Returned d -> In (upper_string period) periods)
    as Hknown.
  { unfold parse_period, periods. cbv zeta. intros d.
    repeat match goal with
      | |- context [String.eqb ?a ?b] =>
          destruct (String.eqb_spec a b) as [-> | _]; [intros _; cbn; auto 10 |]
      end.
    discriminate. }
  destruct (parse_period period) as [d | e] eqn:Hp.
  - specialize (Hknown d eq_refl).
    destruct (now - d <? 0); [cbn; repeat split; auto; lia |].
    destruct (db_fault (db_ops w)); cbn; repeat split; auto; lia.
  - assert (e = ValueError) as ->.
    { revert Hp. unfold parse_period. cbv zeta.
      repeat (destruct (String.eqb _ _); [discriminate |]).
      intros H; inversion H; reflexivity. }
    cbn. repeat split; auto; lia.
Qed.

End QueryFacts.

(** X23.  What a save has written the query finds, when [DATABASE_URL] is
    not set, or names the file exchange_rates.db that the scraper writes,
    and the bounds of the range have four digits of year: after a save that
    returned, a record of the batch that is of the pair asked for and whose
    date is the text [YYYY-MM-DD] of a day within a range that begins in
    the year 1000 or later has a row with its key among the rows returned,
    so the answer is not empty. *)
Theorem saved_rates_are_found (db_fault : nat -> option exn) (now : Z)
    (utcnow : nat -> Z)
    (from_currency to_currency period : string) (days : Z)
    (rates : list rate_data) (rate : rate_data) (ymd : Z * Z * Z)
    (w w1 : world) :
  save_to_database db_fault utcnow rates w = (Returned tt, w1) ->
  In rate rates ->
  currency_pair rate = (from_currency ++ to_currency ++ "=X")%string ->
  date rate = iso_text ymd ->
  valid_date (fst (fst ymd)) (snd (fst ymd)) (snd ymd) = true ->
  parse_period period = Returned (timedelta_days days) ->
  datetime_of_date 1000 1 1 <= now - timedelta_days days -> now <= datetime_max ->
  day_of now - days <= toordinal ymd <= day_of now ->
  db_fault (db_ops w1) = None ->
  exists rows r,
    forex_query db_fault now None from_currency to_currency period w1
    = (Returned rows, tick_db w1) /\
    In r rows /\ row_key r = key_of rate.
Proof.
  intros Hsave Hin Hpair Hdate Hv Hp H1000 H1 Hday Hf.
  destruct ymd as [[y m] d]. cbn [fst snd toordinal] in *.
  destruct (forex_query_window now period days Hp H1000 H1)
    as (Hdays & Hstart & Hend).
  assert (0 <= datetime_of_date 1000 1 1) as H0 by (vm_compute; discriminate).
  rewrite (forex_query_returns db_fault now None _ _ _ _ _ Hp ltac:(lia) Hf).
  cbn [queried].
  pose proof (save_cases db_fault utcnow rates w) as Hc. rewrite Hsave in Hc.
  destruct Hc as (Hdb & _).
  pose proof (upsert_all_stores utcnow rates (db_ops w) (db w) rate Hin) as Hex.
  rewrite <- Hdb in Hex. apply existsb_exists in Hex.
  destruct Hex as (r & Hr & Hkey). apply same_key_iff in Hkey.
  eexists. exists r. split; [reflexivity |]. split; [| exact Hkey].
  apply (Permutation_in _ (Permutation_sym (order_by_date_perm _))).
  apply filter_In. split; [exact Hr |].
  unfold row_key, key_of in Hkey. inversion Hkey as [[Hk1 Hk2]].
  rewrite (in_range_days _ _ _ _ y m d Hstart Hend) by congruence.
  rewrite day_of_earlier, !andb_true_iff, !Z.leb_le, String.eqb_eq.
  rewrite Hk1. repeat split; [exact Hpair | lia | lia].
Qed.

(** X21.  From the year 1000 on, the stored date texts are ordered as the
    days they name: for two date cells accepted by the parser whose years
    have four digits, the byte-by-byte order of the texts stored for them,
    which the query of [get_forex_data] uses, is the order of the days. *)
Theorem stored_dates_order (s1 s2 : string) (d1 d2 : Z * Z * Z) :
  strptime_b_d_Y s1 = Returned d1 -> strptime_b_d_Y s2 = Returned d2 ->
  1000 <= fst (fst d1) -> 1000 <= fst (fst d2) ->
  String.compare (strftime_Y_m_d d1) (strftime_Y_m_d d2) = date_compare d1 d2 /\
  String.leb (strftime_Y_m_d d1) (strftime_Y_m_d d2)
  = (toordinal d1 <=? toordinal d2).
Proof.
  destruct d1 as [[y1 m1] e1], d2 as [[y2 m2] e2]. intros H1 H2 Hy1 Hy2.
  cbn [fst] in Hy1, Hy2.
  apply strptime_b_d_Y_valid in H1, H2. cbn [toordinal].
  rewrite (strftime_is_iso y1 m1 e1 Hy1), (strftime_is_iso y2 m2 e2 Hy2). split.
  - apply iso_text_compare; assumption.
  - apply iso_text_leb; assumption.
Qed.

Lemma stored_dates_order_witness :
  String.leb (strftime_Y_m_d (2024, 1, 31)) (strftime_Y_m_d (2024, 2, 1))
  = (toordinal (2024, 1, 31) <=? toordinal (2024, 2, 1)).
Proof.
  apply (stored_dates_order "Jan 31, 2024" "Feb 1, 2024");
    [reflexivity | reflexivity | cbn; lia | cbn; lia].
Defined.

Lemma forex_query_selects_days_witness :
  exists rows,
    forex_query no_faults (datetime_of_date 2024 1 15) None "GBP" "INR" "1w"
      empty_world
    = (Returned rows, tick_db empty_world) /\ Sorted by_date rows.
Proof.
  destruct (forex_query_selects_days no_faults (datetime_of_date 2024 1 15) None
              "GBP" "INR" "1w" 7 empty_world) as (rows & H & Hs & _).
  - reflexivity.
  - vm_compute. discriminate.
  - vm_compute. discriminate.
  - reflexivity.
  - exists rows. split; assumption.
Defined.

Lemma saved_rates_are_found_witness :
  let rate := sample_rate "GBPINR=X" "2024-01-12" 10548 0 in
  let w1 := snd (save_to_database no_faults sample_clock [rate] empty_world) in
  exists rows r,
    forex_query no_faults (datetime_of_date 2024 1 15) None "GBP" "INR" "1W" w1
    = (Returned rows, tick_db w1) /\
    In r rows /\ row_key r = key_of rate.
Proof.
  intros rate w1.
  apply (saved_rates_are_found no_faults (datetime_of_date 2024 1 15) sample_clock
           "GBP" "INR" "1W" 7 [rate] rate (2024, 1, 12) empty_world w1).
  - reflexivity.
  - left. reflexivity.
  - reflexivity.
  - reflexivity.
  - reflexivity.
  - reflexivity.
  - vm_compute. discriminate.
  - vm_compute. discriminate.
  - vm_compute. split; discriminate.
  - reflexivity.
Defined.

(* ===================================================================== *)
(** * Further properties of a run that succeeds                           *)
(* ===================================================================== *)

Lemma concat_not_empty (sep : string) (pages : list string) :
  pages <> [] -> (forall x, In x pages -> x <> "") ->
  String.concat sep pages <> "".
Proof.
  destruct pages as [| x [| y rest]]; intros Hne Hall; [contradiction | |].
  - cbn. apply Hall. left. reflexivity.
  - cbn [String.concat]. pose proof (Hall x (or_introl eq_refl)) as Hx.
    destruct x as [| c x']; [contradiction | discriminate].
Qed.

Section SuccessFacts.

Variable soup_rows : string -> list (list string).
Variable net : nat -> string -> Z -> Z -> http_outcome.
Variable db_fault : nat -> option exn.
Variable utcnow : nat -> Z.
Variable completion : list (nat * (Z * Z)) -> list (nat * (Z * Z)).
Variable localtime : Z -> option Z.

(** While the source serves every window and the database does not fail,
    the collecting loop adds the page of each future, in order. *)
Lemma collect_all_pages (self : nat) (quote : string) (total_chunks : nat)
    (page : Z -> Z -> string) :
  (forall k, db_fault k = None) ->
  (forall n f t, net n quote f t = Response 200 (page f t)) ->
  (forall f t, page f t <> "") ->
  forall done data w,
    (forall f t, cache_agrees (self, quote, f, t) (Some (page f t)) w) ->
    fst (collect soup_rows net db_fault utcnow self quote total_chunks done data w)
    = data ++ pages_of page done.
Proof.
  intros Hnf Hnet Hne. induction done as [| [i [f t]] rest IH]; intros data w Hag.
  - cbn. rewrite app_nil_r. reflexivity.
  - rewrite (collect_step_settled soup_rows net db_fault utcnow self quote
               total_chunks i f t (Some (page f t)) rest data w Hnf
               (always_page_settled net quote f t (page f t) (fun n => Hnet n f t))
               (Hag f t)).
    rewrite (truthy_page _ (Hne f t)).
    rewrite IH.
    + rewrite <- app_assoc. reflexivity.
    + intros f' t'. apply task_keeps_agreement; [| apply Hag].
      apply always_page_settled. intros n. apply Hnet.
Qed.

Lemma run_chunks_all_pages (self : nat) (quote : string) (f t : Z)
    (page : Z -> Z -> string) (w : world) :
  (forall k, db_fault k = None) ->
  (forall n f' t', net n quote f' t' = Response 200 (page f' t')) ->
  (forall f' t', page f' t' <> "") ->
  (forall f' t', cache_agrees (self, quote, f', t') (Some (page f' t')) w) ->
  fst (run_chunks soup_rows net db_fault utcnow completion self quote f t w)
  = Returned
      (match completion (enumerate (Planner.plan f t)) with
       | [] => None
       | done => Some (String.concat newline (pages_of page done))
       end).
Proof.
  intros Hnf Hnet Hne Hag. unfold run_chunks.
  pose proof (collect_all_pages self quote (List.length (Planner.plan f t)) page
                Hnf Hnet Hne (completion (enumerate (Planner.plan f t))) [] w Hag)
    as Hc.
  destruct (collect _ _ _ _ _ _ _ _ _ _) as [all_data w1]. cbn [fst app] in Hc.
  subst all_data.
  destruct (completion (enumerate (Planner.plan f t))) as [| x rest]; reflexivity.
Qed.

(** X25.  The pages are joined in the order in which the futures complete,
    not in the order of the windows: for bounds that are instants of
    [datetime], while the source serves every window and the database does
    not fail, [get_exchange_data] returns the pages of the yielded futures,
    one after the other in that order, joined by line breaks. *)
Theorem pages_in_completion_order (self : nat) (quote : string) (f t : Z)
    (page : Z -> Z -> string) (w : world) :
  in_datetime_range localtime f = true ->
  in_datetime_range localtime t = true ->
  (forall k, db_fault k = None) ->
  (forall n f' t', net n quote f' t' = Response 200 (page f' t')) ->
  (forall f' t', page f' t' <> "") ->
  (forall f' t', cache_agrees (self, quote, f', t') (Some (page f' t')) w) ->
  fst (get_exchange_data soup_rows net db_fault utcnow completion localtime
         self quote f t w)
  = Returned
      (match completion (enumerate (Planner.plan f t)) with
       | [] => None
       | done => Some (String.concat newline (pages_of page done))
       end) /\
  (completion (enumerate (Planner.plan f t)) <> [] ->
   fst (get_exchange_data soup_rows net db_fault utcnow completion localtime
          self quote f t w)
   <> Returned None /\
   fst (get_exchange_data soup_rows net db_fault utcnow completion localtime
          self quote f t w)
   <> Returned (Some "")).
Proof.
  intros Hf Ht Hnf Hnet Hne Hag.
  rewrite (get_exchange_data_in_range soup_rows net db_fault utcnow completion
             localtime self quote f t w Hf Ht).
  rewrite (run_chunks_all_pages self quote f t page w Hnf Hnet Hne Hag).
  split; [reflexivity |]. intros Hdone.
  destruct (completion (enumerate (Planner.plan f t))) as [| x rest] eqn:E;
    [contradiction |].
  split; [discriminate |].
  assert (String.concat newline (pages_of page (x :: rest)) <> "") as Hjoined.
  { apply concat_not_empty; [discriminate |].
    intros p Hp. unfold pages_of in Hp. apply in_map_iff in Hp.
    destruct Hp as (y & <- & _). apply Hne. }
  intros H. apply Hjoined. congruence.
Qed.

Variable now utc_offset : Z.

(** X26.  A run that succeeds: with a clock inside the years of
    [datetime] and bounds that are instants of [datetime], while the source
    serves every window of the pair, the cache holds nothing for the new
    scraper, the database does not fail and the joined pages have records,
    all dated [YYYY-MM-DD], [process_single_pair] reports a count for each
    period, none above the number of records, and every record has a row
    with its key in the table. *)
Theorem pair_summary_success (from_currency to_currency : string)
    (page : Z -> Z -> string) (recs : list rate_data) (w : world) :
  let pair := (from_currency ++ to_currency ++ "=X")%string in
  let done := completion (enumerate
                (Planner.plan (timestamp utc_offset (now - timedelta_days 365))
                              (timestamp utc_offset now))) in
  clock_inside now ->
  year_in_datetime_range localtime now utc_offset ->
  (forall k, db_fault k = None) ->
  (forall n f t, net n pair f t = Response 200 (page f t)) ->
  (forall f t, page f t <> "") ->
  (forall k, In k (map fst (cache w)) -> fst (fst (fst k)) <> scrapers w) ->
  done <> [] ->
  parse_exchange_data soup_rows (String.concat newline (pages_of page done)) pair
  = Returned (Some recs) ->
  Forall (fun r => iso_date (date r) = true) recs ->
  exists a b c d e w',
    process_single_pair soup_rows net db_fault utcnow completion now utc_offset
      localtime from_currency to_currency w
    = (Returned (pair, success_entries a b c d e), w') /\
    ((a <= b)%nat /\ (b <= c)%nat /\ (c <= d)%nat /\ (d <= e)%nat /\
     (e <= List.length recs)%nat) /\
    forall rate, In rate recs -> exists r, In r (db w') /\ row_key r = key_of rate.
Proof.
  intros pair done Hclock Hrange Hnf Hnet Hne Hfresh Hdone Hparse Hiso.
  subst pair done.
  rewrite (process_single_pair_run soup_rows net db_fault utcnow completion now
             utc_offset localtime _ _ _ (clock_inside_past_first_year now Hclock)
             (Hnf _) Hrange).
  unfold try_except, mbind.
  match goal with
  | |- context [run_chunks _ _ _ _ _ ?self ?q ?f ?t ?w0] =>
      pose proof (run_chunks_all_pages self q f t page w0 Hnf Hnet Hne) as Hget;
      destruct (run_chunks soup_rows net db_fault utcnow completion
                  self q f t w0) as [r w1]
  end.
  cbn [fst] in Hget. rewrite Hget.
  2:{ intros f t. left. cbn [cache scraper_made]. apply cache_find_absent.
      intros Hin. apply (Hfresh _ Hin). reflexivity. }
  destruct (completion _) as [| x rest] eqn:E; [contradiction |].
  assert (String.concat newline (pages_of page (x :: rest)) <> "") as Hjoined.
  { apply concat_not_empty; [discriminate |].
    intros p Hp. unfold pages_of in Hp. apply in_map_iff in Hp.
    destruct Hp as (y & <- & _). apply Hne. }
  unfold summarise, mbind, lift, ret.
  rewrite (truthy_page _ Hjoined). cbn [negb]. rewrite Hparse.
  destruct (parse_exchange_data_returns soup_rows
              (String.concat newline (pages_of page (x :: rest)))
              (from_currency ++ to_currency ++ "=X")%string)
    as (res & Hres & Hrecs).
  rewrite Hparse in Hres. inversion Hres; subst res.
  destruct (Hrecs recs eq_refl) as (Hflat & Hnonempty).
  destruct recs as [| r0 rs]; [contradiction |].
  pose proof (save_cases db_fault utcnow (r0 :: rs) w1) as Hc.
  destruct (save_returns db_fault utcnow (r0 :: rs) w1) as (w2 & Hsave).
  { intros i _. apply Hnf. }
  rewrite Hsave in Hc. rewrite Hsave. destruct Hc as (Hdb & _).
  assert (Forall (fun x => exists t, strptime_Y_m_d (date x) = Returned t) (r0 :: rs))
    as Hdates.
  { apply Forall_forall. intros y Hy.
    pose proof (proj1 (Forall_forall _ _) Hiso y Hy) as Hy_iso.
    rewrite Hflat in Hy. apply in_flat_map in Hy. destruct Hy as (cols & _ & Hy).
    exact (row_record_reads_back _ cols y Hy Hy_iso). }
  assert (timedelta_days 365 <= now) as Hyear.
  { pose proof (clock_inside_past_first_year now Hclock). lia. }
  destruct (period_loop_periods now (r0 :: rs) Hyear Hdates)
    as (a & b & c & d & e & Hloop & Hab & Hbc & Hcd & Hde & Hlen).
  rewrite Hloop. exists a, b, c, d, e, w2. split; [reflexivity |].
  split; [repeat split; assumption |].
  intros rate Hin.
  pose proof (upsert_all_stores utcnow (r0 :: rs) (db_ops w1) (db w1) rate Hin) as Hex.
  rewrite <- Hdb in Hex. apply existsb_exists in Hex.
  destruct Hex as (r' & Hr' & Hkey). exists r'. split; [exact Hr' |].
  apply same_key_iff, Hkey.
Qed.

End SuccessFacts.

Lemma pages_in_completion_order_witness :
  fst (get_exchange_data sample_soup (flaky_source 0) no_faults sample_clock in_order
         utc 0 "GBPINR=X" 1700000000 1708985600 empty_world)
  = Returned
      (match in_order (enumerate (Planner.plan 1700000000 1708985600)) with
       | [] => None
       | done => Some (String.concat newline (pages_of (fun _ _ => "<table/>") done))
       end).
Proof.
  refine (proj1 (pages_in_completion_order sample_soup (flaky_source 0) no_faults
                   sample_clock in_order utc 0 "GBPINR=X" 1700000000 1708985600
                   (fun _ _ => "<table/>") empty_world _ _ _ _ _ _)).
  - reflexivity.
  - reflexivity.
  - intros k. reflexivity.
  - intros n f t. reflexivity.
  - intros f t. discriminate.
  - intros f t. left. reflexivity.
Defined.

Lemma year_plan_not_empty (now utc_offset : Z)
    (completion : list (nat * (Z * Z)) -> list (nat * (Z * Z))) :
  (forall l, List.length (completion l) = List.length l) ->
  unix_epoch + utc_offset * 1000000 + timedelta_days 365 <= now ->
  completion (enumerate
    (Planner.plan (timestamp utc_offset (now - timedelta_days 365))
                  (timestamp utc_offset now))) <> [].
Proof.
  intros Hlen Hnow H. apply (f_equal (@List.length _)) in H.
  rewrite Hlen, enumerate_length in H. apply (f_equal Z.of_nat) in H.
  rewrite plan_length in H by (rewrite (timestamp_year_apart _ _ Hnow); lia).
  rewrite (timestamp_year_apart _ _ Hnow) in H.
  replace (timestamp utc_offset (now - timedelta_days 365) + 31536000
           - timestamp utc_offset (now - timedelta_days 365)) with 31536000 in H by lia.
  vm_compute in H. discriminate.
Qed.

Lemma pair_summary_success_witness :
  exists a b c d e w',
    process_single_pair (fun _ => [quote_row "-"]) (flaky_source 0) no_faults
      sample_clock in_order (datetime_of_date 2024 1 15) 0 utc "GBP" "INR"
      empty_world
    = (Returned ("GBPINR=X", success_entries a b c d e), w').
Proof.
  assert (in_order (enumerate
            (Planner.plan (timestamp 0 (datetime_of_date 2024 1 15 - timedelta_days 365))
                          (timestamp 0 (datetime_of_date 2024 1 15)))) <> []) as Hdone.
  { apply year_plan_not_empty; [intros l; reflexivity |]. vm_compute. discriminate. }
  destruct (pair_summary_success (fun _ => [quote_row "-"]) (flaky_source 0) no_faults
              sample_clock in_order utc (datetime_of_date 2024 1 15) 0 "GBP" "INR"
              (fun _ _ => "<table/>")
              (records_of (parse_exchange_data (fun _ => [quote_row "-"])
                             "<table/>" "GBPINR=X"))
              empty_world)
    as (a & b & c & d & e & w' & H & _).
  - split; vm_compute; discriminate.
  - split; reflexivity.
  - intros k. reflexivity.
  - intros n f t. reflexivity.
  - intros f t. discriminate.
  - intros k H. destruct H.
  - exact Hdone.
  - rewrite parse_exchange_data_cases.
    match goal with
    | |- context [String.eqb ?joined ""] =>
        destruct (String.eqb_spec joined "") as [Hempty | _]
    end.
    + exfalso. revert Hempty. apply concat_not_empty.
      { intros Hnil. apply Hdone. apply map_eq_nil in Hnil. exact Hnil. }
      intros p Hp. unfold pages_of in Hp. apply in_map_iff in Hp.
      destruct Hp as (y & <- & _). discriminate.
    + reflexivity.
  - repeat constructor.
  - exists a, b, c, d, e, w'. exact H.
Defined.

(* ===================================================================== *)
(** * Further properties of the validation of a row                       *)
(* ===================================================================== *)

Lemma lstrip_split (cs : list ascii) :
  exists ws, cs = ws ++ lstrip cs /\ Forall (fun c => is_space c = true) ws.
Proof.
  induction cs as [| c rest (ws & E & Hws)]; [exists []; split; [reflexivity | constructor] |].
  cbn [lstrip]. destruct (is_space c) eqn:Hc.
  - exists (c :: ws). split; [cbn; f_equal; exact E | constructor; assumption].
  - exists []. split; [reflexivity | constructor].
Qed.

Lemma rstrip_split (cs : list ascii) :
  exists ws, cs = rstrip cs ++ ws /\ Forall (fun c => is_space c = true) ws.
Proof.
  destruct (lstrip_split (rev cs)) as (ws & E & Hws).
  exists (rev ws). split.
  - unfold rstrip. rewrite <- rev_app_distr, <- E, rev_involutive. reflexivity.
  - apply Forall_rev, Hws.
Qed.

Lemma space_is_no_comma (c : ascii) :
  is_space c = true -> negb (Ascii.eqb c ",") = true.
Proof.
  destruct (Ascii.eqb_spec c ",") as [-> | _]; [discriminate | reflexivity].
Qed.

Lemma filter_all {A} (f : A -> bool) (l : list A) :
  Forall (fun x => f x = true) l -> filter f l = l.
Proof.
  induction 1 as [| x l Hx _ IH]; [reflexivity |].
  cbn [filter]. rewrite Hx, IH. reflexivity.
Qed.

(** A cell that is a placeholder once stripped has no comma to remove, and
    [float] does not accept it. *)
Lemma placeholder_not_float (t : string) :
  placeholder (strip t) = true -> py_float (remove_commas t) = Raised ValueError.
Proof.
  intros H.
  destruct (lstrip_split (list_ascii_of_string t)) as (ws1 & E1 & H1).
  destruct (rstrip_split (lstrip (list_ascii_of_string t))) as (ws2 & E2 & H2).
  assert (list_ascii_of_string (strip t)
          = rstrip (lstrip (list_ascii_of_string t))) as Hcore.
  { unfold strip. apply list_ascii_of_string_of_list_ascii. }
  assert (Forall (fun c => negb (Ascii.eqb c ",") = true)
                 (list_ascii_of_string (strip t))
          /\ py_float (strip t) = Raised ValueError) as (Hnc & Hraise).
  { unfold placeholder in H. cbn [existsb] in H.
    repeat match type of H with
      | orb (String.eqb ?a ?b) _ = true =>
          destruct (String.eqb_spec a b) as [Heq |]; cbn [orb] in H;
          [rewrite Heq; split; [repeat constructor | reflexivity] |]
      end.
    discriminate. }
  assert (remove_commas t = t) as ->.
  { unfold remove_commas. rewrite filter_all.
    - apply string_of_list_ascii_of_string.
    - rewrite E1, E2, <- Hcore. apply Forall_app. split.
      + eapply Forall_impl; [| exact H1]. apply space_is_no_comma.
      + apply Forall_app. split; [exact Hnc |].
        eapply Forall_impl; [| exact H2]. apply space_is_no_comma. }
  assert (forall s, py_float (strip s) = py_float s) as Hstrip.
  { intros s. unfold py_float, strip.
    rewrite list_ascii_of_string_of_list_ascii.
    assert (forall cs, lstrip (rstrip (lstrip cs)) = rstrip (lstrip cs)) as Hl.
    { intros cs. destruct (rstrip_split (lstrip cs)) as (ws & E & _).
      destruct (rstrip (lstrip cs)) as [| c rest] eqn:Er; [reflexivity |].
      assert (is_space c = false) as Hc.
      { destruct (lstrip cs) as [| c' rest'] eqn:El; [destruct rest; discriminate |].
        cbn [app] in E. inversion E; subst c'.
        clear - El. induction cs as [| x xs IH]; [discriminate |].
        cbn [lstrip] in El. destruct (is_space x) eqn:Hx; [apply IH, El |].
        inversion El; subst. exact Hx. }
      cbn [lstrip]. rewrite Hc. reflexivity. }
    assert (forall cs, rstrip (rstrip cs) = rstrip cs) as Hr.
    { intros cs. unfold rstrip. rewrite rev_involutive.
      f_equal. clear. generalize (rev cs). intros l.
      induction l as [| x xs IH]; [reflexivity |].
      cbn [lstrip]. destruct (is_space x) eqn:Hx; [exact IH |].
      cbn [lstrip]. rewrite Hx. reflexivity. }
    rewrite Hl, Hr. reflexivity. }
  rewrite <- Hstrip. exact Hraise.
Qed.

(** X27.  The validation of the five rate cells never decides alone: a rate
    cell that it rejects ('-', the empty text, 'null' or 'None' once
    stripped) is also refused by the conversion [float], with the
    [ValueError] that the parser catches, so a row is skipped either way. *)
Theorem validation_never_decides (cols : list string) :
  existsb (fun t => placeholder (strip t)) (firstn 5 (skipn 1 cols)) = true ->
  exists i, (1 <= i <= 5)%nat /\ rate_cell cols i = Raised ValueError /\
            caught_by_parser ValueError = true.
Proof.
  intros H. apply existsb_exists in H. destruct H as (t & Hin & Hp).
  apply In_nth_error in Hin. destruct Hin as (k & Hk).
  assert (k < 5)%nat as Hlt.
  { pose proof (nth_error_Some (firstn 5 (skipn 1 cols)) k) as Hs.
    rewrite Hk in Hs. pose proof (proj1 Hs ltac:(discriminate)) as Hl.
    rewrite length_firstn in Hl. lia. }
  exists (S k). split; [lia |]. split; [| reflexivity].
  unfold rate_cell, cell.
  rewrite nth_error_firstn in Hk.
  destruct (Nat.ltb_spec k 5) as [_ | Hge]; [| lia].
  rewrite nth_error_skipn in Hk. cbn [Nat.add] in Hk. rewrite Hk. cbn [bind].
  apply placeholder_not_float, Hp.
Qed.

Lemma validation_never_decides_witness :
  exists i, (1 <= i <= 5)%nat /\ rate_cell no_close_row i = Raised ValueError /\
            caught_by_parser ValueError = true.
Proof.
  apply (validation_never_decides no_close_row). reflexivity.
Defined.

(* ===================================================================== *)
(** * Further properties of the cache across runs                         *)
(* ===================================================================== *)

Lemma plan_lower_bound (f t : Z) :
  Forall (fun w => f <= fst w) (Planner.plan f t).
Proof.
  eapply Forall_impl; [| apply plan_within]. intros w [H _]. exact H.
Qed.

Lemma plan_nodup (f t : Z) : NoDup (Planner.plan f t).
Proof.
  unfold Planner.plan. pattern f, t. apply chunk_loop_ind; clear f t.
  - intros f t H. rewrite chunk_loop_ge by exact H. constructor.
  - intros f t H IH. rewrite chunk_loop_lt by exact H. constructor; [| exact IH].
    intros Hin.
    pose proof (plan_lower_bound (Z.min (f + Planner.three_months) t + 1) t) as Hlow.
    unfold Planner.plan in Hlow. rewrite Forall_forall in Hlow.
    specialize (Hlow _ Hin). cbn [fst] in Hlow. unfold Planner.three_months in Hlow. lia.
Qed.

Lemma in_firstn {A} (n : nat) (l : list A) (x : A) :
  In x (firstn n l) -> In x l.
Proof.
  revert n. induction l as [| y l IH]; intros [| n] H; cbn [firstn] in H;
    try contradiction.
  destruct H as [-> | H]; [left; reflexivity | right; exact (IH n H)].
Qed.

Lemma enumerate_windows {A} (l : list A) : map snd (enumerate l) = l.
Proof.
  unfold enumerate. generalize 0%nat.
  induction l as [| x l IH]; intros n; [reflexivity |].
  cbn [List.length seq combine map snd]. rewrite IH. reflexivity.
Qed.

Section CacheAcrossRuns.

Variable soup_rows : string -> list (list string).
Variable net : nat -> string -> Z -> Z -> http_outcome.
Variable db_fault : nat -> option exn.
Variable utcnow : nat -> Z.
Variable completion : list (nat * (Z * Z)) -> list (nat * (Z * Z)).

(** A call that misses asks the source at least once and puts its key in
    front of the entries that were there. *)
Lemma fetch_chunk_miss_asks (self : nat) (quote : string) (f t : Z) (w : world) :
  cache_find (self, quote, f, t) (cache w) = None ->
  (requests w + 1 <= requests (snd (_fetch_chunk net self quote f t w)))%nat /\
  exists v,
    cache (snd (_fetch_chunk net self quote f t w))
    = firstn maxsize ((self, quote, f, t, v) :: cache w).
Proof.
  intros Hfind.
  destruct (fetch_chunk_miss net self quote f t w Hfind)
    as (v & w1 & Hb & _ & _ & _ & _ & _ & Hcall).
  rewrite Hcall. cbn [snd with_cache requests cache]. split; [| exists v; reflexivity].
  rewrite fetch_chunk_body_eq in Hb. unfold _fetch_data_with_retry in Hb.
  pose proof (retry_loop_result net quote f t 3 (seq 0 3) w) as Hres.
  destruct (retry_loop net quote f t 3 (seq 0 3) w) as [[[text |] | e] w2];
    cbn [fst snd List.length seq] in Hres; inversion Hb; subst w1.
  - destruct Hres as (i & _ & Hreq & _). rewrite Hreq. lia.
  - destruct Hres as (Hreq & _). rewrite Hreq. lia.
  - destruct Hres as (i & _ & _ & Hreq & _). rewrite Hreq. lia.
Qed.

Lemma fetch_chunk_keeps_older (bound self : nat) (quote : string) (f t : Z)
    (w : world) :
  (self < bound)%nat -> cache_older bound w ->
  cache_older bound (snd (_fetch_chunk net self quote f t w)).
Proof.
  intros Hself Hold. unfold cache_older in *.
  destruct (cache_find (self, quote, f, t) (cache w)) as [v |] eqn:Hfind.
  - rewrite (fetch_chunk_hit net _ _ _ _ _ _ Hfind). cbn [snd with_cache cache map fst].
    constructor; [exact Hself |].
    rewrite Forall_forall in *. intros k Hk. apply Hold.
    apply in_map_iff in Hk. destruct Hk as (kv & <- & Hkv).
    apply filter_In in Hkv. apply in_map, Hkv.
  - destruct (fetch_chunk_miss_asks self quote f t w Hfind) as (_ & v & Hc).
    rewrite Hc. rewrite Forall_forall in *. intros k Hk.
    apply in_map_iff in Hk. destruct Hk as (kv & <- & Hkv).
    apply in_firstn in Hkv. destruct Hkv as [<- | Hkv]; [exact Hself |].
    apply Hold. apply in_map, Hkv.
Qed.

(** With distinct windows, none of them cached, every turn of the
    collecting loop asks the source. *)
Lemma collect_all_miss (bound self : nat) (quote : string) (total_chunks : nat)
    (done : list (nat * (Z * Z))) :
  (self < bound)%nat ->
  forall data w,
    NoDup (map snd done) ->
    (forall x, In x (map snd done) ->
       cache_find (self, quote, fst x, snd x) (cache w) = None) ->
    cache_older bound w ->
    (requests w + List.length done
     <= requests (snd (collect soup_rows net db_fault utcnow self quote total_chunks
                         done data w)))%nat /\
    cache_older bound
      (snd (collect soup_rows net db_fault utcnow self quote total_chunks done data w)).
Proof.
  intros Hself. induction done as [| [i [f t]] rest IH]; intros data w Hnd Hmiss Hold.
  - cbn. split; [lia | exact Hold].
  - cbn [collect].
    destruct (task_effects soup_rows net db_fault utcnow self quote f t (i + 1)
                total_chunks w)
      as (v & w1 & r & w' & Hf & Ht & Hq & Hca & _).
    pose proof (Hmiss (f, t) (or_introl eq_refl)) as Hfind. cbn [fst snd] in Hfind.
    destruct (fetch_chunk_miss_asks self quote f t w Hfind) as (Hreq & v' & Hc).
    pose proof (fetch_chunk_keeps_older bound self quote f t w Hself Hold) as Hold1.
    rewrite Hf in Hreq, Hc, Hold1. cbn [snd] in Hreq, Hc, Hold1.
    cbn [map snd] in Hnd. inversion Hnd as [| ? ? Hnotin Hnd']; subst.
    assert (forall x, In x (map snd rest) ->
              cache_find (self, quote, fst x, snd x) (cache w') = None) as Hmiss'.
    { intros [f2 t2] Hx. cbn [fst snd]. rewrite Hca, Hc.
      destruct (cache_find_firstn (self, quote, f2, t2) maxsize
                  ((self, quote, f, t, v') :: cache w)) as [E | E];
        (etransitivity; [exact E |]); [reflexivity |].
      cbn [cache_find].
      destruct (cache_key_eqb (self, quote, f2, t2) (self, quote, f, t)) eqn:Hk.
      - apply cache_key_eqb_eq in Hk. inversion Hk; subst. contradiction.
      - apply (Hmiss (f2, t2)). right. exact Hx. }
    assert (cache_older bound w') as Hold'.
    { unfold cache_older in *. rewrite Hca. exact Hold1. }
    rewrite Ht.
    assert (forall data',
              (requests w + List.length ((i, (f, t)) :: rest)
               <= requests (snd (collect soup_rows net db_fault utcnow self quote
                                   total_chunks rest data' w')))%nat /\
              cache_older bound
                (snd (collect soup_rows net db_fault utcnow self quote total_chunks
                        rest data' w'))) as Hnext.
    { intros data'. destruct (IH data' w' Hnd' Hmiss' Hold') as (Hr & Ho).
      split; [cbn [List.length]; lia | exact Ho]. }
    destruct r as [page | e]; apply Hnext.
Qed.

Variable now utc_offset : Z.
Variable localtime : Z -> option Z.

(** X28.  The cache saves no request from one run to the next: each run of
    [process_single_pair] that gets as far as the pool (the clock is inside
    the years of [datetime], the constructor succeeds and the bounds are
    instants of [datetime]) has a new scraper, whose windows are not in
    the cache whatever earlier runs put there, so it asks the source at
    least once for each window of its plan; and the cache is afterwards
    again one that holds only entries of scrapers already created. *)
Theorem cache_never_helps_a_run (from_currency to_currency : string) (w : world) :
  (forall l, Permutation l (completion l)) ->
  cache_older (scrapers w) w ->
  clock_inside now ->
  db_fault (db_ops w) = None ->
  year_in_datetime_range localtime now utc_offset ->
  let w' := snd (process_single_pair soup_rows net db_fault utcnow completion
                   now utc_offset localtime from_currency to_currency w) in
  (requests w
   + List.length (Planner.plan (timestamp utc_offset (now - timedelta_days 365))
                    (timestamp utc_offset now))
   <= requests w')%nat /\
  scrapers w' = S (scrapers w) /\
  cache_older (scrapers w') w'.
Proof.
  intros Hperm Hold Hclock Hmade Hrange w'. subst w'.
  rewrite (process_single_pair_run soup_rows net db_fault utcnow completion now
             utc_offset localtime _ _ _ (clock_inside_past_first_year now Hclock)
             Hmade Hrange).
  unfold try_except, mbind, run_chunks, scraper_made.
  set (plan := Planner.plan (timestamp utc_offset (now - timedelta_days 365))
                 (timestamp utc_offset now)).
  set (w0 := mkWorld (requests w) (slept w) (cache w) (db w) (S (db_ops w))
               (S (scrapers w))).
  assert (NoDup (map snd (completion (enumerate plan)))) as Hnd.
  { apply (Permutation_NoDup (l := map snd (enumerate plan))).
    - apply Permutation_map, Hperm.
    - rewrite enumerate_windows. apply plan_nodup. }
  assert (forall x, In x (map snd (completion (enumerate plan))) ->
            cache_find (scrapers w, (from_currency ++ to_currency ++ "=X")%string,
                        fst x, snd x) (cache w0) = None) as Hmiss.
  { intros x _. apply cache_find_absent. intros Hin.
    unfold cache_older in Hold. rewrite Forall_forall in Hold.
    specialize (Hold _ Hin). unfold scraper_of in Hold. cbn [fst] in Hold. lia. }
  assert (cache_older (S (scrapers w)) w0) as Hold0.
  { unfold cache_older in *. cbn [cache w0]. eapply Forall_impl; [| exact Hold].
    intros k Hk. cbv beta in Hk |- *. apply Nat.lt_lt_succ_r, Hk. }
  destruct (collect_all_miss (S (scrapers w)) (scrapers w)
              (from_currency ++ to_currency ++ "=X")%string (List.length plan)
              (completion (enumerate plan)) (Nat.lt_succ_diag_r _) [] w0 Hnd Hmiss Hold0)
    as (Hreq & Hold1).
  rewrite <- (Permutation_length (Hperm (enumerate plan))), enumerate_length in Hreq.
  assert (scrapers (snd (collect soup_rows net db_fault utcnow (scrapers w)
                           (from_currency ++ to_currency ++ "=X")%string
                           (List.length plan) (completion (enumerate plan)) [] w0))
          = S (scrapers w)) as Hsc.
  { generalize (completion (enumerate plan)), (@nil string), w0,
      (eq_refl : scrapers w0 = S (scrapers w)).
    intros done. induction done as [| [i [f t]] rest IH]; intros data w1 Hw1;
      [exact Hw1 |].
    cbn [collect].
    destruct (task_effects soup_rows net db_fault utcnow (scrapers w)
                (from_currency ++ to_currency ++ "=X")%string f t (i + 1)
                (List.length plan) w1)
      as (v & w2 & r & w3 & _ & Ht & _ & _ & Hs & _).
    rewrite Ht. destruct r; apply IH; congruence. }
  destruct (collect _ _ _ _ _ _ _ _ _ _) as [all_data w1]. cbn [snd] in Hreq, Hold1, Hsc.
  cbn [requests w0] in Hreq.
  assert (forall h,
            let res := summarise soup_rows db_fault utcnow (scrapers w)
                         (from_currency ++ to_currency ++ "=X")%string now h w1 in
            requests (snd res) = requests w1 /\ cache (snd res) = cache w1 /\
            scrapers (snd res) = scrapers w1) as Hsum.
  { intros h. unfold summarise, mbind, lift, ret.
    destruct (negb (truthy_str h)); [repeat split |].
    destruct h as [html |]; [| repeat split].
    destruct (parse_exchange_data soup_rows html _) as [[[| r0 rs] |] | e];
      try (repeat split; fail).
    pose proof (save_cases db_fault utcnow (r0 :: rs) w1) as Hc.
    destruct (save_to_database db_fault utcnow (r0 :: rs) w1) as [[u | e] w2].
    - destruct Hc as (_ & _ & (Hq & _ & Hca & Hs)).
      destruct (period_loop now (r0 :: rs) periods []); cbn [snd];
        repeat split; assumption.
    - destruct Hc as (_ & _ & _ & (Hq & _ & Hca & Hs)). cbn [snd].
      repeat split; assumption. }
  assert (forall h,
            let res := summarise soup_rows db_fault utcnow (scrapers w)
                         (from_currency ++ to_currency ++ "=X")%string now h w1 in
            (requests w + List.length plan <= requests (snd res))%nat /\
            scrapers (snd res) = S (scrapers w) /\
            cache_older (scrapers (snd res)) (snd res)) as Hend.
  { intros h. destruct (Hsum h) as (Hq & Hca & Hs). cbv zeta.
    rewrite Hq, Hs, Hsc. unfold cache_older in *. rewrite Hca.
    repeat split; [lia | exact Hold1]. }
  destruct all_data as [| page pages];
    match goal with
    | |- context [summarise _ _ _ ?sc ?p ?e ?h ?w2] =>
        specialize (Hend h); cbv zeta in Hend;
        destruct (summarise soup_rows db_fault utcnow sc p e h w2) as [[s | err] w3]
    end; cbn [fst snd ret] in *; exact Hend.
Qed.

End CacheAcrossRuns.

Lemma cache_never_helps_a_run_witness :
  (requests empty_world
   + List.length (Planner.plan
                    (timestamp 0 (datetime_of_date 2024 1 15 - timedelta_days 365))
                    (timestamp 0 (datetime_of_date 2024 1 15)))
   <= requests (snd (process_single_pair sample_soup (flaky_source 0) no_faults
                       sample_clock in_order (datetime_of_date 2024 1 15) 0 utc
                       "GBP" "INR" empty_world)))%nat.
Proof.
  refine (proj1 (cache_never_helps_a_run sample_soup (flaky_source 0) no_faults
                   sample_clock in_order (datetime_of_date 2024 1 15) 0 utc
                   "GBP" "INR" empty_world _ _ _ _ _)).
  - intros l. apply Permutation_refl.
  - constructor.
  - split; vm_compute; discriminate.
  - reflexivity.
  - split; reflexivity.
Defined.

(* ===================================================================== *)
(** * Further properties of the counts of a summary                       *)
(* ===================================================================== *)

Lemma period_records_in (start : Z) (recs : list rate_data) :
  forall l, period_records start recs = Returned l ->
  forall r t, strptime_Y_m_d (date r) = Returned t ->
    (In r l <-> In r recs /\ start <= t).
Proof.
  induction recs as [| a rest IH]; intros l H r t Ht.
  - cbn in H. inversion H. cbn. tauto.
  - cbn [period_records] in H. unfold bind in H.
    destruct (strptime_Y_m_d (date a)) as [ta | e] eqn:Ha; [| discriminate].
    destruct (period_records start rest) as [tl | e]; [| discriminate].
    specialize (IH tl eq_refl r t Ht). inversion H; subst l. clear H.
    destruct (Z.leb_spec start ta) as [Hle | Hgt]; cbn [In]; split.
    + intros [-> | Hin]; [split; [left; reflexivity | congruence] |].
      apply IH in Hin. tauto.
    + intros [[-> | Hin] Hs]; [left; reflexivity | right; apply IH; tauto].
    + intros Hin. apply IH in Hin. tauto.
    + intros [[-> | Hin] Hs]; [| apply IH; tauto].
      exfalso. assert (ta = t) by congruence. lia.
Qed.

(** The records counted are among those given. *)
Lemma period_records_sublist (start : Z) (recs : list rate_data) :
  forall l, period_records start recs = Returned l ->
  forall r, In r l -> In r recs.
Proof.
  induction recs as [| a rest IH]; intros l H r Hin.
  - cbn in H. inversion H; subst l. destruct Hin.
  - cbn [period_records] in H. unfold bind in H.
    destruct (strptime_Y_m_d (date a)) as [ta | e]; [| discriminate].
    destruct (period_records start rest) as [tl | e]; [| discriminate].
    inversion H; subst l. clear H.
    destruct (start <=? ta); [destruct Hin as [<- | Hin] |];
      [left; reflexivity | right; apply (IH tl eq_refl r Hin)
      | right; apply (IH tl eq_refl r Hin)].
Qed.

(** A record whose date is refused leaves no count. *)
Lemma period_records_refused (start : Z) (recs : list rate_data)
    (r : rate_data) (e : exn) :
  In r recs -> strptime_Y_m_d (date r) = Raised e ->
  forall l, period_records start recs <> Returned l.
Proof.
  induction recs as [| a rest IH]; intros Hin Hr l H; [destruct Hin |].
  cbn [period_records] in H. unfold bind in H.
  destruct (strptime_Y_m_d (date a)) as [ta | e'] eqn:Ha; [| discriminate].
  destruct (period_records start rest) as [tl | e'] eqn:Hrest; [| discriminate].
  destruct Hin as [-> | Hin]; [congruence |].
  exact (IH Hin Hr tl eq_refl).
Qed.

Lemma midnight_reached (now days ord : Z) :
  now - timedelta_days days <= (ord - 1) * microseconds_per_day <->
  day_of now - days + (if now mod microseconds_per_day =? 0 then 0 else 1) <= ord.
Proof.
  unfold day_of, timedelta_days.
  pose proof (Z.div_mod now microseconds_per_day ltac:(discriminate)) as Hdm.
  pose proof (Z.mod_pos_bound now microseconds_per_day ltac:(reflexivity)) as Hm.
  set (q := now / microseconds_per_day) in *.
  set (m := now mod microseconds_per_day) in *.
  assert (0 < microseconds_per_day) as HU by reflexivity.
  set (U := microseconds_per_day) in *. clearbody U q m.
  destruct (Z.eqb_spec m 0) as [-> | Hne]; split; intros H; nia.
Qed.

(** X29.  The counts of a summary are taken by the clock, not by the day: a
    record whose date is the text [YYYY-MM-DD] of a day, or the text that
    [strftime('%Y-%m-%d')] writes for it, is counted for a period of [days]
    days exactly when the midnight of its day is not before the present
    time [days] days ago.  So its day may be the day [days] days ago only when the run is
    made at midnight; otherwise the count covers [days] calendar days back
    from today, one day fewer than the query of [get_forex_data] returns. *)
Theorem period_counts_by_the_clock (now days : Z) (recs l : list rate_data) :
  period_records (now - timedelta_days days) recs = Returned l ->
  forall r ymd,
    date r = iso_text ymd \/ date r = strftime_Y_m_d ymd ->
    valid_date (fst (fst ymd)) (snd (fst ymd)) (snd ymd) = true ->
    (In r l <->
     In r recs /\
     day_of now - days + (if now mod microseconds_per_day =? 0 then 0 else 1)
     <= toordinal ymd).
Proof.
  intros H r [[y m] d] Hdate Hv. cbn [fst snd toordinal] in *.
  assert (strptime_Y_m_d (date r) = Returned (datetime_of_date y m d) \/
          strptime_Y_m_d (date r) = Raised ValueError) as [Hback | Hback].
  { destruct Hdate as [Hdate | Hdate]; rewrite Hdate.
    - left. apply iso_text_round_trip, Hv.
    - destruct (stored_date_reads y m d Hv) as [_ Hread].
      destruct (1000 <=? y); [left | right]; exact Hread. }
  - rewrite (period_records_in _ _ _ H r _ Hback).
    unfold datetime_of_date. rewrite midnight_reached. reflexivity.
  - split.
    + intros Hin. exfalso.
      apply (period_records_refused _ _ r ValueError
               (period_records_sublist _ _ _ H r Hin) Hback l H).
    + intros [Hin _]. exfalso.
      apply (period_records_refused _ _ r ValueError Hin Hback l H).
Qed.

Lemma period_counts_by_the_clock_witness :
  let rate := sample_rate "GBPINR=X" "2024-01-08" 10548 0 in
  In rate [] <->
  In rate [rate] /\
  day_of (datetime_of_date 2024 1 15 + 1) - 7
  + (if (datetime_of_date 2024 1 15 + 1) mod microseconds_per_day =? 0 then 0 else 1)
  <= toordinal (2024, 1, 8).
Proof.
  intros rate.
  apply (period_counts_by_the_clock (datetime_of_date 2024 1 15 + 1) 7 [rate] []
           eq_refl rate (2024, 1, 8)); [left |]; reflexivity.
Defined.
